(** * node-sheetbase: a spreadsheet presented as a document store

    A shallow embedding of [lib/spreadsheet.js] (the grid adapter, class
    [Spreadsheet]) and [lib/sheet.js] (the document engine, class [Sheet]),
    with the properties of the specification stated over it.

    Conventions.
    - JavaScript numbers are modelled by [number]: an integer in [Z] or
      [NaN].  The model agrees with IEEE doubles on the integers up to
      2^53, where the code's arithmetic is exact; the module [Double]
      has the rounding of larger integers.  Fractions and infinities
      are outside of the model.
    - Strings are [string]s of 8-bit code units.
    - An [async] method is a computation in the monad [M]: it threads the
      adapter object (its cache and the log of transport calls) and may
      throw. *)

From Stdlib Require Import ZArith List String Ascii Bool Lia.
From stdpp Require Import gmap strings list pretty.
From Equations Require Import Equations.

Local Open Scope string_scope.
Local Open Scope Z_scope.

(** ** Characters and the two column conversions *)

Module Column.

(** [String.prototype.charCodeAt] on one code unit, and
    [String.fromCharCode]. *)
Definition charCodeAt (c : ascii) : Z := Z.of_nat (nat_of_ascii c).
Definition fromCharCode (n : Z) : ascii := ascii_of_nat (Z.to_nat n).

(** The regular expressions [/^[A-Z]+$/] and [/^[0-9]+$/] (also written
    [/^\d+$/]) of the source, as tests on a string. *)
Definition is_AZ (c : ascii) : bool :=
  (65 <=? charCodeAt c) && (charCodeAt c <=? 90).
Definition is_digit (c : ascii) : bool :=
  (48 <=? charCodeAt c) && (charCodeAt c <=? 57).

Fixpoint all_chars (p : ascii -> bool) (s : string) : bool :=
  match s with
  | EmptyString => true
  | String c s' => p c && all_chars p s'
  end.

Definition nonempty (s : string) : bool :=
  match s with EmptyString => false | String _ _ => true end.

Definition test_AZ (s : string) : bool := nonempty s && all_chars is_AZ s.
Definition test_digits (s : string) : bool := nonempty s && all_chars is_digit s.

(** [Sheet.columnToLetter]: the [while (column > 0)] loop, with [letter]
    as its accumulator.  On the positive integers the loop visits,
    [(column - temp - 1) / 26] is an exact division.  This is the loop
    for a column up to 2^53, where no operation of the code rounds;
    [Double.columnToLetter] is the loop with the rounding. *)
Equations? columnToLetter_loop (column : Z) (letter : string) : string
  by wf (Z.to_nat column) lt :=
  columnToLetter_loop column letter with Z_lt_dec 0 column => {
    | left _ :=
        let temp := Z.rem (column - 1) 26 in
        columnToLetter_loop ((column - temp - 1) / 26)
                            (String (fromCharCode (temp + 65)) letter);
    | right _ := letter }.
Proof.
  subst temp.
  assert (0 <= Z.rem (column - 1) 26 <= column - 1).
  { rewrite Z.rem_mod_nonneg by lia.
    split; [apply Z.mod_pos_bound | apply Z.mod_le]; lia. }
  apply Z2Nat.inj_lt; [apply Z.div_pos; lia | lia |].
  apply Z.div_lt_upper_bound; lia.
Qed.

Definition columnToLetter (column : Z) : string :=
  columnToLetter_loop column "".

(** [Spreadsheet.columnLetterToIndex]: the [for] loop over the code
    units; [rest] is the part of [letter] from position [i] on, so that
    [length - i - 1] is the length of what follows the current unit.
    This is the loop as long as the index stays within 2^53, where no
    operation of the code rounds; [Double.columnLetterToIndex] is the
    loop with the rounding. *)
Fixpoint columnLetterToIndex_loop (rest : string) (column : Z) : Z :=
  match rest with
  | EmptyString => column
  | String c rest' =>
      columnLetterToIndex_loop rest'
        (column + (charCodeAt c - 64) * 26 ^ Z.of_nat (String.length rest'))
  end.

Definition columnLetterToIndex (letter : string) : Z :=
  columnLetterToIndex_loop letter 0.

(** The same index read left to right, one multiplication per letter. *)
Fixpoint horner (s : string) (acc : Z) : Z :=
  match s with
  | EmptyString => acc
  | String c s' => horner s' (26 * acc + (charCodeAt c - 64))
  end.

End Column.
Export Column.

(** ** JavaScript values *)

Module JS.

Inductive number := NaN | Num (z : Z).

Inductive jsval :=
| JUndefined
| JNull
| JBool (b : bool)
| JNumber (n : number)
| JString (s : string).

(** An array with holes: [None] is an index never assigned.  [map] keeps
    the holes, [forEach] and [join] skip them. *)
Abbreviation array A := (list (option A)).
Abbreviation row := (array jsval).

Inductive error :=
| NotFound          (* new Error('sheet not found') *)
| InvalidArgument   (* new Error('no query specified') *)
| LoadFailed        (* new Error('can not get spreadsheet') *)
| TransportError    (* the transport's promise rejects *)
| TypeError
| RangeError
| SyntaxError.

Inductive result (A : Type) :=
| Ok (a : A)
| Throw (e : error).
Arguments Ok {A} a.
Arguments Throw {A} e.

Definition String_number (n : number) : string :=
  match n with NaN => "NaN" | Num z => pretty z end.

Definition ToString (v : jsval) : string :=
  match v with
  | JUndefined => "undefined"
  | JNull => "null"
  | JBool true => "true"
  | JBool false => "false"
  | JNumber n => String_number n
  | JString s => s
  end.

(** [!!v] *)
Definition truthy (v : jsval) : bool :=
  match v with
  | JUndefined | JNull => false
  | JBool b => b
  | JNumber NaN => false
  | JNumber (Num z) => negb (z =? 0)
  | JString s => nonempty s
  end.

(** [v || ''] *)
Definition or_empty (v : jsval) : jsval :=
  if truthy v then v else JString "".

Definition typeof_number (v : jsval) : bool :=
  match v with JNumber _ => true | _ => false end.

(** Arithmetic and comparison of numbers; every comparison with [NaN] is
    false.  The sum and the difference are those of the integers, which
    are the code's as long as the operands and the result are within
    2^53; [Double.add] and [Double.sub] round. *)
Definition num_add (a b : number) : number :=
  match a, b with Num x, Num y => Num (x + y) | _, _ => NaN end.
Definition num_sub (a b : number) : number :=
  match a, b with Num x, Num y => Num (x - y) | _, _ => NaN end.
Definition num_lt (a b : number) : bool :=
  match a, b with Num x, Num y => x <? y | _, _ => false end.
Definition num_le (a b : number) : bool :=
  match a, b with Num x, Num y => x <=? y | _, _ => false end.
Definition num_gt (a b : number) : bool := num_lt b a.
Definition num_ge (a b : number) : bool := num_le b a.
(** [n !== 0] *)
Definition num_nonzero (n : number) : bool :=
  match n with Num 0 => false | _ => true end.
(** a number used as a condition *)
Definition num_truthy (n : number) : bool :=
  match n with Num z => negb (z =? 0) | NaN => false end.

(** [parseInt(s)] without a radix: white space is skipped, then a sign,
    then the prefix [0x] selects base 16, then the longest run of digits
    is read; no digit at all gives [NaN].  The result is the integer
    read, which is the code's double when it is at most 2^53;
    [Double.parseInt] rounds a larger one. *)
Definition is_space (c : ascii) : bool :=
  let n := charCodeAt c in
  ((9 <=? n) && (n <=? 13)) || (n =? 32) || (n =? 160).

Fixpoint skip_spaces (s : string) : string :=
  match s with
  | String c s' => if is_space c then skip_spaces s' else s
  | EmptyString => s
  end.

Definition digit_value (radix : Z) (c : ascii) : option Z :=
  let n := charCodeAt c in
  let d := if (48 <=? n) && (n <=? 57) then n - 48
           else if (97 <=? n) && (n <=? 122) then n - 87
           else if (65 <=? n) && (n <=? 90) then n - 55
           else radix in
  if d <? radix then Some d else None.

Fixpoint parse_digits (radix : Z) (s : string) (acc : option Z) : option Z :=
  match s with
  | String c s' =>
      match digit_value radix c with
      | Some d => parse_digits radix s'
                    (Some (radix * (match acc with Some a => a | None => 0 end) + d))
      | None => acc
      end
  | EmptyString => acc
  end.

Definition parseInt_string (s : string) : number :=
  let s1 := skip_spaces s in
  let '(negative, s2) :=
    match s1 with
    | String "-" r => (true, r)
    | String "+" r => (false, r)
    | _ => (false, s1)
    end in
  let '(radix, s3) :=
    match s2 with
    | String "0" (String "x" r) => (16, r)
    | String "0" (String "X" r) => (16, r)
    | _ => (10, s2)
    end in
  match parse_digits radix s3 None with
  | Some z => Num (if negative then - z else z)
  | None => NaN
  end.

Definition parseInt (v : jsval) : number := parseInt_string (ToString v).

(** the value of a string of decimal digits *)
Fixpoint decimal_from (s : string) (acc : Z) : Z :=
  match s with
  | EmptyString => acc
  | String c s' => decimal_from s' (10 * acc + (charCodeAt c - 48))
  end.
Definition decimal (s : string) : Z := decimal_from s 0.

(** [Array.prototype.join]: holes, [undefined] and [null] are written as
    the empty string. *)
Definition join_element (o : option jsval) : string :=
  match o with
  | None | Some JUndefined | Some JNull => ""
  | Some v => ToString v
  end.

Fixpoint join (sep : string) (a : row) : string :=
  match a with
  | [] => ""
  | [x] => join_element x
  | x :: rest => join_element x ++ sep ++ join sep rest
  end.

(** [Array.prototype.slice(start, end)]: [NaN] counts as 0 and a negative
    bound is taken from the end. *)
Definition relative_index (len : Z) (k : number) : Z :=
  match k with
  | NaN => 0
  | Num z => if z <? 0 then Z.max (len + z) 0 else Z.min z len
  end.

Definition slice {A} (a : list A) (start stop : number) : list A :=
  let len := Z.of_nat (length a) in
  let k := relative_index len start in
  let final := relative_index len stop in
  take (Z.to_nat (final - k)) (drop (Z.to_nat k) a).

(** [a[i] = v] on an array: it grows, leaving holes, when [i] is past the
    end; a negative [i] names a property that is not an element. *)
Fixpoint array_set_nat {A} (i : nat) (v : A) (a : array A) : array A :=
  match i, a with
  | O, [] => [Some v]
  | O, _ :: rest => Some v :: rest
  | S i', [] => None :: array_set_nat i' v []
  | S i', x :: rest => x :: array_set_nat i' v rest
  end.

Definition array_set {A} (i : Z) (v : A) (a : array A) : array A :=
  if i <? 0 then a else array_set_nat (Z.to_nat i) v a.

(** [String.prototype.includes] *)
Fixpoint starts_with (p s : string) : bool :=
  match p, s with
  | EmptyString, _ => true
  | String a p', String b s' => if Ascii.eqb a b then starts_with p' s' else false
  | String _ _, EmptyString => false
  end.

Fixpoint includes (s sub : string) : bool :=
  starts_with sub s ||
  match s with
  | EmptyString => false
  | String _ s' => includes s' sub
  end.

(** [s.replace(/\*/g, by)] *)
Fixpoint replace_stars (by_ s : string) : string :=
  match s with
  | EmptyString => ""
  | String c s' =>
      if Ascii.eqb c "*" then by_ ++ replace_stars by_ s'
      else String c (replace_stars by_ s')
  end.

(** What the source leaves to the JavaScript engine: conversion of a
    string to a number, case mapping, collation, regular expressions and
    the sorting algorithm. *)
Class Engine := {
  StringToNumber : string -> number;
  toLowerCase : string -> string;
  toUpperCase : string -> string;
  localeCompare : string -> string -> number;
  RegExp : Type;
  (** [new RegExp(source, flags)] *)
  new_RegExp : string -> string -> result RegExp;
  (** [re.test(s)] *)
  RegExp_test : RegExp -> string -> bool;
  (** [s.replace(re, fn)] for a global [re] *)
  String_replace : string -> RegExp -> (string -> jsval) -> string;
  (** [a.sort(compare)] *)
  Array_sort : forall A : Type, (A -> A -> result number) -> list A -> result (list A);
}.

(** [ToNumber], and [a + b], which concatenates when an operand is a
    string. *)
Definition ToNumber {engine : Engine} (v : jsval) : number :=
  match v with
  | JUndefined => NaN
  | JNull => Num 0
  | JBool b => Num (if b then 1 else 0)
  | JNumber n => n
  | JString s => StringToNumber s
  end.

Definition js_add {engine : Engine} (a b : jsval) : jsval :=
  match a, b with
  | JString _, _ | _, JString _ => JString (ToString a ++ ToString b)
  | _, _ => JNumber (num_add (ToNumber a) (ToNumber b))
  end.

End JS.
Export JS.

(** ** The rounding of doubles

    The numbers of the code are IEEE doubles.  Every integer up to 2^53
    in absolute value is a double, and a sum, difference or product of
    integers that stays in that range is computed exactly: that is
    where [Num z], read as the double of value [z], and the operations
    of [JS] on it are the code's.  Beyond, a double keeps 53 significant
    bits.  This module has the rounding itself, for integer values
    below 2^1024, and with it the two column conversions and [parseInt]
    as the code computes them; the lemmas [columnLetterToIndex_safe],
    [columnToLetter_safe] and [parseInt_safe] show that up to 2^53 they
    are the definitions over [Z]. *)

Module Double.

Definition two53 : Z := 2 ^ 53.

(** [a / b] rounded to the nearest integer, a tie going to the even
    one; [0 <= a] and [0 < b] *)
Definition round_half_even (a b : Z) : Z :=
  let q := a / b in
  let r := a mod b in
  if 2 * r <? b then q
  else if b <? 2 * r then q + 1
  else if Z.even q then q else q + 1.

(** the double nearest to the integer [z]: its 53 leading bits, rounded
    to nearest, ties to even *)
Definition round53 (z : Z) : Z :=
  let a := Z.abs z in
  if a <? two53 then z
  else let scale := 2 ^ (Z.log2 a - 52) in
       Z.sgn z * (round_half_even a scale * scale).

(** The double nearest to the quotient [a / b] of two integers, [0 <= a]
    and [0 < b], when that double is an integer; [None] when it has
    digits after the binary point. *)
Definition div53 (a b : Z) : option Z :=
  let q := a / b in
  if a mod b =? 0 then Some (round53 q)
  else if q <? 1 then None
  else if q <? 2 ^ 52 then
    let scale := 2 ^ (52 - Z.log2 q) in
    let m := round_half_even (a * scale) b in
    if m mod scale =? 0 then Some (m / scale) else None
  else
    let scale := 2 ^ (Z.log2 q - 52) in
    Some (round_half_even a (b * scale) * scale).

(** [a + b], [a - b] on doubles of integer value *)
Definition add (a b : number) : number :=
  match a, b with Num x, Num y => Num (round53 (x + y)) | _, _ => NaN end.
Definition sub (a b : number) : number :=
  match a, b with Num x, Num y => Num (round53 (x - y)) | _, _ => NaN end.

(** [parseInt(s)]: the double nearest to the integer read.  From the
    21st significant digit on an engine may read a digit as 0: the
    result is given for an integer below 10^20, and not modelled
    beyond. *)
Definition parseInt (s : string) : option number :=
  match parseInt_string s with
  | Num z => if Z.abs z <? 10 ^ 20 then Some (Num (round53 z)) else None
  | NaN => Some NaN
  end.

(** [Spreadsheet.columnLetterToIndex]: each product and each sum is
    rounded.  [Math.pow(26, k)] is the integer [26 ^ k] as long as that
    is a double, which it is up to [k = 14]; beyond, its value is left
    to the engine, and the index of a longer string is not modelled. *)
Fixpoint columnLetterToIndex_loop (rest : string) (column : Z) : Z :=
  match rest with
  | EmptyString => column
  | String c rest' =>
      let power := round53 (26 ^ Z.of_nat (String.length rest')) in
      columnLetterToIndex_loop rest'
        (round53 (column + round53 ((charCodeAt c - 64) * power)))
  end.

Definition columnLetterToIndex (letter : string) : option Z :=
  if (String.length letter <=? 15)%nat
  then Some (columnLetterToIndex_loop letter 0)
  else None.

(** [Sheet.columnToLetter] on a double of integer value: [column - 1],
    [column - temp] and [... - 1] are rounded, [%] is exact, and the
    quotient by 26 is rounded.  The result is [None] when a quotient is
    not an integer (the code goes on with a fraction, which is not
    modelled), or when the turns of the loop outnumber [fuel]. *)
Fixpoint columnToLetter_loop (fuel : nat) (column : Z) (letter : string)
  : option string :=
  if column <=? 0 then Some letter
  else match fuel with
       | O => None
       | S fuel' =>
           let temp := Z.rem (round53 (column - 1)) 26 in
           match div53 (round53 (round53 (column - temp) - 1)) 26 with
           | Some column' =>
               columnToLetter_loop fuel' column'
                 (String (fromCharCode (temp + 65)) letter)
           | None => None
           end
       end.

(** a turn of the loop at least halves the column: as many turns as the
    column has bits are enough *)
Definition columnToLetter (column : Z) : option string :=
  columnToLetter_loop (Z.to_nat (Z.log2 column) + 1) column "".

End Double.

(** ** The grid adapter: data, transport and the monad of its methods *)

Module Adapter.

(** The cached grid snapshot built by [load]. *)

(** A cell of the cached grid: [null], or [{ text }] where [text] is the
    formatted value the service sent ([None]: it sent none). *)
Abbreviation GridCell := (option (option string)).

Record SheetInfo := {
  id : Z;
  title : string;
  index : Z;
  type : string;
  rowCount : Z;
  columnCount : Z;
  values : list (list GridCell);
}.

Record SpreadsheetData := {
  sd_id : string;
  sd_url : string;
  sd_title : string;
  sd_locale : string;
  sd_timezone : string;
  sheets : list SheetInfo;
}.

(** What [spreadsheets.get] answers, as far as [load] reads it. *)
Record RawCell := {
  userEnteredValue : bool;          (* is the field there *)
  formattedValue : option string;
}.

Record SheetProperties := {
  sheetId : Z;
  p_title : string;
  p_index : Z;
  sheetType : string;
  grid_rowCount : Z;
  grid_columnCount : Z;
}.

Record RawSheet := {
  properties : SheetProperties;
  (** [sheet.data[0].rowData]; [None] when [data], [data[0]] or
      [rowData] is missing.  A row is [None] when it has no [values]. *)
  rowData : option (list (option (list RawCell)));
}.

Record RawSpreadsheet := {
  r_spreadsheetId : string;
  r_spreadsheetUrl : string;
  r_title : string;
  r_locale : string;
  r_timeZone : string;
  r_sheets : list RawSheet;
}.

(** Requests of [spreadsheets.batchUpdate]. *)
Inductive Dimension := ROWS | COLUMNS.

Inductive BatchRequest :=
| addSheet_request (title : string)
| deleteSheet_request (sheetId : Z)
| deleteDimension (sheetId : Z) (dimension : Dimension) (startIndex endIndex : number)
| appendDimension (sheetId : Z) (dimension : Dimension) (length : number).

(** One range of a batched value write: [{ range, majorDimension:
    'ROWS', values }]. *)
Record ValueRange := {
  range : string;
  vr_values : list row;
}.

(** [this.api.call(method, params)], one constructor per method the
    adapter calls. *)
Inductive Request :=
| spreadsheets_get (spreadsheetId : string)
| spreadsheets_values_get (spreadsheetId range : string)
| spreadsheets_values_append (spreadsheetId range : string) (values : list row)
| spreadsheets_values_batchUpdate (spreadsheetId : string) (data : list ValueRange)
| spreadsheets_batchUpdate (spreadsheetId : string) (requests : list BatchRequest)
| drive_files_get (fileId fields : string).

(** [result.updates] of [spreadsheets.values.append]. *)
Record AppendUpdates := {
  u_spreadsheetId : string;
  updatedRange : string;
  u_updatedRows : number;
}.

(** What the transport resolves to.  A method reads the fields it needs;
    reading a field of a missing object is a [TypeError]. *)
Inductive Reply :=
| reply_spreadsheet (result : option RawSpreadsheet)   (* [None]: falsy, or no [sheets] *)
| reply_values (values : option (list row))             (* [result && result.values] *)
| reply_append (updates : AppendUpdates)
| reply_batch (replies : list SheetProperties)          (* [replies[i].addSheet.properties] *)
| reply_other.

(** The remote service: its answer to a request, given the requests made
    before it (oldest first); [None] when the call is rejected. *)
Class Transport := {
  respond : list Request -> Request -> option Reply;
}.

(** The adapter object: [this.options.spreadsheetId], [this.data] and the
    calls made on [this.api] so far. *)
Record Spreadsheet := {
  spreadsheetId : string;
  data : option SpreadsheetData;
  calls : list Request;
}.

Definition set_data (d : option SpreadsheetData) (w : Spreadsheet) : Spreadsheet :=
  {| spreadsheetId := spreadsheetId w; data := d; calls := calls w |}.

Definition M (A : Type) : Type := Spreadsheet -> result A * Spreadsheet.

Definition ret {A} (a : A) : M A := fun w => (Ok a, w).
Definition throw {A} (e : error) : M A := fun w => (Throw e, w).
Definition bind {A B} (c : M A) (k : A -> M B) : M B :=
  fun w =>
    match c w with
    | (Ok a, w') => k a w'
    | (Throw e, w') => (Throw e, w')
    end.
(** a synchronous computation that may throw *)
Definition lift {A} (r : result A) : M A := fun w => (r, w).
Definition get_data : M (option SpreadsheetData) := fun w => (Ok (data w), w).
Definition put_data (d : option SpreadsheetData) : M unit :=
  fun w => (Ok tt, set_data d w).
Definition get_spreadsheetId : M string := fun w => (Ok (spreadsheetId w), w).

(** [try { c } catch (err) { h }] *)
Definition try_catch {A} (c : M A) (h : M A) : M A :=
  fun w =>
    match c w with
    | (Ok a, w') => (Ok a, w')
    | (Throw _, w') => h w'
    end.

Definition api_call {transport : Transport} (req : Request) : M Reply :=
  fun w =>
    let w' := {| spreadsheetId := spreadsheetId w; data := data w;
                 calls := calls w ++ [req] |} in
    match respond (calls w) req with
    | Some reply => (Ok reply, w')
    | None => (Throw TransportError, w')
    end.

End Adapter.
Export Adapter.

Declare Scope monad_scope.
Delimit Scope monad_scope with monad.
Notation "x <- c ;; k" := (bind c (fun x => k))
  (at level 100, c at next level, right associativity) : monad_scope.
Notation "c ;;; k" := (bind c (fun _ => k))
  (at level 100, right associativity) : monad_scope.

(** the same for a synchronous computation *)
Definition rbind {A B} (r : result A) (k : A -> result B) : result B :=
  match r with Ok a => k a | Throw e => Throw e end.
Notation "'let?' x := r 'in' k" := (rbind r (fun x => k))
  (at level 100, x pattern, r at next level, right associativity).

Fixpoint mapR {A B} (f : A -> result B) (l : list A) : result (list B) :=
  match l with
  | [] => Ok []
  | x :: rest =>
      let? y := f x in
      let? ys := mapR f rest in
      Ok (y :: ys)
  end.

(** ** The grid adapter: [class Spreadsheet] *)

Module Spreadsheet.
Local Open Scope monad_scope.

Section Methods.
Context {engine : Engine} {transport : Transport}.

Definition parse_cell (item : RawCell) : GridCell :=
  if userEnteredValue item then Some (formattedValue item) else None.

Definition parse_sheet (sheet : RawSheet) : SheetInfo :=
  let properties := properties sheet in
  let values :=
    match rowData sheet with
    | Some rows =>
        map (fun rowData =>
               match rowData with
               | None => []
               | Some cells => map parse_cell cells
               end) rows
    | None => []
    end in
  {| id := sheetId properties;
     title := p_title properties;
     index := p_index properties;
     type := sheetType properties;
     rowCount := grid_rowCount properties;
     columnCount := grid_columnCount properties;
     values := values |}.

Definition parse_spreadsheet (result : RawSpreadsheet) : SpreadsheetData :=
  {| sd_id := r_spreadsheetId result;
     sd_url := r_spreadsheetUrl result;
     sd_title := r_title result;
     sd_locale := r_locale result;
     sd_timezone := r_timeZone result;
     sheets := map parse_sheet (r_sheets result) |}.

(** [load]: the snapshot, fetched when [this.data] is empty; an error
    inside the [try] is logged and what was cached is returned. *)
Definition load : M (option SpreadsheetData) :=
  data0 <- get_data ;;
  try_catch
    (match data0 with
     | Some d => ret (Some d)
     | None =>
         sid <- get_spreadsheetId ;;
         result <- api_call (spreadsheets_get sid) ;;
         match result with
         | reply_spreadsheet (Some raw) =>
             let d := parse_spreadsheet raw in
             put_data (Some d) ;;; ret (Some d)
         | _ => throw LoadFailed
         end
     end)
    (ret data0).

(** [s => String(s.id) === String(id || 0) || s.title === id] *)
Definition sheet_matches (id : jsval) (s : SheetInfo) : bool :=
  String.eqb (pretty (Adapter.id s))
             (ToString (if truthy id then id else JNumber (Num 0)))
  || match id with JString t => String.eqb (title s) t | _ => false end.

Definition getSheet (id : jsval) : M (option SheetInfo) :=
  spreadsheet <- load ;;
  match spreadsheet with
  | None => throw NotFound
  | Some sp => ret (List.find (sheet_matches id) (sheets sp))
  end.

Definition request (requests : list BatchRequest) : M Reply :=
  sid <- get_spreadsheetId ;;
  api_call (spreadsheets_batchUpdate sid requests).

Definition addSheet (title : string) : M SheetProperties :=
  result <- request [addSheet_request title] ;;
  match result with
  | reply_batch (properties :: _) =>
      put_data None ;;; ret properties
  | _ => throw TypeError
  end.

Definition deleteSheet (sheet : jsval) : M Reply :=
  selectedSheet <- getSheet sheet ;;
  match selectedSheet with
  | None => throw NotFound
  | Some sh =>
      r <- request [deleteSheet_request (id sh)] ;;
      put_data None ;;; ret r
  end.

Definition range_A_ZZ (sheetTitle : string) (first last : number) : string :=
  "'" ++ sheetTitle ++ "'!A" ++ String_number first ++ ":ZZ" ++ String_number last.

(** [expand] *)
Definition expand (rows columns : number) (sheetId : Z) : M (option Reply) :=
  let requests :=
    ((if num_truthy rows then [appendDimension sheetId ROWS rows] else [])
     ++ (if num_truthy columns then [appendDimension sheetId COLUMNS columns] else []))%list in
  match requests with
  | [] => ret None
  | _ => ret_ <- request requests ;; ret (Some ret_)
  end.

(** [getFileInfo] *)
Definition getFileInfo : M Reply :=
  sid <- get_spreadsheetId ;;
  api_call (drive_files_get sid
    "id,name,kind,mimeType,createdTime,modifiedTime,size,version,lastModifyingUser").

(** A row as the caller gives it: an array, or a plain object given by
    its keys (in the order of [Object.keys]) and values.  The argument
    of [dataToValue] is such a row or a value that is no object. *)
Inductive RowObject :=
| RowArray (a : row)
| RowMap (o : list (string * jsval)).

Inductive RowData :=
| Row (r : RowObject)
| RowOther (v : jsval).

Coercion Row : RowObject >-> RowData.

(** one turn of [Object.keys(data).forEach] *)
Definition dataToValue_key (line : row) (entry : string * jsval) : row :=
  let '(key, v) := entry in
  if test_AZ key then array_set (columnLetterToIndex key - 1) v line
  else if test_digits key then
    match parseInt_string key with
    | Num n => array_set (n - 1) v line
    | NaN => line
    end
  else line.

Definition dataToValue (data : RowData) : result row :=
  match data with
  | Row (RowArray a) => Ok a
  | RowOther JNull => Throw TypeError      (* [Object.keys(null)] *)
  | RowOther _ => Ok []
  | Row (RowMap o) => Ok (fold_left dataToValue_key o [])
  end.

(** [updatedRange.match(/^'([\S\s]+?)'!([A-Z]+)(\d+):([A-Z]+)(\d+)$/)]:
    the groups 1 to 5, or [None] when the string has another form. *)
Record RangeMatch := {
  m_title : string;
  m_startColumn : string;
  m_startRow : string;
  m_endColumn : string;
  m_endRow : string;
}.

Fixpoint span (p : ascii -> bool) (s : string) : string * string :=
  match s with
  | String c s' =>
      if p c then let '(a, b) := span p s' in (String c a, b) else ("", s)
  | EmptyString => ("", "")
  end.

(** what follows the title: ['!], letters, digits, [:], letters, digits,
    the end *)
Definition match_cells (s : string) : option (string * string * string * string) :=
  match s with
  | String "'" (String "!" s1) =>
      let '(c1, s2) := span is_AZ s1 in
      let '(r1, s3) := span is_digit s2 in
      match s3 with
      | String ":" s4 =>
          let '(c2, s5) := span is_AZ s4 in
          let '(r2, s6) := span is_digit s5 in
          if nonempty c1 && nonempty r1 && nonempty c2 && nonempty r2
             && negb (nonempty s6)
          then Some (c1, r1, c2, r2) else None
      | _ => None
      end
  | _ => None
  end.

(** the lazy group 1: the shortest non-empty title after which the rest
    matches *)
Fixpoint match_title (title : string) (s : string) : option RangeMatch :=
  match s with
  | EmptyString => None
  | String c s' =>
      let title' := title ++ String c "" in
      match match_cells s' with
      | Some (c1, r1, c2, r2) =>
          Some {| m_title := title'; m_startColumn := c1;
                  m_startRow := r1; m_endColumn := c2; m_endRow := r2 |}
      | None => match_title title' s'
      end
  end.

Definition match_range (s : string) : option RangeMatch :=
  match s with
  | String "'" s' => match_title "" s'
  | _ => None
  end.

(** [append].  Its [data] is one row, or an array of rows: an array
    whose first element is an array or an object. *)
Inductive AppendData :=
| OneRow (data : RowData)
| ManyRows (first : RowObject) (others : list RowData).

Record AppendResult := {
  a_spreadsheetId : string;
  a_sheet : string;
  startRow : number;
  endRow : number;
  insertedRows : number;
}.

(** [typeof data === 'object' && typeof data[0] !== 'object' ? [data] :
    data], followed by [items.map(item => this.dataToValue(item))].  Of
    the values of a cell only [null] has type ['object']; of a value that
    is no object nothing can be mapped. *)
Definition append_values (data : AppendData) : result (list row) :=
  match data with
  | OneRow (Row (RowArray a)) =>
      match a with
      | Some JNull :: _ => Throw TypeError     (* [dataToValue(null)] *)
      | _ => mapR dataToValue [Row (RowArray a)]
      end
  | OneRow (Row (RowMap o)) =>
      match List.find (fun entry => String.eqb (fst entry) "0") o with
      | Some (_, JNull) => Throw TypeError     (* [items.map] is not a function *)
      | _ => mapR dataToValue [Row (RowMap o)]
      end
  | OneRow (RowOther _) => Throw TypeError
  | ManyRows first others => mapR dataToValue (Row first :: others)
  end.

(** [value.concat(new Array(columnNo - value.length).fill(''))] *)
Definition pad_to (columnNo : Z) (value : row) : result row :=
  let n := columnNo - Z.of_nat (length value) in
  if n <? 0 then Throw RangeError
  else Ok (value ++ repeat (Some (JString "")) (Z.to_nat n))%list.

Definition append (data : AppendData) (sheet : jsval) : M AppendResult :=
  selectedSheet <- getSheet sheet ;;
  match selectedSheet with
  | None => throw NotFound
  | Some sh =>
      values <- lift (append_values data) ;;
      sid <- get_spreadsheetId ;;
      result <- api_call (spreadsheets_values_append sid
                            ("'" ++ title sh ++ "'!A:ZZ") values) ;;
      match result with
      | reply_append updates =>
          match match_range (updatedRange updates) with
          | None => throw TypeError
          | Some matched =>
              let startRow := parseInt_string (m_startRow matched) in
              let endRow := parseInt_string (m_endRow matched) in
              let columnNo := columnLetterToIndex (m_endColumn matched) in
              (if negb (String.eqb (m_startColumn matched) "A") then
                 padded <- lift (mapR (pad_to columnNo) values) ;;
                 api_call (spreadsheets_values_batchUpdate sid
                   [ {| range := range_A_ZZ (title sh) startRow endRow;
                        vr_values := padded |} ]) ;;; ret tt
               else ret tt) ;;;
              put_data None ;;;
              ret {| a_spreadsheetId := u_spreadsheetId updates;
                     a_sheet := m_title matched;
                     startRow := startRow;
                     endRow := endRow;
                     insertedRows := u_updatedRows updates |}
          end
      | _ => throw TypeError
      end
  end.

Fixpoint foldR {A B} (f : A -> B -> result A) (l : list B) (a : A) : result A :=
  match l with
  | [] => Ok a
  | x :: rest => let? a' := f a x in foldR f rest a'
  end.

(** [update] *)
Inductive UpdateData :=
| UpdateByRow (update : list (string * RowData))   (* an object: row number -> row *)
| UpdateList (update : list (jsval * RowData)).    (* an array of [{ row, data }] *)

Definition updateRows (update : UpdateData) : list (jsval * RowData) :=
  match update with
  | UpdateByRow o => map (fun '(key, d) => (JNumber (parseInt_string key), d)) o
  | UpdateList l => l
  end.

Record UpdateState := {
  addRows : number;
  addColumns : number;
  ranges : list ValueRange;
}.

(** One turn of [updateRows.map(item => ...)].  In [value >
    selectedSheet.columnCount] the array [value] is first converted to a
    primitive, the string [value.join(',')], and that string to a
    number. *)
Definition update_item (selectedSheet : SheetInfo) (st : UpdateState)
    (item : jsval * RowData) : result UpdateState :=
  let '(row, d) := item in
  let rowCount := Num (rowCount selectedSheet) in
  let columnCount := Num (columnCount selectedSheet) in
  let over_rows := num_sub (ToNumber row) rowCount in
  let addRows' :=
    if num_gt (ToNumber row) rowCount && num_gt over_rows (addRows st)
    then over_rows else addRows st in
  let? value := dataToValue d in
  let value_number := StringToNumber (join "," value) in
  let over_columns := num_sub value_number columnCount in
  let addColumns' :=
    if num_gt value_number columnCount && num_gt over_columns (addColumns st)
    then over_columns else addColumns st in
  Ok {| addRows := addRows';
        addColumns := addColumns';
        ranges := (ranges st ++
          [ {| range := "'" ++ title selectedSheet ++ "'!A" ++ ToString row
                        ++ ":ZZ" ++ ToString row;
               vr_values := [value] |} ])%list |}.

Record UpdateResult := { updatedRows : number }.

Definition update (update : option UpdateData) (sheet : jsval) (upsert : bool)
  : M UpdateResult :=
  match update with
  | None => ret {| updatedRows := Num 0 |}
  | Some update =>
      selectedSheet <- getSheet sheet ;;
      match selectedSheet with
      | None => throw NotFound
      | Some sh =>
          st <- lift (foldR (update_item sh) (updateRows update)
                        {| addRows := Num 0; addColumns := Num 0; ranges := [] |}) ;;
          (if upsert then expand (addRows st) (addColumns st) (id sh) ;;; ret tt
           else ret tt) ;;;
          sid <- get_spreadsheetId ;;
          api_call (spreadsheets_values_batchUpdate sid (ranges st)) ;;;
          put_data None ;;;
          ret {| updatedRows := Num (0 + Z.of_nat (length (ranges st))) |}
      end
  end.

(** [delete].  [rows] and [columns] are arrays (an absent one is the
    empty array: both skip the branch). *)
Record DeleteResult := {
  ok : number;
  deletedRowsCount : number;
  deleteColumnsCount : number;
  deletedColumnsCount : option number;   (* [None]: never assigned *)
}.

(** [{ startIndex: query.start - 1, endIndex: query.start + (query.limit
    || 1) - 1 }] for [query = { start, limit: 1 }] *)
Definition delete_request (sheetId : Z) (dimension : Dimension) (start : jsval)
  : BatchRequest :=
  deleteDimension sheetId dimension
    (num_sub (ToNumber start) (Num 1))
    (num_sub (ToNumber (js_add start (JNumber (Num 1)))) (Num 1)).

Definition delete (rows columns : list jsval) (sheet : jsval) : M DeleteResult :=
  selectedSheet <- getSheet sheet ;;
  match selectedSheet with
  | None => throw NotFound
  | Some sh =>
      sorted <- lift (match rows with
                      | [] => Ok []
                      | _ => Array_sort jsval
                               (fun a b => Ok (num_sub (ToNumber b) (ToNumber a))) rows
                      end) ;;
      let requests :=
        (map (delete_request (id sh) ROWS) sorted
         ++ map (delete_request (id sh) COLUMNS) columns)%list in
      match requests with
      | [] => ret tt
      | _ => request requests ;;; ret tt
      end ;;;
      put_data None ;;;
      ret {| ok := Num 1;
             deletedRowsCount := Num (0 + Z.of_nat (length sorted));
             deleteColumnsCount := Num 0;
             deletedColumnsCount :=
               match columns with [] => None | _ => Some NaN end |}
  end.

(** [list]: the options it reads. *)
Record ListOptions := {
  limit : option number;
  start : option number;
  sheet : jsval;
  fresh : bool;
}.

Definition cell_text (grid : GridCell) : jsval :=
  match grid with
  | None => JNull
  | Some None => JUndefined
  | Some (Some t) => JString t
  end.

(** [None] stands for a falsy [result && result.values]. *)
Definition list (options : ListOptions) : M (option (list row)) :=
  let limit := default (Num 2000000) (limit options) in
  let start := default (Num 1) (start options) in
  let end_ := num_sub (num_add start limit) (Num 1) in
  selectedSheet <- getSheet (sheet options) ;;
  match selectedSheet with
  | None => throw NotFound
  | Some sh =>
      if fresh options then
        sid <- get_spreadsheetId ;;
        result <- api_call (spreadsheets_values_get sid
                              (range_A_ZZ (title sh) start end_)) ;;
        ret (match result with reply_values v => v | _ => None end)
      else
        ret (Some (map (fun grids => map (fun grid => Some (cell_text grid)) grids)
                       (slice (values sh) (num_sub start (Num 1)) end_)))
  end.

End Methods.
End Spreadsheet.

(** ** The document engine: [class Sheet] *)

Module Sheet.
Local Open Scope monad_scope.

(** A document: field name to value; the row number is the field
    [_row]. *)
Abbreviation Doc := (gmap string jsval).

(** [doc[key]] *)
Definition field (doc : Doc) (key : string) : jsval :=
  default JUndefined (doc !! key).

(** An array of documents with its optional [_header] attribute. *)
Record Data := {
  docs : list Doc;
  _header : option row;
}.

(** The options of [find], [valuesToData] and [filterData]; [None] is a
    key that is not given.  The flags are read for their truth only. *)
Record Options := {
  o_sheet : option jsval;
  o_start : option number;
  o_limit : option number;
  o_fresh : bool;
  o_skip : option number;
  o_sort : option (list (string * number));
  o_header : bool;
  o_startRow : option number;
  o_column : bool;
  o_lowercase : bool;
}.

(** [options || {}] *)
Definition no_options : Options :=
  {| o_sheet := None; o_start := None; o_limit := None; o_fresh := false;
     o_skip := None; o_sort := None; o_header := false; o_startRow := None;
     o_column := false; o_lowercase := false |}.

Section Methods.
Context {engine : Engine} {transport : Transport}.
(** [this.options.sheet] *)
Variable this_sheet : jsval.

(** [raw] *)
Definition raw : M (option SpreadsheetData) := Spreadsheet.load.

(** *** [valuesToData] *)

(** [v => lowercase && v ? v.toLowerCase() : v] over an array with
    holes *)
Definition header_cell (lowercase : bool) (cell : option jsval)
  : result (option jsval) :=
  match cell with
  | None => Ok None
  | Some v =>
      if lowercase && truthy v then
        match v with
        | JString s => Ok (Some (JString (toLowerCase s)))
        | _ => Throw TypeError
        end
      else Ok (Some v)
  end.

(** one turn of [value.forEach((v, j) => ...)] *)
Definition set_cell (header : row) (column : bool) (json : Doc) (j : nat)
    (cell : option jsval) : Doc :=
  match cell with
  | None => json
  | Some v =>
      let json1 :=
        match header !! j with
        | Some (Some h) => if truthy h then <[ToString h := or_empty v]> json else json
        | _ => json
        end in
      if column then <[columnToLetter (Z.of_nat j + 1) := or_empty v]> json1
      else json1
  end.

Fixpoint set_cells (header : row) (column : bool) (j : nat) (value : row)
    (json : Doc) : Doc :=
  match value with
  | [] => json
  | cell :: rest =>
      set_cells header column (S j) rest (set_cell header column json j cell)
  end.

(** [{ _row: startRow ? startRow + i - 1 : i + 1 }] *)
Definition row_number (startRow : option number) (i : nat) : number :=
  match startRow with
  | Some s => if num_truthy s then num_sub (num_add s (Num (Z.of_nat i))) (Num 1)
              else Num (Z.of_nat i + 1)
  | None => Num (Z.of_nat i + 1)
  end.

Definition row_to_doc (header : row) (options : Options) (i : nat) (value : row)
  : Doc :=
  set_cells header (o_column options) 0 value
    {[ "_row" := JNumber (row_number (o_startRow options) i) ]}.

(** [values.forEach((value, i) => ...)], from index [i] on *)
Fixpoint rows_to_docs (header : row) (options : Options) (i : nat)
    (values : list row) : list Doc :=
  match values with
  | [] => []
  | value :: rest =>
      let others := rows_to_docs header options (S i) rest in
      if Nat.eqb i 0 || String.eqb (join "" value) "" then others
      else row_to_doc header options i value :: others
  end.

Definition valuesToData (values : option (list row)) (options : option Options)
  : result Data :=
  let options := default no_options options in
  match values with
  | None | Some [] => Ok {| docs := []; _header := None |}
  | Some (first :: rest) =>
      let? header := mapR (header_cell (o_lowercase options)) first in
      Ok {| docs := rows_to_docs header options 0 (first :: rest);
            _header := if o_header options then Some header else None |}
  end.

(** *** [buildFilter] *)

(** One value of a query object. *)
Inductive QueryTerm :=
| QValue (v : jsval)                         (* a string, number, boolean, [undefined] or [null] *)
| QFunction (f : jsval -> result jsval)
| QRegExp (re : RegExp)
| QObject (ops : list (string * jsval)).     (* a plain object: its keys and values *)

Abbreviation Query := (list (string * QueryTerm)).

Inductive TermType :=
| t_string | t_pattern | t_contains | t_gt | t_lt | t_gte | t_lte
| t_empty | t_function.

Inductive TermValue :=
| term_val (v : jsval)
| term_regexp (re : RegExp)
| term_fun (f : jsval -> result jsval).

Record Term := {
  key : string;
  type : TermType;
  value : TermValue;
}.

(** the [switch (op)] of the object branch *)
Definition operator_type (op : string) : option TermType :=
  if String.eqb op "$contains" then Some t_contains
  else if String.eqb op "$gt" then Some t_gt
  else if String.eqb op "$lt" then Some t_lt
  else if String.eqb op "$lte" then Some t_lte
  else if String.eqb op "$gte" then Some t_gte
  else if String.eqb op "$empty" then Some t_empty
  else None.

Definition operator_terms (key : string) (ops : list (string * jsval)) : list Term :=
  omap (fun '(op, v) =>
          match operator_type op with
          | Some ty => Some {| key := key; type := ty; value := term_val v |}
          | None => None
          end) ops.

(** the terms one key of the query adds *)
Definition field_terms (key : string) (term : QueryTerm) : result (list Term) :=
  match term with
  | QValue (JString s) =>
      if includes s "*" then
        let? re := new_RegExp ("^" ++ replace_stars "(.*?)" s ++ "$") "" in
        Ok [ {| key := key; type := t_pattern; value := term_regexp re |} ]
      else Ok [ {| key := key; type := t_string; value := term_val (JString s) |} ]
  | QFunction f => Ok [ {| key := key; type := t_function; value := term_fun f |} ]
  | QRegExp re => Ok [ {| key := key; type := t_pattern; value := term_regexp re |} ]
  | QObject ops => Ok (operator_terms key ops)
  | QValue JNull => Throw TypeError          (* [Object.keys(null)] *)
  | QValue v =>
      Ok [ {| key := key; type := t_string; value := term_val (JString (ToString v)) |} ]
  end.

Fixpoint buildFilter_keys (query : Query) (terms : list Term) : result (list Term) :=
  match query with
  | [] => Ok terms
  | (key, term) :: rest =>
      let? added := field_terms key term in
      buildFilter_keys rest (terms ++ added)%list
  end.

Definition buildFilter (query : option Query) : result (list Term) :=
  match query with
  | None => Ok []
  | Some q => buildFilter_keys q []
  end.

(** *** [buildFilterFn] *)

(** The callback of [filter.some]: does the term reject the item?  The
    [default] branch of the [switch] is not reached by the terms of
    [buildFilter]; a term whose value has not the kind its type goes
    with would call a method that is not there. *)
Definition term_rejects (f : Term) (item : Doc) : result bool :=
  let itemValue := field item (key f) in
  match type f, value f with
  | t_string, term_val v =>
      Ok (negb (String.eqb (ToString itemValue) (ToString v)))
  | t_pattern, term_regexp re =>
      Ok (negb (RegExp_test re (ToString itemValue)))
  | t_contains, term_val v =>
      match itemValue with
      | JString s => Ok (negb (includes s (ToString v)))
      | _ => Throw TypeError
      end
  | t_gt, term_val v => Ok (num_le (parseInt itemValue) (ToNumber v))
  | t_lt, term_val v => Ok (num_ge (parseInt itemValue) (ToNumber v))
  | t_gte, term_val v => Ok (num_lt (parseInt itemValue) (ToNumber v))
  | t_lte, term_val v => Ok (num_gt (parseInt itemValue) (ToNumber v))
  | t_empty, term_val v =>
      Ok (if truthy v then truthy itemValue else negb (truthy itemValue))
  | t_function, term_fun g =>
      let? r := g itemValue in Ok (negb (truthy r))
  | _, _ => Throw TypeError
  end.

(** [filter.some(f => ...)] *)
Fixpoint some_rejects (filter : list Term) (item : Doc) : result bool :=
  match filter with
  | [] => Ok false
  | f :: rest =>
      let? rejected := term_rejects f item in
      if rejected then Ok true else some_rejects rest item
  end.

Definition buildFilterFn (query : option Query) : result (Doc -> result bool) :=
  let? filter := buildFilter query in
  Ok (fun item => let? rejected := some_rejects filter item in Ok (negb rejected)).

(** *** [buildSortFn] *)

Definition sort_number (v : jsval) : number :=
  match v with JNumber n => n | _ => parseInt v end.

(** the [for (let key in sort)] loop of the comparison function *)
Fixpoint compare_docs (sort : list (string * number)) (a b : Doc) : result number :=
  match sort with
  | [] => Ok (Num 0)
  | (key, weight) :: rest =>
      let av := field a key in
      let bv := field b key in
      let desc := num_lt weight (Num 0) in
      let numeric :=
        (test_digits (ToString av) && test_digits (ToString bv))
        || (typeof_number av && typeof_number bv) in
      let? n :=
        if numeric then Ok (num_sub (sort_number av) (sort_number bv))
        else match av with
             | JString s => Ok (localeCompare s (ToString bv))
             | _ => Throw TypeError
             end in
      let n' :=
        if desc && num_nonzero n
        then (if num_gt n (Num 0) then Num (-1) else Num 1) else n in
      if num_nonzero n' then Ok n' else compare_docs rest a b
  end.

Definition buildSortFn (sort : option (list (string * number)))
  : option (Doc -> Doc -> result number) :=
  match sort with
  | None | Some [] => None
  | Some keys => Some (compare_docs keys)
  end.

(** *** [filterData] *)

(** [data.filter(filterFn)] *)
Fixpoint filter_docs (filterFn : Doc -> result bool) (data : list Doc)
  : result (list Doc) :=
  match data with
  | [] => Ok []
  | item :: rest =>
      let? keep := filterFn item in
      let? others := filter_docs filterFn rest in
      Ok (if keep then item :: others else others)
  end.

Definition filterData (data : Data) (query : option Query) (options : option Options)
  : result Data :=
  match docs data with
  | [] => Ok data
  | _ =>
      let options := default no_options options in
      let skip := default (Num 0) (o_skip options) in
      let limit := default (Num 0) (o_limit options) in
      let? filterFn := buildFilterFn (Some (default [] query)) in
      let sortFn := buildSortFn (o_sort options) in
      let header := _header data in
      let? result := filter_docs filterFn (docs data) in
      let? result := match sortFn with
                     | Some compare => Array_sort Doc compare result
                     | None => Ok result
                     end in
      let result :=
        if num_gt skip (Num 0) || num_gt limit (Num 0)
        then slice result skip (num_add skip limit) else result in
      Ok {| docs := result; _header := header |}
  end.

(** *** [find], [findOne] *)

(** [{ sheet: this.options.sheet, ...options }] as [list] reads it *)
Definition list_options (options : option Options) : Spreadsheet.ListOptions :=
  let o := default no_options options in
  {| Spreadsheet.limit := o_limit o;
     Spreadsheet.start := o_start o;
     Spreadsheet.sheet := default this_sheet (o_sheet o);
     Spreadsheet.fresh := o_fresh o |}.

Definition find (query : option Query) (options : option Options) : M Data :=
  values <- Spreadsheet.list (list_options options) ;;
  data <- lift (valuesToData values options) ;;
  lift (filterData data query options).

(** [{ ...options, limit: 1 }] *)
Definition with_limit_1 (options : option Options) : Options :=
  let o := default no_options options in
  {| o_sheet := o_sheet o; o_start := o_start o; o_limit := Some (Num 1);
     o_fresh := o_fresh o; o_skip := o_skip o; o_sort := o_sort o;
     o_header := o_header o; o_startRow := o_startRow o;
     o_column := o_column o; o_lowercase := o_lowercase o |}.

(** [None] is the [undefined] that [pop] gives on an empty array. *)
Definition findOne (query : option Query) (options : option Options)
  : M (option Doc) :=
  data <- find query (Some (with_limit_1 options)) ;;
  ret (last (docs data)).

(** *** [delete] *)

Definition delete (query : option Query) : M Spreadsheet.DeleteResult :=
  match query with
  | None => throw InvalidArgument
  | Some _ =>
      data <- find query None ;;
      let rows := map (fun item => field item "_row") (docs data) in
      Spreadsheet.delete rows [] this_sheet
  end.

(** *** [update] *)

(** The operand of an update operator, and one value of the patch. *)
Inductive Operand :=
| OpValue (v : jsval)
| OpObject (o : list (string * jsval)).     (* a plain object, as [$replace] takes *)

Inductive PatchValue :=
| PatchLiteral (v : jsval)
| PatchObject (ops : list (string * Operand)).

Abbreviation Patch := (list (string * PatchValue)).

(** [String(v)] *)
Definition String_operand (v : Operand) : string :=
  match v with
  | OpValue v => ToString v
  | OpObject _ => "[object Object]"
  end.

(** [Object.keys(v)] and [v[mv]] *)
Definition operand_keys (v : Operand) : result (list string) :=
  match v with
  | OpObject o => Ok (map fst o)
  | OpValue JUndefined | OpValue JNull => Throw TypeError
  | OpValue (JString s) => Ok (map (fun i => pretty (Z.of_nat i)) (seq 0 (String.length s)))
  | OpValue _ => Ok []
  end.

Definition operand_get (v : Operand) (mv : string) : jsval :=
  match v with
  | OpObject o =>
      match List.find (fun entry => String.eqb (fst entry) mv) o with
      | Some (_, x) => x
      | None => JUndefined
      end
  | OpValue (JString s) =>
      match List.find (fun i => String.eqb (pretty (Z.of_nat i)) mv)
                      (seq 0 (String.length s)) with
      | Some i => match String.get i s with
                  | Some c => JString (String c "")
                  | None => JUndefined
                  end
      | None => JUndefined
      end
  | OpValue _ => JUndefined
  end.

Fixpoint join_strings (sep : string) (l : list string) : string :=
  match l with
  | [] => ""
  | [x] => x
  | x :: rest => x ++ sep ++ join_strings sep rest
  end.

(** The [switch (k)] of the operator branch: the new value of the cell,
    or [None] when [k] is no operator and nothing is assigned. *)
Definition apply_operator (k : string) (v : Operand) (orgValue : jsval)
  : result (option string) :=
  if String.eqb k "$inc" then
    Ok (Some (String_number
      (num_add (parseInt_string (String_operand v))
               (if typeof_number orgValue || test_digits (ToString orgValue)
                then parseInt orgValue else Num 0))))
  else if String.eqb k "$append" then
    Ok (Some (ToString orgValue ++ String_operand v))
  else if String.eqb k "$prepend" then
    Ok (Some (String_operand v ++ ToString orgValue))
  else if String.eqb k "$lowercase" then
    match orgValue with
    | JString s => Ok (Some (toLowerCase s))
    | _ => Throw TypeError
    end
  else if String.eqb k "$uppercase" then
    match orgValue with
    | JString s => Ok (Some (toUpperCase s))
    | _ => Throw TypeError
    end
  else if String.eqb k "$replace" then
    let? keys := operand_keys v in
    let? re := new_RegExp (join_strings "|" keys) "g" in
    match orgValue with
    | JString s => Ok (Some (String_replace s re (operand_get v)))
    | _ => Throw TypeError
    end
  else Ok None.

(** [line], an object whose keys are column numbers; [Object.keys] lists
    them in ascending order. *)
Fixpoint line_set (index : Z) (s : string) (line : list (Z * string))
  : list (Z * string) :=
  match line with
  | [] => [(index, s)]
  | (i, x) :: rest =>
      if index =? i then (index, s) :: rest
      else if index <? i then (index, s) :: (i, x) :: rest
      else (i, x) :: line_set index s rest
  end.

(** [header.indexOf(key)] *)
Fixpoint indexOf_from (header : row) (key : string) (j : Z) : Z :=
  match header with
  | [] => -1
  | Some (JString s) :: rest =>
      if String.eqb s key then j else indexOf_from rest key (j + 1)
  | _ :: rest => indexOf_from rest key (j + 1)
  end.

Definition indexOf (header : row) (key : string) : Z := indexOf_from header key 0.

(** one turn of [Object.keys(update).forEach(key => ...)]; [header] is
    [data._header], [None] when the attribute is not there *)
Definition patch_field (header : option row) (item : Doc) (line : list (Z * string))
    (entry : string * PatchValue) : result (list (Z * string)) :=
  let '(key, value) := entry in
  match header with
  | None => Throw TypeError                       (* [header.indexOf] of nothing *)
  | Some header =>
      let index := indexOf header key + 1 in
      let orgValue := or_empty (field item key) in
      match value with
      | PatchLiteral (JString s) => Ok (line_set index s line)
      | PatchLiteral (JNumber n) => Ok (line_set index (String_number n) line)
      | PatchLiteral JNull => Throw TypeError      (* [Object.keys(null)] *)
      | PatchLiteral _ => Ok line
      | PatchObject ops =>
          Spreadsheet.foldR
            (fun line '(k, v) =>
               let? r := apply_operator k v orgValue in
               Ok (match r with Some s => line_set index s line | None => line end))
            ops line
      end
  end.

Definition line_object (line : list (Z * string)) : Spreadsheet.RowObject :=
  Spreadsheet.RowMap (map (fun '(i, s) => (pretty i, JString s)) line).

Definition strict_equal (a b : jsval) : bool :=
  match a, b with
  | JUndefined, JUndefined | JNull, JNull => true
  | JBool x, JBool y => Bool.eqb x y
  | JNumber (Num x), JNumber (Num y) => x =? y
  | JString x, JString y => String.eqb x y
  | _, _ => false
  end.

(** one turn of [data.forEach(item => ...)] *)
Definition patch_item (header : option row) (update : Patch)
    (updateData : list (jsval * Spreadsheet.RowData)) (item : Doc)
  : result (list (jsval * Spreadsheet.RowData)) :=
  let row := field item "_row" in
  let? line := Spreadsheet.foldR (patch_field header item) update [] in
  Ok (if existsb (fun i => strict_equal (fst i) row) updateData then updateData
      else (updateData ++ [(row, Spreadsheet.Row (line_object line))])%list).

Definition update (query : option Query) (update : Patch) : M Spreadsheet.UpdateResult :=
  data <- find query (Some {| o_sheet := None; o_start := None; o_limit := None;
                              o_fresh := false; o_skip := None; o_sort := None;
                              o_header := true; o_startRow := None;
                              o_column := false; o_lowercase := false |}) ;;
  updateData <- lift (Spreadsheet.foldR (patch_item (_header data) update)
                        (docs data) []) ;;
  Spreadsheet.update (Some (Spreadsheet.UpdateList updateData)) this_sheet true.


(** *** [getHeader], [updateHeader], [insert] *)

Definition getHeader : M row :=
  values <- Spreadsheet.list {| Spreadsheet.limit := Some (Num 1);
                                Spreadsheet.start := None;
                                Spreadsheet.sheet := this_sheet;
                                Spreadsheet.fresh := false |} ;;
  match values with
  | None => throw TypeError                       (* [values[0]] of nothing *)
  | Some [] => ret []
  | Some (first :: _) => ret first
  end.

Definition updateHeader (header : row) : M Spreadsheet.UpdateResult :=
  Spreadsheet.update
    (Some (Spreadsheet.UpdateByRow [("1", Spreadsheet.Row (Spreadsheet.RowArray header))]))
    this_sheet true.

(** The documents given to [insert]: one, or an array of them; a
    document is given by its keys and values. *)
Inductive InsertData :=
| OneDocument (item : list (string * jsval))
| ManyDocuments (items : list (list (string * jsval))).

Record InsertState := {
  i_header : row;
  addHeaders : list string;
  i_values : list row;
}.

(** one turn of [Object.keys(item).forEach(key => ...)]: the header so
    far, the names added to it, and the row being built *)
Definition insert_key (st : row * list string * row) (entry : string * jsval)
  : row * list string * row :=
  let '(header, added, value) := st in
  let '(key, v) := entry in
  let index := indexOf header key in
  if index =? -1
  then ((header ++ [Some (JString key)])%list, (added ++ [key])%list,
        array_set (Z.of_nat (length header)) v value)
  else (header, added, array_set index v value).

(** one turn of [data.forEach(item => ...)] *)
Definition insert_item (st : InsertState) (item : list (string * jsval)) : InsertState :=
  let '(header, added, value) :=
    fold_left insert_key item (i_header st, addHeaders st, []) in
  {| i_header := header; addHeaders := added;
     i_values := (i_values st ++ [value])%list |}.

Definition insert (data : InsertData) : M Data :=
  header <- getHeader ;;
  let items := match data with
               | OneDocument item => [item]
               | ManyDocuments items => items
               end in
  let st := fold_left insert_item items
              {| i_header := header; addHeaders := []; i_values := [] |} in
  match addHeaders st with
  | [] => ret tt
  | _ => updateHeader (i_header st) ;;; ret tt
  end ;;;
  ret_ <- Spreadsheet.append
            match i_values st with
            | [] => Spreadsheet.OneRow (Spreadsheet.Row (Spreadsheet.RowArray []))
            | first :: others =>
                Spreadsheet.ManyRows (Spreadsheet.RowArray first)
                  (map (fun value => Spreadsheet.Row (Spreadsheet.RowArray value)) others)
            end
            this_sheet ;;
  lift (valuesToData (Some (i_header st :: i_values st))
          (Some {| o_sheet := None; o_start := None; o_limit := None;
                   o_fresh := false; o_skip := None; o_sort := None;
                   o_header := false;
                   o_startRow := Some (Spreadsheet.startRow ret_);
                   o_column := false; o_lowercase := false |})).

End Methods.

Abbreviation Query := (list (string * QueryTerm)).
Abbreviation Patch := (list (string * PatchValue)).

End Sheet.

(** ** An engine and a service for closed examples

    The engine reads decimal integers, maps the case of the letters A to
    Z, collates by code unit and sorts by insertion.  It has no regular
    expressions: [new RegExp] throws, so no example below builds one. *)

Module Example.

Fixpoint map_string (f : ascii -> ascii) (s : string) : string :=
  match s with
  | EmptyString => ""
  | String c s' => String (f c) (map_string f s')
  end.

Definition lower (c : ascii) : ascii :=
  if is_AZ c then fromCharCode (charCodeAt c + 32) else c.
Definition upper (c : ascii) : ascii :=
  if (97 <=? charCodeAt c) && (charCodeAt c <=? 122)
  then fromCharCode (charCodeAt c - 32) else c.

Definition decimal_number (s : string) : number :=
  match skip_spaces s with
  | EmptyString => Num 0
  | s1 =>
      let '(negative, s2) :=
        match s1 with
        | String "-" r => (true, r)
        | String "+" r => (false, r)
        | _ => (false, s1)
        end in
      let '(digits, rest) := Spreadsheet.span is_digit s2 in
      if nonempty digits && negb (nonempty (skip_spaces rest))
      then Num (if negative then - decimal digits else decimal digits)
      else NaN
  end.

Definition compare_units (a b : string) : number :=
  match String.compare a b with
  | Lt => Num (-1)
  | Eq => Num 0
  | Gt => Num 1
  end.

Fixpoint insert_sorted {A} (compare : A -> A -> result number) (x : A) (l : list A)
  : result (list A) :=
  match l with
  | [] => Ok [x]
  | y :: rest =>
      let? n := compare x y in
      if num_le n (Num 0) then Ok (x :: y :: rest)
      else let? rest' := insert_sorted compare x rest in Ok (y :: rest')
  end.

Fixpoint insertion_sort {A} (compare : A -> A -> result number) (l : list A)
  : result (list A) :=
  match l with
  | [] => Ok []
  | x :: rest =>
      let? sorted := insertion_sort compare rest in
      insert_sorted compare x sorted
  end.

Definition engine : Engine :=
  {| StringToNumber := decimal_number;
     toLowerCase := map_string lower;
     toUpperCase := map_string upper;
     localeCompare := compare_units;
     RegExp := Empty_set;
     new_RegExp := fun _ _ => Throw SyntaxError;
     RegExp_test := fun re _ => match re with end;
     String_replace := fun _ re _ => match re with end;
     Array_sort := @insertion_sort |}.

(** A service that answers by the request alone. *)
Definition service (answer : Request -> option Reply) : Transport :=
  {| respond := fun _ request => answer request |}.

(** A sheet "S" of ten rows and two columns: the header [name], [score]
    and two rows of data. *)
Definition cell (s : string) : GridCell := Some (Some s).

Definition sheet_S : SheetInfo :=
  {| id := 0; title := "S"; index := 0; type := "GRID";
     rowCount := 10; columnCount := 2;
     values := [ [cell "name"; cell "score"];
                 [cell "a"; cell "5"];
                 [cell "b"; cell "7"] ] |}.

Definition snapshot : SpreadsheetData :=
  {| sd_id := "doc"; sd_url := "url"; sd_title := "Doc"; sd_locale := "en";
     sd_timezone := "UTC"; sheets := [sheet_S] |}.

(** the adapter with the snapshot in its cache and no call made yet *)
Definition loaded : Spreadsheet :=
  {| spreadsheetId := "doc"; data := Some snapshot; calls := [] |}.

(** every write is accepted *)
Definition accepting : Transport := service (fun _ => Some reply_other).

(** the service puts a two-row append at C5:D6 *)
Definition appending_at_C5 : Transport :=
  service (fun request =>
    match request with
    | spreadsheets_values_append _ _ _ =>
        Some (reply_append {| u_spreadsheetId := "doc";
                              updatedRange := "'S'!C5:D6";
                              u_updatedRows := Num 2 |})
    | _ => Some reply_other
    end).

End Example.

(** ** Definitions used in the statements *)

(** the rows as the corrective write sends them *)
Definition padded_rows (columnNo : Z) (values : list row) : list row :=
  map (fun value =>
         (value ++ repeat (Some (JString ""))
                          (Z.to_nat (columnNo - Z.of_nat (length value))))%list)
      values.


Module AppendExample.
Import Example.

Definition two_rows : Spreadsheet.AppendData :=
  Spreadsheet.ManyRows
    (Spreadsheet.RowArray [Some (JString "a"); Some (JString "b")])
    [ Spreadsheet.Row (Spreadsheet.RowArray [Some (JString "c")]) ].

Definition request : Request :=
  spreadsheets_values_append "doc" "'S'!A:ZZ"
    [ [Some (JString "a"); Some (JString "b")]; [Some (JString "c")] ].

(** what the adapter sends to correct the append reported at C5:D6 *)
Definition correction : Request :=
  spreadsheets_values_batchUpdate "doc"
    [ {| range := "'S'!A5:ZZ6";
         vr_values :=
           [ [Some (JString "a"); Some (JString "b"); Some (JString ""); Some (JString "")];
             [Some (JString "c"); Some (JString ""); Some (JString ""); Some (JString "")] ] |} ].

End AppendExample.

Module UpdateExample.
Import Example.

(** one row of three cells for row 1 of the two-column sheet "S" *)
Definition three_cells : Spreadsheet.UpdateData :=
  Spreadsheet.UpdateList
    [ (JNumber (Num 1),
       Spreadsheet.Row
         (Spreadsheet.RowArray
            [Some (JString "a"); Some (JString "b"); Some (JString "c")])) ].

Definition write_row_1 : Request :=
  spreadsheets_values_batchUpdate "doc"
    [ {| range := "'S'!A1:ZZ1";
         vr_values := [ [Some (JString "a"); Some (JString "b"); Some (JString "c")] ] |} ].

(** one cell for row 12 of the ten-row sheet "S" *)
Definition row_12 : Spreadsheet.UpdateData :=
  Spreadsheet.UpdateList
    [ (JNumber (Num 12), Spreadsheet.Row (Spreadsheet.RowArray [Some (JString "a")])) ].

Definition write_row_12 : Request :=
  spreadsheets_values_batchUpdate "doc"
    [ {| range := "'S'!A12:ZZ12"; vr_values := [ [Some (JString "a")] ] |} ].

(** the single cell "13" for row 1 *)
Definition cell_13 : Spreadsheet.UpdateData :=
  Spreadsheet.UpdateList
    [ (JNumber (Num 1), Spreadsheet.Row (Spreadsheet.RowArray [Some (JString "13")])) ].

Definition write_cell_13 : Request :=
  spreadsheets_values_batchUpdate "doc"
    [ {| range := "'S'!A1:ZZ1"; vr_values := [ [Some (JString "13")] ] |} ].

End UpdateExample.

(** the largest amount by which a row number exceeds [rowCount], from
    [start] on *)
Definition max_overrun (rowCount : Z) (rows : list Z) (start : Z) : Z :=
  fold_left (fun most row => Z.max most (row - rowCount)) rows start.

(** the field names that column [j] of a row assigns in [valuesToData]:
    the header's name when there is one, and the column letter when the
    option [column] is set *)
Definition writes (header : row) (column : bool) (j : nat) : list string :=
  (match header !! j with
   | Some (Some h) => if truthy h then [ToString h] else []
   | _ => []
   end
   ++ (if column then [columnToLetter (Z.of_nat j + 1)] else []))%list.

(** A document has the fields of the cells of its row: a field the row
    assigns holds the value of the last cell assigning it ([''] for an
    empty one), and a field no cell of the row assigns is not set. *)
Definition populated (header : row) (column : bool) (value : row) (doc : Sheet.Doc)
  : Prop :=
  (forall (j : nat) (v : jsval) (k : string),
      value !! j = Some (Some v) ->
      In k (writes header column j) ->
      (forall (j' : nat) (v' : jsval),
          (j < j')%nat -> value !! j' = Some (Some v') ->
          ~ In k (writes header column j')) ->
      doc !! k = Some (or_empty v))
  /\ (forall k : string,
        k <> "_row" ->
        (forall (j : nat) (v : jsval),
            value !! j = Some (Some v) -> ~ In k (writes header column j)) ->
        doc !! k = None).

Module ValuesExample.
(** a header of two names and a row of one cell *)
Definition short_row : list row :=
  [ [Some (JString "name"); Some (JString "score")];
    [Some (JString "a")] ].
Definition doc_a : Sheet.Doc :=
  <[ "name" := JString "a" ]> {[ "_row" := JNumber (Num 2) ]}.
End ValuesExample.



(** the operators of a query term *)
Definition query_operators : list string :=
  ["$contains"; "$gt"; "$lt"; "$lte"; "$gte"; "$empty"].

Module QueryExample.
(** [{ name: { $foo: 1 } }] *)
Definition unknown_operator {engine : Engine} : Sheet.Query :=
  [ ("name", Sheet.QObject [("$foo", JNumber (Num 1))]) ].
(** [{ name: 'a' }] *)
Definition name_a {engine : Engine} : Sheet.Query :=
  [ ("name", Sheet.QValue (JString "a")) ].
(** the two documents of the sheet "S" *)
Definition doc_a : Sheet.Doc :=
  <[ "score" := JString "5" ]> (<[ "name" := JString "a" ]> {[ "_row" := JNumber (Num 2) ]}).
Definition doc_b : Sheet.Doc :=
  <[ "score" := JString "7" ]> (<[ "name" := JString "b" ]> {[ "_row" := JNumber (Num 3) ]}).
End QueryExample.

(** ** Definitions used in the further properties *)

Module Scenario.
Import Example.

(** the service is down: every call is rejected *)
Definition rejecting : Transport := service (fun _ => None).

(** an adapter that has not loaded anything yet *)
Definition unloaded : Spreadsheet :=
  {| spreadsheetId := "doc"; data := None; calls := [] |}.

(** rows 2 to 3 of the sheet "S" *)
Definition rows_2_3 : Spreadsheet.ListOptions :=
  {| Spreadsheet.limit := Some (Num 2); Spreadsheet.start := Some (Num 2);
     Spreadsheet.sheet := JUndefined; Spreadsheet.fresh := false |}.

(** the service reports the appended range without quoting the title *)
Definition appending_unquoted : Transport :=
  service (fun request =>
    match request with
    | spreadsheets_values_append _ _ _ =>
        Some (reply_append {| u_spreadsheetId := "doc";
                              updatedRange := "S!A4:B4";
                              u_updatedRows := Num 1 |})
    | _ => Some reply_other
    end).

(** the options [{ limit: 2 }] *)
Definition limit_2 : Sheet.Options :=
  {| Sheet.o_sheet := None; Sheet.o_start := None; Sheet.o_limit := Some (Num 2);
     Sheet.o_fresh := false; Sheet.o_skip := None; Sheet.o_sort := None;
     Sheet.o_header := false; Sheet.o_startRow := None; Sheet.o_column := false;
     Sheet.o_lowercase := false |}.

(** the options [{ skip: 1 }] *)
Definition skip_1 : Sheet.Options :=
  {| Sheet.o_sheet := None; Sheet.o_start := None; Sheet.o_limit := None;
     Sheet.o_fresh := false; Sheet.o_skip := Some (Num 1); Sheet.o_sort := None;
     Sheet.o_header := false; Sheet.o_startRow := None; Sheet.o_column := false;
     Sheet.o_lowercase := false |}.

(** one row [['c', '9']] *)
Definition one_row : Spreadsheet.AppendData :=
  Spreadsheet.OneRow
    (Spreadsheet.Row (Spreadsheet.RowArray [Some (JString "c"); Some (JString "9")])).

End Scenario.

(** the range [update] writes for one target row: ['title'!A<row>:ZZ<row>]
    with the row's values *)
Definition update_range (sheetTitle : string) (target : jsval) (value : row)
  : ValueRange :=
  {| range := "'" ++ sheetTitle ++ "'!A" ++ ToString target ++ ":ZZ" ++ ToString target;
     vr_values := [value] |}.

(** the request that deletes the one row, or column, numbered [n] *)
Definition delete_one (sheetId : Z) (dimension : Dimension) (n : Z) : BatchRequest :=
  deleteDimension sheetId dimension (Num (n - 1)) (Num n).

(** [(a, b) => b - a] on the row numbers, as [delete] sorts them *)
Definition descending {engine : Engine} (a b : jsval) : result number :=
  Ok (num_sub (ToNumber b) (ToNumber a)).

(** the indices, counted from [i], of the rows that are not blank *)
Fixpoint filled_rows (i : nat) (values : list row) : list nat :=
  match values with
  | [] => []
  | value :: rest =>
      if String.eqb (join "" value) "" then filled_rows (S i) rest
      else i :: filled_rows (S i) rest
  end.

(** the number a document gets for the row of index [i] of the listed
    rows: counted from [startRow] when that option is a number other
    than 0, and from the top of the listed rows otherwise *)
Definition numbered (startRow : option number) (i : nat) : Z :=
  match startRow with
  | Some (Num s) => if s =? 0 then Z.of_nat i + 1 else s + Z.of_nat i - 1
  | _ => Z.of_nat i + 1
  end.


(** the first cell of the header holding the string [key] is at index
    [j] *)
Definition first_at (header : row) (key : string) (j : nat) : Prop :=
  header !! j = Some (Some (JString key))
  /\ forall j' : nat, (j' < j)%nat -> header !! j' <> Some (Some (JString key)).

(** the header cell of a column named [k] *)
Definition column_named (k : string) : option jsval := Some (JString k).

(** what [insert] has after its loop over the documents: the header,
    the names added to it and the rows to append *)
Definition inserted (header : row) (items : list (list (string * jsval)))
  : Sheet.InsertState :=
  fold_left Sheet.insert_item items
    {| Sheet.i_header := header; Sheet.addHeaders := []; Sheet.i_values := [] |}.

(** The row [value] holds the fields of the document [item] under the
    header: each value at the first column named by its key, and no
    cell that is not such a value. *)
Definition placed (header : row) (item : list (string * jsval)) (value : row) : Prop :=
  (forall k v, In (k, v) item ->
     exists j : nat, first_at header k j /\ value !! j = Some (Some v))
  /\ (forall (j : nat) (v : jsval),
        value !! j = Some (Some v) ->
        exists k : string, In (k, v) item /\ first_at header k j).

(** a character other than the quote *)
Definition not_quote (c : ascii) : bool := negb (Ascii.eqb c "'").

(** what the loop keeps true of the header and of the names added to
    [header0] *)
Definition grown (header0 header : row) (added : list string) : Prop :=
  header = (header0 ++ map column_named added)%list
  /\ NoDup added
  /\ forall k, In k added -> ~ In (column_named k) header0.

(** the header row [getHeader] reads from the cached grid of a sheet *)
Definition header_of (sh : SheetInfo) : row :=
  match values sh with
  | [] => []
  | first :: _ => map (fun grid => Some (Spreadsheet.cell_text grid)) first
  end.

(** the rows an append request carries for the rows [insert] built *)
Definition rows_sent (rows : list row) : list row :=
  match rows with
  | [] => [[]]
  | _ => rows
  end.

(** the rows of [insert] as [append] takes them *)
Definition rows_data (rows : list row) : Spreadsheet.AppendData :=
  match rows with
  | [] => Spreadsheet.OneRow (Spreadsheet.Row (Spreadsheet.RowArray []))
  | first :: others =>
      Spreadsheet.ManyRows (Spreadsheet.RowArray first)
        (map (fun value => Spreadsheet.Row (Spreadsheet.RowArray value)) others)
  end.

(** a computation only adds to the record of the calls *)
Definition grows {A} (c : M A) : Prop :=
  forall w, exists more, calls (snd (c w)) = (calls w ++ more)%list.

(** the options [{ header: 1 }] with which [update] calls [find] *)
Definition with_header : Sheet.Options :=
  {| Sheet.o_sheet := None; Sheet.o_start := None; Sheet.o_limit := None;
     Sheet.o_fresh := false; Sheet.o_skip := None; Sheet.o_sort := None;
     Sheet.o_header := true; Sheet.o_startRow := None; Sheet.o_column := false;
     Sheet.o_lowercase := false |}.

(** a computation leaves the identity of the spreadsheet as it is *)
Definition keeps_id {A} (c : M A) : Prop :=
  forall w, spreadsheetId (snd (c w)) = spreadsheetId w.


(** * Properties *)

(** ** Column letters *)

Lemma columnLetterToIndex_loop_acc s column :
  columnLetterToIndex_loop s column = column + columnLetterToIndex_loop s 0.
Proof.
  revert column. induction s as [|c s IH]; intros column;
    cbn [columnLetterToIndex_loop]; [lia|].
  rewrite (IH (column + _)), (IH (0 + _)). lia.
Qed.

Lemma horner_index s acc :
  horner s acc = acc * 26 ^ Z.of_nat (String.length s) + columnLetterToIndex s.
Proof.
  unfold columnLetterToIndex. revert acc.
  induction s as [|c s IH]; intros acc.
  - simpl. lia.
  - cbn [horner columnLetterToIndex_loop String.length].
    rewrite IH, (columnLetterToIndex_loop_acc s (_ + _)).
    rewrite Nat2Z.inj_succ, Z.pow_succ_r by lia. lia.
Qed.

Lemma columnLetterToIndex_horner s : columnLetterToIndex s = horner s 0.
Proof. rewrite horner_index. lia. Qed.

Lemma is_AZ_range c : is_AZ c = true -> 1 <= charCodeAt c - 64 <= 26.
Proof. unfold is_AZ. rewrite andb_true_iff, !Z.leb_le. lia. Qed.

Lemma fromCharCode_charCodeAt c : fromCharCode (charCodeAt c) = c.
Proof.
  unfold fromCharCode, charCodeAt. rewrite Nat2Z.id. apply ascii_nat_embedding.
Qed.

(** One turn of the loop, on a column written as [26 * q + v] with a
    letter value [v]. *)
Lemma columnToLetter_loop_step q v letter :
  0 <= q -> 1 <= v <= 26 ->
  columnToLetter_loop (26 * q + v) letter =
  columnToLetter_loop q (String (fromCharCode (v + 64)) letter).
Proof.
  intros Hq Hv. rewrite columnToLetter_loop_equation_1.
  destruct (Z_lt_dec 0 (26 * q + v)) as [Hp|Hn]; [|lia].
  cbn [columnToLetter_loop_unfold_clause_1]. cbn zeta.
  assert (Hrem : Z.rem (26 * q + v - 1) 26 = v - 1).
  { rewrite Z.rem_mod_nonneg by lia.
    replace (26 * q + v - 1) with (v - 1 + q * 26) by lia.
    rewrite Z.mod_add by lia. apply Z.mod_small. lia. }
  rewrite Hrem.
  replace (26 * q + v - (v - 1) - 1) with (q * 26) by lia.
  rewrite Z.div_mul by lia. do 3 f_equal. lia.
Qed.

Lemma columnToLetter_loop_horner s acc letter :
  all_chars is_AZ s = true -> 0 <= acc ->
  columnToLetter_loop (horner s acc) letter =
  columnToLetter_loop acc (s ++ letter).
Proof.
  revert acc letter. induction s as [|c s IH]; intros acc letter Hs Hacc.
  - reflexivity.
  - simpl in Hs. apply andb_true_iff in Hs as [Hc Hs].
    pose proof (is_AZ_range c Hc) as Hv.
    cbn [horner]. rewrite IH by (trivial; lia).
    rewrite columnToLetter_loop_step by lia.
    replace (charCodeAt c - 64 + 64) with (charCodeAt c) by lia.
    now rewrite fromCharCode_charCodeAt.
Qed.

Lemma string_app_empty (s : string) : s ++ "" = s.
Proof.
  induction s as [|c s IH]; [reflexivity|].
  change (String c (s ++ "") = String c s). now rewrite IH.
Qed.


(** The converse direction: every index from 1 on is the index of the
    letters written for it. *)
Lemma horner_columnToLetter_loop n letter :
  0 <= n -> horner (columnToLetter_loop n letter) 0 = horner letter n.
Proof.
  intros Hn. revert letter.
  induction n as [n IH] using (well_founded_induction (Z.lt_wf 0)).
  intros letter.
  destruct (Z.eq_dec n 0) as [->|Hnz].
  { rewrite columnToLetter_loop_equation_1. reflexivity. }
  assert (Hdiv : n = 26 * ((n - 1) / 26) + ((n - 1) mod 26 + 1)).
  { pose proof (Z.div_mod (n - 1) 26). lia. }
  pose proof (Z.mod_pos_bound (n - 1) 26 ltac:(lia)) as Hm.
  assert (Hq : 0 <= (n - 1) / 26) by (apply Z.div_pos; lia).
  rewrite Hdiv at 1. rewrite columnToLetter_loop_step by lia.
  rewrite IH; [| split; [lia | apply Z.div_lt_upper_bound; lia] | lia].
  - cbn [horner]. f_equal. rewrite Hdiv at 3. f_equal.
    unfold fromCharCode, charCodeAt.
    rewrite nat_ascii_embedding by lia. lia.
Qed.

Lemma columnLetterToIndex_columnToLetter n :
  0 <= n -> columnLetterToIndex (columnToLetter n) = n.
Proof.
  intros Hn. rewrite columnLetterToIndex_horner.
  unfold columnToLetter. now rewrite horner_columnToLetter_loop.
Qed.

(** the letters [columnToLetter] writes *)
Lemma charCodeAt_fromCharCode (n : Z) :
  0 <= n < 256 -> charCodeAt (fromCharCode n) = n.
Proof.
  intros Hn. unfold charCodeAt, fromCharCode.
  rewrite nat_ascii_embedding by lia. lia.
Qed.

Lemma columnToLetter_loop_chars (n : Z) (letter : string) :
  0 <= n ->
  all_chars is_AZ (columnToLetter_loop n letter) = all_chars is_AZ letter
  /\ nonempty (columnToLetter_loop n letter) = nonempty letter || (0 <? n).
Proof.
  intros Hn. revert letter.
  induction n as [n IH] using (well_founded_induction (Z.lt_wf 0)). intros letter.
  destruct (Z.eq_dec n 0) as [->|Hnz].
  { rewrite columnToLetter_loop_equation_1. cbn. now rewrite orb_false_r. }
  assert (Hdiv : n = 26 * ((n - 1) / 26) + ((n - 1) mod 26 + 1)).
  { pose proof (Z.div_mod (n - 1) 26). lia. }
  pose proof (Z.mod_pos_bound (n - 1) 26 ltac:(lia)) as Hm.
  assert (Hq : 0 <= (n - 1) / 26) by (apply Z.div_pos; lia).
  rewrite Hdiv at 1 2. rewrite columnToLetter_loop_step by lia.
  destruct (IH ((n - 1) / 26)) with
    (letter := String (fromCharCode ((n - 1) mod 26 + 1 + 64)) letter) as [Hall Hne];
    [split; [lia | apply Z.div_lt_upper_bound; lia] | lia |].
  rewrite Hall, Hne. cbn [all_chars nonempty orb]. split.
  - unfold is_AZ. rewrite charCodeAt_fromCharCode by lia.
    destruct (Z.leb_spec 65 ((n - 1) mod 26 + 1 + 64)); [|lia].
    destruct (Z.leb_spec ((n - 1) mod 26 + 1 + 64) 90); [|lia]. reflexivity.
  - destruct (Z.ltb_spec 0 n); [|lia]. now rewrite orb_true_r.
Qed.

(** ** The doubles of the two conversions *)

Section SafeIntegers.

Lemma round53_safe (z : Z) : Z.abs z <= Double.two53 -> Double.round53 z = z.
Proof.
  intros Hz. unfold Double.round53.
  destruct (Z.ltb_spec (Z.abs z) Double.two53) as [_|Hge]; [reflexivity|].
  change Double.two53 with 9007199254740992 in *.
  assert (Hcases : z = 9007199254740992 \/ z = - 9007199254740992) by lia.
  destruct Hcases as [->| ->]; reflexivity.
Qed.

Lemma div53_exact (q : Z) :
  0 <= q <= Double.two53 -> Double.div53 (26 * q) 26 = Some q.
Proof.
  intros Hq. unfold Double.div53.
  replace (26 * q) with (q * 26) by lia.
  rewrite Z.mod_mul, Z.div_mul by lia. cbn [Z.eqb].
  rewrite round53_safe by lia. reflexivity.
Qed.

(** the loop of [columnToLetter] does not round up to 2^53 *)
Lemma columnToLetter_loop_safe (fuel : nat) :
  forall (n : Z) (letter : string),
    n <= Double.two53 -> n < 2 ^ Z.of_nat fuel ->
    Double.columnToLetter_loop fuel n letter = Some (columnToLetter_loop n letter).
Proof.
  induction fuel as [|fuel IH]; intros n letter Hsafe Hfuel.
  - cbn [Double.columnToLetter_loop]. change (2 ^ Z.of_nat 0) with 1 in Hfuel.
    destruct (Z.leb_spec n 0); [|lia].
    rewrite columnToLetter_loop_equation_1.
    destruct (Z_lt_dec 0 n); [lia | reflexivity].
  - cbn [Double.columnToLetter_loop].
    rewrite columnToLetter_loop_equation_1.
    destruct (Z.leb_spec n 0) as [Hn|Hn]; destruct (Z_lt_dec 0 n) as [Hpos|Hn'];
      try lia; [reflexivity|].
    cbn [columnToLetter_loop_unfold_clause_1]. cbn zeta.
    change Double.two53 with 9007199254740992 in *.
    assert (Hround : forall z, 0 <= z <= n -> Double.round53 z = z).
    { intros z Hz. apply round53_safe. change Double.two53 with 9007199254740992. lia. }
    rewrite (Hround (n - 1)) by lia.
    assert (Hrem : 0 <= Z.rem (n - 1) 26 <= n - 1).
    { rewrite Z.rem_mod_nonneg by lia.
      split; [apply Z.mod_pos_bound | apply Z.mod_le]; lia. }
    rewrite (Hround (n - Z.rem (n - 1) 26)) by lia.
    rewrite (Hround (n - Z.rem (n - 1) 26 - 1)) by lia.
    assert (Hq : n - Z.rem (n - 1) 26 - 1 = 26 * ((n - 1) / 26)).
    { rewrite Z.rem_mod_nonneg by lia. pose proof (Z.div_mod (n - 1) 26). lia. }
    assert (Hdiv : 0 <= (n - 1) / 26 <= n - 1).
    { split; [apply Z.div_pos; lia | apply Z.div_le_upper_bound; lia]. }
    rewrite Hq at 1. rewrite div53_exact
      by (change Double.two53 with 9007199254740992; lia).
    rewrite IH.
    + rewrite Hq. replace (26 * ((n - 1) / 26)) with ((n - 1) / 26 * 26) by lia.
      now rewrite Z.div_mul by lia.
    + lia.
    + apply Z.div_lt_upper_bound; [lia|].
      rewrite Nat2Z.inj_succ, Z.pow_succ_r in Hfuel by lia. lia.
Qed.

Lemma columnToLetter_safe (n : Z) :
  n <= Double.two53 -> Double.columnToLetter n = Some (columnToLetter n).
Proof.
  intros Hn. apply columnToLetter_loop_safe; [exact Hn|].
  destruct (Z.le_gt_cases n 0) as [Hle|Hpos].
  - pose proof (Z.pow_pos_nonneg 2 (Z.of_nat (Z.to_nat (Z.log2 n) + 1))). lia.
  - pose proof (Z.log2_nonneg n). pose proof (Z.log2_spec n Hpos) as [_ Hlt].
    replace (Z.of_nat (Z.to_nat (Z.log2 n) + 1)) with (Z.succ (Z.log2 n)) by lia.
    exact Hlt.
Qed.

Lemma columnLetterToIndex_loop_nonneg (s : string) (column : Z) :
  all_chars is_AZ s = true -> 0 <= column ->
  column <= columnLetterToIndex_loop s column.
Proof.
  revert column. induction s as [|c s IH]; intros column Hs Hcolumn;
    cbn [columnLetterToIndex_loop]; [lia|].
  cbn [all_chars] in Hs. apply andb_true_iff in Hs as [Hc Hs].
  pose proof (is_AZ_range c Hc).
  pose proof (Z.pow_pos_nonneg 26 (Z.of_nat (String.length s)) ltac:(lia) ltac:(lia)).
  etransitivity; [|apply IH; [exact Hs | nia]]. nia.
Qed.

(** the loop of [columnLetterToIndex] does not round as long as the
    index stays within 2^53 *)
Lemma columnLetterToIndex_loop_safe (s : string) (column : Z) :
  all_chars is_AZ s = true -> 0 <= column ->
  columnLetterToIndex_loop s column <= Double.two53 ->
  Double.columnLetterToIndex_loop s column = columnLetterToIndex_loop s column.
Proof.
  revert column. induction s as [|c s IH]; intros column Hs Hcolumn Hsafe;
    [reflexivity|].
  cbn [all_chars] in Hs. apply andb_true_iff in Hs as [Hc Hs].
  pose proof (is_AZ_range c Hc) as Hv.
  cbn [Double.columnLetterToIndex_loop columnLetterToIndex_loop] in *. cbn zeta.
  set (power := 26 ^ Z.of_nat (String.length s)) in *.
  assert (Hpower : 0 < power) by (apply Z.pow_pos_nonneg; lia).
  pose proof (columnLetterToIndex_loop_nonneg s
                (column + (charCodeAt c - 64) * power) Hs ltac:(nia)) as Hnext.
  rewrite (round53_safe power) by nia.
  rewrite (round53_safe ((charCodeAt c - 64) * power)) by nia.
  rewrite (round53_safe (column + _)) by nia.
  apply IH; [exact Hs | nia | exact Hsafe].
Qed.

Lemma horner_upper (s : string) (acc : Z) :
  all_chars is_AZ s = true -> 0 <= acc ->
  horner s acc <= (acc + 2) * 26 ^ Z.of_nat (String.length s) - 2.
Proof.
  revert acc. induction s as [|c s IH]; intros acc Hs Hacc.
  - cbn. lia.
  - cbn [all_chars] in Hs. apply andb_true_iff in Hs as [Hc Hs].
    pose proof (is_AZ_range c Hc) as Hv.
    cbn [horner String.length]. rewrite Nat2Z.inj_succ, Z.pow_succ_r by lia.
    pose proof (Z.pow_pos_nonneg 26 (Z.of_nat (String.length s)) ltac:(lia) ltac:(lia)).
    etransitivity; [apply IH; [exact Hs | lia]|]. nia.
Qed.

Lemma horner_lower (s : string) (acc : Z) :
  all_chars is_AZ s = true -> 0 <= acc ->
  acc * 26 ^ Z.of_nat (String.length s) <= horner s acc.
Proof.
  revert acc. induction s as [|c s IH]; intros acc Hs Hacc.
  - cbn. lia.
  - cbn [all_chars] in Hs. apply andb_true_iff in Hs as [Hc Hs].
    pose proof (is_AZ_range c Hc) as Hv.
    cbn [horner String.length]. rewrite Nat2Z.inj_succ, Z.pow_succ_r by lia.
    pose proof (Z.pow_pos_nonneg 26 (Z.of_nat (String.length s)) ltac:(lia) ltac:(lia)).
    etransitivity; [|apply IH; [exact Hs | lia]]. nia.
Qed.

(** up to 11 letters the index is within 2^53 *)
Lemma short_index_safe (s : string) :
  all_chars is_AZ s = true -> (String.length s <= 11)%nat ->
  columnLetterToIndex s <= Double.two53.
Proof.
  intros Hs Hlen. rewrite columnLetterToIndex_horner.
  pose proof (horner_upper s 0 Hs ltac:(lia)) as Hupper.
  pose proof (Z.pow_le_mono_r 26 (Z.of_nat (String.length s)) 11 ltac:(lia) ltac:(lia))
    as Hpow.
  change (26 ^ 11) with 3670344486987776 in Hpow.
  change Double.two53 with 9007199254740992. lia.
Qed.

(** an index within 2^53 has 12 letters at most *)
Lemma safe_index_length (s : string) :
  test_AZ s = true -> columnLetterToIndex s <= Double.two53 ->
  (String.length s <= 12)%nat.
Proof.
  unfold test_AZ. destruct s as [|c s]; [discriminate|]. cbn [nonempty andb all_chars].
  intros Hs Hsafe. apply andb_true_iff in Hs as [Hc Hs].
  pose proof (is_AZ_range c Hc) as Hv.
  rewrite columnLetterToIndex_horner in Hsafe. cbn [horner] in Hsafe.
  pose proof (horner_lower s (26 * 0 + (charCodeAt c - 64)) Hs ltac:(lia)) as Hlower.
  cbn [String.length]. destruct (Nat.le_gt_cases (String.length s) 11) as [Hle|Hgt]; [lia|].
  exfalso.
  pose proof (Z.pow_le_mono_r 26 12 (Z.of_nat (String.length s)) ltac:(lia) ltac:(lia))
    as Hpow.
  change (26 ^ 12) with 95428956661682176 in Hpow.
  change Double.two53 with 9007199254740992 in Hsafe. nia.
Qed.

Lemma columnLetterToIndex_safe (s : string) :
  test_AZ s = true -> columnLetterToIndex s <= Double.two53 ->
  Double.columnLetterToIndex s = Some (columnLetterToIndex s).
Proof.
  intros Hs Hsafe. unfold Double.columnLetterToIndex.
  pose proof (safe_index_length s Hs Hsafe) as Hlen.
  destruct (Nat.leb_spec (String.length s) 15) as [_|Hlong]; [|lia].
  apply andb_true_iff in Hs as [_ Hs].
  now rewrite columnLetterToIndex_loop_safe.
Qed.

End SafeIntegers.

(** C8, as the code has it.  The two conversions compute in doubles,
    and they are inverse to each other as far as the index is a double
    that no sum has rounded: for every non-empty sequence [s] of the
    letters A to Z whose index is at most 2^53, the code's
    [columnLetterToIndex] gives that index and [columnToLetter] gives
    [s] back; for every index [n] from 1 to 2^53, [columnToLetter]
    writes letters whose index is [n].  Every sequence of up to 11
    letters has such an index.  The indices 1, 26, 27, 52 and 703 are
    written A, Z, AA, AZ and AAA. *)
Theorem column_letters_roundtrip (s : string) (n : Z) :
  test_AZ s = true -> columnLetterToIndex s <= Double.two53 ->
  1 <= n <= Double.two53 ->
  Double.columnLetterToIndex s = Some (columnLetterToIndex s)
  /\ Double.columnToLetter (columnLetterToIndex s) = Some s
  /\ Double.columnToLetter n = Some (columnToLetter n)
  /\ Double.columnLetterToIndex (columnToLetter n) = Some n
  /\ (forall s' : string,
        test_AZ s' = true -> (String.length s' <= 11)%nat ->
        columnLetterToIndex s' <= Double.two53)
  /\ Double.columnToLetter 1 = Some "A" /\ Double.columnToLetter 26 = Some "Z"
  /\ Double.columnToLetter 27 = Some "AA" /\ Double.columnToLetter 52 = Some "AZ"
  /\ Double.columnToLetter 703 = Some "AAA".
Proof.
  intros Hs Hsafe Hn.
  assert (Hback : columnToLetter (columnLetterToIndex s) = s).
  { apply andb_true_iff in Hs as [_ Hs]. unfold columnToLetter.
    rewrite columnLetterToIndex_horner, columnToLetter_loop_horner by (trivial; lia).
    rewrite string_app_empty. rewrite columnToLetter_loop_equation_1.
    reflexivity. }
  assert (Hletters : test_AZ (columnToLetter n) = true).
  { unfold test_AZ, columnToLetter.
    destruct (columnToLetter_loop_chars n "" ltac:(lia)) as [-> ->].
    cbn. destruct (Z.ltb_spec 0 n); [reflexivity | lia]. }
  pose proof (columnLetterToIndex_columnToLetter n ltac:(lia)) as Hindex.
  split; [now apply columnLetterToIndex_safe|].
  split; [now rewrite columnToLetter_safe, Hback|].
  split; [apply columnToLetter_safe; lia|].
  split; [rewrite columnLetterToIndex_safe, Hindex; [reflexivity | exact Hletters | lia]|].
  split.
  - intros s' Hs' Hlen. apply andb_true_iff in Hs' as [_ Hs'].
    now apply short_index_safe.
  - repeat split; vm_compute; reflexivity.
Qed.

Lemma column_letters_roundtrip_witness :
  Double.columnLetterToIndex "AZ" = Some 52
  /\ Double.columnToLetter 52 = Some "AZ".
Proof.
  pose proof (column_letters_roundtrip "AZ" 52 eq_refl
                ltac:(vm_compute; discriminate)
                ltac:(split; vm_compute; discriminate)) as H.
  exact (conj (proj1 H) (proj1 (proj2 H))).
Defined.

(** C8, as the specification has it, fails on the twelve letters
    ZZZZZZZZZZZZ: the sums of [columnLetterToIndex] are rounded to the
    double 99246114928149472 (which JavaScript prints with the digits
    99246114928149470), ten above the index, and [columnToLetter]
    writes thirteen letters for it. *)
Lemma column_letters_beyond_doubles :
  test_AZ "ZZZZZZZZZZZZ" = true
  /\ columnLetterToIndex "ZZZZZZZZZZZZ" = 99246114928149462
  /\ Double.columnLetterToIndex "ZZZZZZZZZZZZ" = Some 99246114928149472
  /\ Double.columnToLetter 99246114928149472 = Some "AAAAAAAAAAAAK"
  /\ "AAAAAAAAAAAAK" <> "ZZZZZZZZZZZZ".
Proof.
  split; [reflexivity|]. split; [vm_compute; reflexivity|].
  split; [vm_compute; reflexivity|]. split; [vm_compute; reflexivity|].
  discriminate.
Qed.

(** ** The grid adapter *)

Section AdapterFacts.
Context {engine : Engine} {transport : Transport}.

Lemma bind_Ok {A B} (c : M A) (k : A -> M B) w a w' :
  c w = (Ok a, w') -> bind c k w = k a w'.
Proof. intros Hc. unfold bind. now rewrite Hc. Qed.

Lemma bind_Throw {A B} (c : M A) (k : A -> M B) w e w' :
  c w = (Throw e, w') -> bind c k w = (Throw e, w').
Proof. intros Hc. unfold bind. now rewrite Hc. Qed.

(** [getSheet] after a successful [load]. *)
Lemma getSheet_loaded selector w sp w' :
  Spreadsheet.load w = (Ok (Some sp), w') ->
  Spreadsheet.getSheet selector w
  = (Ok (List.find (Spreadsheet.sheet_matches selector) (sheets sp)), w').
Proof. intros Hl. unfold Spreadsheet.getSheet. now rewrite (bind_Ok _ _ _ _ _ Hl). Qed.

Lemma find_none_iff {A} (p : A -> bool) (l : list A) :
  (forall x, In x l -> p x = false) -> List.find p l = None.
Proof.
  induction l as [|x l IH]; intros Hp; [reflexivity|]. simpl.
  rewrite (Hp x (or_introl eq_refl)). apply IH. intros y Hy. apply Hp. now right.
Qed.

End AdapterFacts.

(** C9, as the code has it.  On a loaded spreadsheet in which no sheet
    has the selector as its identity or its title, [getSheet] returns
    the absent result; it is each operation resolving its sheet through
    [getSheet] that then fails with [NotFound]. *)
Theorem getSheet_no_match {engine : Engine} {transport : Transport}
    (selector : jsval) (w w' : Spreadsheet) (sp : SpreadsheetData) :
  Spreadsheet.load w = (Ok (Some sp), w') ->
  (forall s, In s (sheets sp) -> Spreadsheet.sheet_matches selector s = false) ->
  Spreadsheet.getSheet selector w = (Ok None, w')
  /\ Spreadsheet.deleteSheet selector w = (Throw NotFound, w')
  /\ (forall limit start fresh,
        Spreadsheet.list {| Spreadsheet.limit := limit; Spreadsheet.start := start;
                            Spreadsheet.sheet := selector;
                            Spreadsheet.fresh := fresh |} w
        = (Throw NotFound, w'))
  /\ (forall data, Spreadsheet.append data selector w = (Throw NotFound, w'))
  /\ (forall update upsert,
        Spreadsheet.update (Some update) selector upsert w = (Throw NotFound, w'))
  /\ (forall rows columns,
        Spreadsheet.delete rows columns selector w = (Throw NotFound, w')).
Proof.
  intros Hload Hno.
  assert (Hget : Spreadsheet.getSheet selector w = (Ok None, w')).
  { rewrite (getSheet_loaded _ _ _ _ Hload). now rewrite find_none_iff. }
  split; [exact Hget|].
  repeat split; intros;
    unfold Spreadsheet.deleteSheet, Spreadsheet.list, Spreadsheet.append,
      Spreadsheet.update, Spreadsheet.delete; cbn [Spreadsheet.sheet];
    now rewrite (bind_Ok _ _ _ _ _ Hget).
Qed.

(** The selector "T" on the loaded example, whose only sheet is "S". *)
Lemma getSheet_no_match_witness :
  @Spreadsheet.getSheet Example.accepting (JString "T") Example.loaded
  = (Ok None, Example.loaded).
Proof.
  refine (proj1 (@getSheet_no_match Example.engine Example.accepting
                   (JString "T") Example.loaded Example.loaded Example.snapshot _ _)).
  - reflexivity.
  - intros s [<-|[]]. reflexivity.
Defined.

(** C9, as the specification has it, fails on the same input: the call does not
    throw, it returns the absent result. *)
Lemma getSheet_absent_not_NotFound :
  fst (@Spreadsheet.getSheet Example.accepting (JString "T") Example.loaded)
  = Ok None
  /\ fst (@Spreadsheet.getSheet Example.accepting (JString "T") Example.loaded)
     <> Throw NotFound.
Proof. split; [reflexivity | discriminate]. Qed.

(** ** The cache after a mutating call *)

Section CacheFacts.
Context {engine : Engine} {transport : Transport}.

Lemma bind_inv_Ok {A B} (c : M A) (k : A -> M B) w b w' :
  bind c k w = (Ok b, w') ->
  exists a w1, c w = (Ok a, w1) /\ k a w1 = (Ok b, w').
Proof.
  unfold bind. destruct (c w) as [[a|e] w1]; intros Hk; [eauto | discriminate].
Qed.

(** peel the successful steps of a method off an equation [m w = (Ok r, w')] *)
Ltac step_ok H :=
  lazymatch type of H with
  | bind _ _ _ = (Ok _, _) =>
      let a := fresh "a" in let w1 := fresh "w" in let Hc := fresh "Hc" in
      apply bind_inv_Ok in H as (a & w1 & Hc & H)
  | throw _ _ = (Ok _, _) => discriminate H
  | (match ?x with _ => _ end) _ = (Ok _, _) => destruct x eqn:?
  | (if ?x then _ else _) _ = (Ok _, _) => destruct x eqn:?
  end.

Lemma invalidated {A} (a r : A) u w0 w w' :
  put_data None w0 = (Ok u, w) -> ret a w = (Ok r, w') -> data w' = None.
Proof. cbv [put_data ret]. intros [= _ <-] [= _ <-]. reflexivity. Qed.

Lemma append_invalidates d sheet w r w' :
  Spreadsheet.append d sheet w = (Ok r, w') -> data w' = None.
Proof.
  unfold Spreadsheet.append. intros Hm.
  repeat step_ok Hm. all: eauto using invalidated.
Qed.

Lemma update_invalidates u sheet upsert w r w' :
  Spreadsheet.update (Some u) sheet upsert w = (Ok r, w') -> data w' = None.
Proof.
  unfold Spreadsheet.update. intros Hm.
  repeat step_ok Hm. all: eauto using invalidated.
Qed.

Lemma delete_invalidates rows columns sheet w r w' :
  Spreadsheet.delete rows columns sheet w = (Ok r, w') -> data w' = None.
Proof.
  unfold Spreadsheet.delete. intros Hm.
  repeat step_ok Hm. all: eauto using invalidated.
Qed.

Lemma addSheet_invalidates t w r w' :
  Spreadsheet.addSheet t w = (Ok r, w') -> data w' = None.
Proof.
  unfold Spreadsheet.addSheet. intros Hm.
  repeat step_ok Hm. all: eauto using invalidated.
Qed.

Lemma deleteSheet_invalidates sheet w r w' :
  Spreadsheet.deleteSheet sheet w = (Ok r, w') -> data w' = None.
Proof.
  unfold Spreadsheet.deleteSheet. intros Hm.
  repeat step_ok Hm. all: eauto using invalidated.
Qed.

Lemma api_call_data req w : data (snd (api_call req w)) = data w.
Proof. unfold api_call. now destruct (respond _ _). Qed.

End CacheFacts.

(** C4 at [expand]: the method never touches the cache.  Whatever it is
    given and whatever the service answers, [this.data] after the call
    is [this.data] before it; so after a successful [expand] on a loaded
    adapter the stale snapshot is still there. *)
Theorem expand_keeps_cache {transport : Transport}
    (rows columns : number) (sheetId : Z) (w : Spreadsheet) :
  data (snd (Spreadsheet.expand rows columns sheetId w)) = data w.
Proof.
  unfold Spreadsheet.expand.
  destruct (_ ++ _)%list as [|r rs]; [reflexivity|].
  unfold bind, Spreadsheet.request, get_spreadsheetId, bind.
  pose proof (api_call_data (spreadsheets_batchUpdate (spreadsheetId w) (r :: rs)) w) as Hd.
  destruct (api_call _ w) as [[reply|e] w1]; exact Hd.
Qed.

(** The failing input of C4: one row is added to the loaded example.  The
    request goes out and is accepted, and the cache is as before. *)
Lemma expand_on_loaded :
  @Spreadsheet.expand Example.accepting (Num 1) (Num 0) 0 Example.loaded
  = (Ok (Some reply_other),
     {| spreadsheetId := "doc"; data := Some Example.snapshot;
        calls := [spreadsheets_batchUpdate "doc" [appendDimension 0 ROWS (Num 1)]] |}).
Proof. reflexivity. Qed.

(** ** The correction of an append that did not start at column A *)

Section AppendFacts.
Context {engine : Engine} {transport : Transport}.

Lemma mapR_pad_to columnNo values :
  Forall (fun value : row => Z.of_nat (length value) <= columnNo) values ->
  mapR (Spreadsheet.pad_to columnNo) values = Ok (padded_rows columnNo values).
Proof.
  induction 1 as [|value values Hv _ IH]; [reflexivity|].
  cbn [mapR padded_rows map]. unfold Spreadsheet.pad_to at 1.
  destruct (Z.ltb_spec (columnNo - Z.of_nat (length value)) 0) as [Hlt|_]; [lia|].
  cbn [rbind]. fold (padded_rows columnNo values). now rewrite IH.
Qed.

End AppendFacts.

(** C6, as the code has it.  When the sheet resolves, the rows convert
    and the service reports an inserted range of the expected form:
    - if the range starts at column A, the append request is the only
      call;
    - otherwise, and if no row is longer than the range's end column,
      exactly one corrective write follows it, on ['title'!A<startRow>:ZZ<endRow>]
      and with every row filled with empty strings up to the end column
      of the reported range, that is with [end column - row length] of
      them;
    - that number is the start column minus one for a row as wide as the
      reported range. *)
Theorem append_correction {transport : Transport}
    (d : Spreadsheet.AppendData) (sheet : jsval) (w w1 : Spreadsheet)
    (sh : SheetInfo) (values : list row) (updates : AppendUpdates)
    (m : Spreadsheet.RangeMatch) :
  let request :=
    spreadsheets_values_append (spreadsheetId w1) ("'" ++ title sh ++ "'!A:ZZ") values in
  let columnNo := columnLetterToIndex (Spreadsheet.m_endColumn m) in
  let startColumn := columnLetterToIndex (Spreadsheet.m_startColumn m) in
  let correction :=
    spreadsheets_values_batchUpdate (spreadsheetId w1)
      [ {| range := Spreadsheet.range_A_ZZ (title sh)
                      (parseInt_string (Spreadsheet.m_startRow m))
                      (parseInt_string (Spreadsheet.m_endRow m));
           vr_values := padded_rows columnNo values |} ] in
  Spreadsheet.getSheet sheet w = (Ok (Some sh), w1) ->
  Spreadsheet.append_values d = Ok values ->
  respond (calls w1) request = Some (reply_append updates) ->
  Spreadsheet.match_range (updatedRange updates) = Some m ->
  (Spreadsheet.m_startColumn m = "A" ->
     calls (snd (Spreadsheet.append d sheet w)) = (calls w1 ++ [request])%list)
  /\ (Spreadsheet.m_startColumn m <> "A" ->
      Forall (fun value : row => Z.of_nat (length value) <= columnNo) values ->
      calls (snd (Spreadsheet.append d sheet w))
      = (calls w1 ++ [request; correction])%list)
  /\ (forall value : row,
        Z.of_nat (length value) = columnNo - startColumn + 1 ->
        columnNo - Z.of_nat (length value) = startColumn - 1).
Proof.
  intros request columnNo startColumn correction Hget Hvalues Hreply Hmatch.
  split; [|split].
  - intros HA. unfold Spreadsheet.append.
    rewrite (bind_Ok _ _ _ _ _ Hget).
    unfold bind at 1, lift. rewrite Hvalues.
    unfold bind at 1, get_spreadsheetId.
    unfold bind at 1, api_call. fold request. rewrite Hreply, Hmatch, HA.
    reflexivity.
  - intros HA Hlen. unfold Spreadsheet.append.
    rewrite (bind_Ok _ _ _ _ _ Hget).
    unfold bind at 1, lift. rewrite Hvalues.
    unfold bind at 1, get_spreadsheetId.
    unfold bind at 1, api_call. fold request. rewrite Hreply, Hmatch.
    apply String.eqb_neq in HA. rewrite HA. cbn [negb].
    fold columnNo. rewrite (mapR_pad_to _ _ Hlen).
    cbv [bind ret put_data set_data]. fold correction. cbn.
    destruct (respond _ correction); cbn; now rewrite <- app_assoc.
  - intros value Hwide. lia.
Qed.


(** Two rows, of two cells and of one, reported at C5:D6. *)
Lemma append_correction_witness :
  calls (snd (@Spreadsheet.append Example.appending_at_C5
                AppendExample.two_rows JUndefined Example.loaded))
  = [AppendExample.request; AppendExample.correction].
Proof.
  refine (proj1 (proj2 (@append_correction Example.appending_at_C5
    AppendExample.two_rows JUndefined Example.loaded Example.loaded Example.sheet_S
    [ [Some (JString "a"); Some (JString "b")]; [Some (JString "c")] ]
    {| u_spreadsheetId := "doc"; updatedRange := "'S'!C5:D6"; u_updatedRows := Num 2 |}
    {| Spreadsheet.m_title := "S"; Spreadsheet.m_startColumn := "C";
       Spreadsheet.m_startRow := "5"; Spreadsheet.m_endColumn := "D";
       Spreadsheet.m_endRow := "6" |}
    eq_refl eq_refl eq_refl eq_refl)) _ _).
  - discriminate.
  - repeat constructor; vm_compute; discriminate.
Defined.

(** C6, as the specification has it, fails on that input: the range starts at
    column C, the third, so each row should get two empty cells; the
    second row, shorter than the first, gets three. *)
Lemma append_padding_differs :
  calls (snd (@Spreadsheet.append Example.appending_at_C5
                AppendExample.two_rows JUndefined Example.loaded))
  = [AppendExample.request; AppendExample.correction]
  /\ columnLetterToIndex "C" - 1 = 2
  /\ AppendExample.correction
     <> spreadsheets_values_batchUpdate "doc"
          [ {| range := "'S'!A5:ZZ6";
               vr_values :=
                 [ ([Some (JString "a"); Some (JString "b")]
                      ++ repeat (Some (JString "")) 2)%list;
                   ([Some (JString "c")] ++ repeat (Some (JString "")) 2)%list ] |} ].
Proof. split; [reflexivity | split; [reflexivity | discriminate]]. Qed.

(** ** Growing the sheet before an update *)

Section UpdateFacts.
Context {engine : Engine} {transport : Transport}.

(** The row half of the computation: over items whose row is a number,
    [addRows] ends as the largest overrun. *)
Lemma update_item_addRows sh st r d st' :
  0 <= match Spreadsheet.addRows st with Num a => a | NaN => -1 end ->
  Spreadsheet.update_item sh st (JNumber (Num r), d) = Ok st' ->
  Spreadsheet.addRows st' =
  Num (Z.max (match Spreadsheet.addRows st with Num a => a | NaN => 0 end)
             (r - rowCount sh)).
Proof.
  unfold Spreadsheet.update_item. intros Ha.
  destruct (Spreadsheet.dataToValue d) as [value|e]; [|discriminate].
  cbn [rbind]. intros [= <-]. cbn [Spreadsheet.addRows ToNumber].
  destruct (Spreadsheet.addRows st) as [|a]; [cbn in Ha; lia|].
  cbn [num_sub num_gt num_lt].
  destruct (Z.ltb_spec (rowCount sh) r), (Z.ltb_spec a (r - rowCount sh));
    cbn [andb]; f_equal; lia.
Qed.

Lemma update_rows_overrun sh (items : list (Z * Spreadsheet.RowData)) st st' a :
  Spreadsheet.addRows st = Num a -> 0 <= a ->
  Spreadsheet.foldR (Spreadsheet.update_item sh)
    (map (fun item => (JNumber (Num (fst item)), snd item)) items) st = Ok st' ->
  Spreadsheet.addRows st' = Num (max_overrun (rowCount sh) (map fst items) a).
Proof.
  revert st a. induction items as [|[r d] items IH]; intros st a Hst Ha.
  - cbn. now intros [= <-].
  - cbn [map Spreadsheet.foldR fst snd].
    destruct (Spreadsheet.update_item sh st (JNumber (Num r), d)) as [st1|e] eqn:Hitem;
      [|discriminate].
    cbn [rbind]. intros Hrest.
    pose proof (update_item_addRows sh st r d st1) as H1.
    rewrite Hst in H1. specialize (H1 Ha Hitem).
    rewrite (IH st1 _ H1 ltac:(lia) Hrest). reflexivity.
Qed.

(** The column half: a row of two cells or more is read as a string with
    a comma in it, which is no number, and leaves [addColumns] as it is. *)
Lemma includes_comma (a b : string) : includes (a ++ "," ++ b) "," = true.
Proof.
  induction a as [|c a IH].
  - reflexivity.
  - change (String c a ++ "," ++ b) with (String c (a ++ "," ++ b)).
    cbn [includes]. rewrite IH. apply orb_true_r.
Qed.

Lemma join_two_cells (x y : option jsval) (rest : row) :
  includes (join "," (x :: y :: rest)) "," = true.
Proof. cbn [join]. apply includes_comma. Qed.

Lemma update_item_addColumns sh st (r : jsval) (a : row) st' :
  (forall s, includes s "," = true -> StringToNumber s = NaN) ->
  (2 <= length a)%nat ->
  Spreadsheet.update_item sh st (r, Spreadsheet.Row (Spreadsheet.RowArray a)) = Ok st' ->
  Spreadsheet.addColumns st' = Spreadsheet.addColumns st.
Proof.
  intros Hnan Hlen. unfold Spreadsheet.update_item.
  cbn [Spreadsheet.dataToValue rbind]. intros [= <-]. cbn [Spreadsheet.addColumns].
  destruct a as [|x [|y rest]]; [cbn in Hlen; lia..|].
  now rewrite (Hnan _ (join_two_cells x y rest)).
Qed.

Lemma update_columns_overrun_lost sh (items : list (jsval * row)) st st' :
  (forall s, includes s "," = true -> StringToNumber s = NaN) ->
  Forall (fun item => (2 <= length (snd item))%nat) items ->
  Spreadsheet.foldR (Spreadsheet.update_item sh)
    (map (fun item => (fst item, Spreadsheet.Row (Spreadsheet.RowArray (snd item)))) items)
    st = Ok st' ->
  Spreadsheet.addColumns st' = Spreadsheet.addColumns st.
Proof.
  intros Hnan Hitems. revert st.
  induction Hitems as [|[r a] items Ha _ IH]; intros st.
  - cbn. now intros [= <-].
  - cbn [map Spreadsheet.foldR fst snd].
    destruct (Spreadsheet.update_item sh st _) as [st1|e] eqn:Hitem; [|discriminate].
    cbn [rbind]. intros Hrest. rewrite (IH _ Hrest).
    exact (update_item_addColumns sh st r a st1 Hnan Ha Hitem).
Qed.

End UpdateFacts.

(** C3 at its failing input.  The sheet "S" has two columns and the row
    written has three cells, so the specification asks for [expand] with one
    more column before the write.  The code compares the array [value]
    itself, not its length, with the column count: the array is read as
    the string "a,b,c", which is no number, the comparison is false, and
    [expand] is called with nothing to add.  The write is the only call. *)
Theorem update_misses_column_overrun {engine : Engine} {transport : Transport} :
  StringToNumber "a,b,c" = NaN ->
  calls (snd (Spreadsheet.update (Some UpdateExample.three_cells) JUndefined true
                Example.loaded))
  = [UpdateExample.write_row_1].
Proof.
  intros Hnan. unfold Spreadsheet.update.
  rewrite (bind_Ok (Spreadsheet.getSheet JUndefined) _ Example.loaded
             (Some Example.sheet_S) Example.loaded eq_refl).
  cbn [UpdateExample.three_cells Spreadsheet.updateRows Spreadsheet.foldR].
  unfold Spreadsheet.update_item.
  cbn [Spreadsheet.dataToValue rbind join join_element ToString].
  change ("a" ++ "," ++ "b" ++ "," ++ "c") with "a,b,c".
  rewrite Hnan. cbn.
  unfold bind, lift, Spreadsheet.expand. cbn.
  unfold api_call. cbn.
  now destruct (respond _ _).
Qed.

Lemma update_misses_column_overrun_witness :
  calls (snd (@Spreadsheet.update Example.engine Example.accepting
                (Some UpdateExample.three_cells) JUndefined true Example.loaded))
  = [UpdateExample.write_row_1].
Proof.
  exact (@update_misses_column_overrun Example.engine Example.accepting eq_refl).
Defined.

(** The row half works: row 12 of a ten-row sheet makes [expand] add two
    rows, and the write comes after it. *)
Lemma update_expands_rows :
  calls (snd (@Spreadsheet.update Example.engine Example.accepting
                (Some UpdateExample.row_12) JUndefined true Example.loaded))
  = [ spreadsheets_batchUpdate "doc" [appendDimension 0 ROWS (Num 2)];
      UpdateExample.write_row_12 ].
Proof. reflexivity. Qed.

(** The same comparison reads a row of one cell as the number written in
    the cell: the cell "13" in a two-column sheet makes [expand] add
    eleven columns. *)
Lemma update_expands_by_cell_value :
  calls (snd (@Spreadsheet.update Example.engine Example.accepting
                (Some UpdateExample.cell_13) JUndefined true Example.loaded))
  = [ spreadsheets_batchUpdate "doc" [appendDimension 0 COLUMNS (Num 11)];
      UpdateExample.write_cell_13 ].
Proof. reflexivity. Qed.

(** ** Documents from rows *)

Section ValuesFacts.
Context {engine : Engine}.

Lemma set_cell_in header column json j v k :
  In k (writes header column j) ->
  Sheet.set_cell header column json j (Some v) !! k = Some (or_empty v).
Proof.
  unfold writes, Sheet.set_cell. intros Hk. apply in_app_or in Hk.
  destruct column.
  - destruct (decide (columnToLetter (Z.of_nat j + 1) = k)) as [->|Hne].
    + apply lookup_insert_eq.
    + rewrite lookup_insert_ne by exact Hne.
      destruct Hk as [Hk|[Hk|[]]]; [|contradiction].
      destruct (header !! j) as [[h|]|]; try contradiction.
      destruct (truthy h); [|contradiction].
      destruct Hk as [<-|[]]. apply lookup_insert_eq.
  - destruct Hk as [Hk|[]].
    destruct (header !! j) as [[h|]|]; try contradiction.
    destruct (truthy h); [|contradiction].
    destruct Hk as [<-|[]]. apply lookup_insert_eq.
Qed.

Lemma set_cell_notin header column json j cell k :
  (forall v, cell = Some v -> ~ In k (writes header column j)) ->
  Sheet.set_cell header column json j cell !! k = json !! k.
Proof.
  destruct cell as [v|]; [|reflexivity]. intros Hk. specialize (Hk v eq_refl).
  unfold writes in Hk. unfold Sheet.set_cell.
  assert (Hhead : match header !! j with
                  | Some (Some h) =>
                      if truthy h then <[ToString h:=or_empty v]> json else json
                  | _ => json
                  end !! k = json !! k).
  { revert Hk. destruct (header !! j) as [[h|]|]; try reflexivity.
    destruct (truthy h); [|reflexivity]. intros Hk.
    apply lookup_insert_ne. intros Heq. apply Hk, in_or_app. left. now left. }
  destruct column; [|exact Hhead].
  rewrite lookup_insert_ne; [exact Hhead|].
  intros Heq. apply Hk, in_or_app. right. now left.
Qed.

(** a field no cell from position [j0] on assigns is left as it was *)
Lemma set_cells_untouched header column k (value : row) j0 json :
  (forall (i : nat) (v : jsval),
      value !! i = Some (Some v) -> ~ In k (writes header column (j0 + i))) ->
  Sheet.set_cells header column j0 value json !! k = json !! k.
Proof.
  revert j0 json. induction value as [|cell rest IH]; intros j0 json Hk;
    [reflexivity|].
  cbn [Sheet.set_cells]. rewrite IH.
  - apply set_cell_notin. intros v ->.
    specialize (Hk 0%nat v eq_refl). now rewrite Nat.add_0_r in Hk.
  - intros i v Hi. replace (S j0 + i)%nat with (j0 + S i)%nat by lia.
    now apply (Hk (S i) v).
Qed.

(** a field holds what the last cell assigning it gave *)
Lemma set_cells_last header column k (value : row) j0 json i v :
  value !! i = Some (Some v) ->
  In k (writes header column (j0 + i)) ->
  (forall (i' : nat) (v' : jsval),
      (i < i')%nat -> value !! i' = Some (Some v') ->
      ~ In k (writes header column (j0 + i'))) ->
  Sheet.set_cells header column j0 value json !! k = Some (or_empty v).
Proof.
  revert j0 json i. induction value as [|cell rest IH]; intros j0 json i Hi Hk Hlast;
    [discriminate|].
  cbn [Sheet.set_cells]. destruct i as [|i].
  - injection Hi as ->. rewrite Nat.add_0_r in Hk.
    rewrite set_cells_untouched.
    + now apply set_cell_in.
    + intros i' v' Hi'. replace (S j0 + i')%nat with (j0 + S i')%nat by lia.
      apply (Hlast (S i') v'); [lia | exact Hi'].
  - apply (IH (S j0) _ i Hi).
    + now replace (S j0 + i)%nat with (j0 + S i)%nat by lia.
    + intros i' v' Hlt Hi'. replace (S j0 + i')%nat with (j0 + S i')%nat by lia.
      apply (Hlast (S i') v'); [lia | exact Hi'].
Qed.

Lemma row_to_doc_populated header options i value :
  populated header (Sheet.o_column options) value
            (Sheet.row_to_doc header options i value).
Proof.
  unfold Sheet.row_to_doc. split.
  - intros j v k Hj Hk Hlast.
    now apply (set_cells_last header _ k value 0 _ j v).
  - intros k Hrow Hk. rewrite set_cells_untouched by exact Hk.
    apply lookup_singleton_ne. congruence.
Qed.

Lemma rows_to_docs_In header options doc (values : list row) i0 :
  In doc (Sheet.rows_to_docs header options i0 values) ->
  exists (i : nat) (value : row),
    values !! i = Some value /\ (i0 + i <> 0)%nat
    /\ doc = Sheet.row_to_doc header options (i0 + i) value.
Proof.
  revert i0. induction values as [|value rest IH]; intros i0 Hin; [destruct Hin|].
  cbn [Sheet.rows_to_docs] in Hin.
  assert (Hrest : In doc (Sheet.rows_to_docs header options (S i0) rest) ->
                  exists (i : nat) (value0 : row),
                    (value :: rest) !! i = Some value0 /\ (i0 + i <> 0)%nat
                    /\ doc = Sheet.row_to_doc header options (i0 + i) value0).
  { intros H. destruct (IH _ H) as (i & value0 & Hi & Hnz & Hdoc).
    exists (S i), value0. replace (i0 + S i)%nat with (S i0 + i)%nat by lia.
    repeat split; assumption. }
  destruct (Nat.eqb_spec i0 0) as [Hz|Hnz]; cbn [orb] in Hin; [now apply Hrest|].
  destruct (String.eqb _ _); [now apply Hrest|].
  destruct Hin as [<-|Hin]; [|now apply Hrest].
  exists 0%nat, value. rewrite Nat.add_0_r. repeat split; [lia].
Qed.

End ValuesFacts.

(** C5, as the code has it.  Every document [valuesToData] emits comes
    from a row after the first, and has the fields of the cells of that
    row: for a cell that is there, under a column with a name, the field
    of that name holds the cell's value, or the empty string if the cell
    is empty (the last such cell, if several columns share the name);
    a name that no cell of the row reaches gets no field. *)
Theorem valuesToData_fields {engine : Engine}
    (values : list row) (options : option Sheet.Options) (data : Sheet.Data)
    (doc : Sheet.Doc) :
  Sheet.valuesToData (Some values) options = Ok data ->
  In doc (Sheet.docs data) ->
  exists (header value : row) (i : nat),
    mapR (Sheet.header_cell (Sheet.o_lowercase (default Sheet.no_options options)))
         (hd [] values) = Ok header
    /\ values !! i = Some value /\ (0 < i)%nat
    /\ populated header (Sheet.o_column (default Sheet.no_options options)) value doc.
Proof.
  unfold Sheet.valuesToData. destruct values as [|first rest]; [now intros [= <-]|].
  cbn [hd]. destruct (mapR _ first) as [header|e]; [|discriminate].
  cbn [rbind]. intros [= <-]. cbn [Sheet.docs]. intros Hin.
  apply (rows_to_docs_In header _ doc (first :: rest) 0)
    in Hin as (i & value & Hi & Hnz & ->).
  exists header, value, i. cbn [Nat.add] in *.
  split; [reflexivity|]. split; [exact Hi|]. split; [lia|].
  apply row_to_doc_populated.
Qed.

Lemma valuesToData_fields_witness :
  exists (header value : row) (i : nat),
    mapR (@Sheet.header_cell Example.engine false)
         [Some (JString "name"); Some (JString "score")] = Ok header
    /\ ValuesExample.short_row !! i = Some value /\ (0 < i)%nat
    /\ populated header false value ValuesExample.doc_a.
Proof.
  apply (@valuesToData_fields Example.engine ValuesExample.short_row None
           {| Sheet.docs := [ValuesExample.doc_a]; Sheet._header := None |}
           ValuesExample.doc_a).
  - reflexivity.
  - left. reflexivity.
Defined.

(** C5, as the specification has it, fails on a row shorter than the header: the
    one-cell row under the header [name], [score] gives a document
    without the field [score]. *)
Lemma valuesToData_short_row :
  @Sheet.valuesToData Example.engine (Some ValuesExample.short_row) None
  = Ok {| Sheet.docs := [ValuesExample.doc_a]; Sheet._header := None |}
  /\ ValuesExample.doc_a !! "score" = None.
Proof. split; reflexivity. Qed.

(** ** The operator [$inc] *)

Section IncFacts.

Lemma digit_value_char (d : N) :
  (d < 10)%N -> digit_value 10 (pretty_N_char d) = Some (Z.of_N d).
Proof.
  intros Hd.
  assert (d = 0 \/ d = 1 \/ d = 2 \/ d = 3 \/ d = 4 \/ d = 5 \/ d = 6 \/ d = 7
          \/ d = 8 \/ d = 9)%N as Hcases by lia.
  repeat (destruct Hcases as [->|Hcases]; [reflexivity|]). now subst.
Qed.

(** reading back the digits [pretty] writes in front of [s] *)
Lemma parse_digits_pretty (x : N) (s : string) :
  (0 < x)%N ->
  parse_digits 10 (pretty_N_go x s) None = parse_digits 10 s (Some (Z.of_N x)).
Proof.
  revert s. induction (N.lt_wf_0 x) as [x _ IH]. intros s Hx.
  rewrite pretty_N_go_step by exact Hx.
  pose proof (N.mod_lt x 10 ltac:(lia)) as Hmod.
  destruct (N.eq_dec (x / 10)%N 0%N) as [Hz|Hnz].
  - rewrite Hz, pretty_N_go_0. cbn [parse_digits].
    rewrite digit_value_char by exact Hmod. do 2 f_equal.
    pose proof (N.div_mod x 10 ltac:(lia)) as Hdm.
    rewrite Hz, N.mul_0_r, N.add_0_l in Hdm. rewrite <- Hdm. lia.
  - rewrite IH; [|apply N.div_lt; lia|now apply N.neq_0_lt_0].
    cbn [parse_digits]. rewrite digit_value_char by exact Hmod. do 2 f_equal.
    pose proof (N.div_mod x 10 ltac:(lia)) as Hdm.
    rewrite Hdm at 3. rewrite N2Z.inj_add, N2Z.inj_mul. reflexivity.
Qed.

(** the first digit [pretty] writes is not 0 *)
Lemma pretty_leading_digit (x : N) (s : string) :
  (0 < x)%N ->
  exists (d : N) (rest : string),
    (1 <= d <= 9)%N /\ pretty_N_go x s = String (pretty_N_char d) rest.
Proof.
  revert s. induction (N.lt_wf_0 x) as [x _ IH]. intros s Hx.
  rewrite pretty_N_go_step by exact Hx.
  destruct (N.eq_dec (x / 10)%N 0%N) as [Hz|Hnz].
  - rewrite Hz, pretty_N_go_0. exists (x mod 10)%N, s. split; [|reflexivity].
    pose proof (N.div_mod x 10 ltac:(lia)) as Hdm.
    pose proof (N.mod_lt x 10 ltac:(lia)).
    rewrite Hz, N.mul_0_r, N.add_0_l in Hdm. rewrite <- Hdm. lia.
  - apply IH; [apply N.div_lt; lia | now apply N.neq_0_lt_0].
Qed.

Lemma parseInt_leading (d : N) (rest : string) :
  (1 <= d <= 9)%N ->
  parseInt_string (String (pretty_N_char d) rest)
  = match parse_digits 10 (String (pretty_N_char d) rest) None with
    | Some z => Num z
    | None => NaN
    end
  /\ parseInt_string (String "-" (String (pretty_N_char d) rest))
     = match parse_digits 10 (String (pretty_N_char d) rest) None with
       | Some z => Num (- z)
       | None => NaN
       end.
Proof.
  intros Hd.
  assert (d = 1 \/ d = 2 \/ d = 3 \/ d = 4 \/ d = 5 \/ d = 6 \/ d = 7
          \/ d = 8 \/ d = 9)%N as Hcases by lia.
  repeat (destruct Hcases as [->|Hcases]; [split; reflexivity|]).
  subst. split; reflexivity.
Qed.

Lemma parseInt_pretty_pos (p : positive) :
  parseInt_string (pretty (Npos p)) = Num (Zpos p)
  /\ parseInt_string (String "-" (pretty (Npos p))) = Num (Zneg p).
Proof.
  unfold pretty, pretty_N. destruct (decide (N.pos p = 0%N)) as [Hz|_]; [discriminate|].
  destruct (pretty_leading_digit (Npos p) "" ltac:(lia)) as (d & rest & Hd & Heq).
  pose proof (parse_digits_pretty (Npos p) "" ltac:(lia)) as Hparse.
  rewrite Heq in *. destruct (parseInt_leading d rest Hd) as [Hpos Hneg].
  rewrite Hpos, Hneg, Hparse. split; reflexivity.
Qed.

(** [parseInt(String(n))] is [n] *)
Lemma parseInt_pretty (n : Z) : parseInt_string (pretty n) = Num n.
Proof.
  destruct n as [|p|p]; [reflexivity|..].
  - apply (parseInt_pretty_pos p).
  - apply (parseInt_pretty_pos p).
Qed.

Lemma is_digit_cases (c : ascii) :
  is_digit c = true ->
  In c ["0"; "1"; "2"; "3"; "4"; "5"; "6"; "7"; "8"; "9"]%char.
Proof.
  destruct c as [[] [] [] [] [] [] [] []]; vm_compute; intros Hc;
    try discriminate Hc; tauto.
Qed.

Lemma digit_value_digit (c : ascii) :
  is_digit c = true -> digit_value 10 c = Some (charCodeAt c - 48).
Proof.
  intros Hc. apply is_digit_cases in Hc.
  repeat (destruct Hc as [<-|Hc]; [reflexivity|]). destruct Hc.
Qed.

Lemma parse_digits_all (s : string) (acc : option Z) :
  all_chars is_digit s = true ->
  parse_digits 10 s acc
  = match s with
    | EmptyString => acc
    | _ => Some (decimal_from s (match acc with Some a => a | None => 0 end))
    end.
Proof.
  revert acc. induction s as [|c s IH]; intros acc Hs; [reflexivity|].
  cbn [all_chars] in Hs. apply andb_true_iff in Hs as [Hc Hs].
  cbn [parse_digits decimal_from]. rewrite (digit_value_digit c Hc), (IH _ Hs).
  destruct s; reflexivity.
Qed.

Lemma parseInt_digit_head (c : ascii) (rest : string) :
  is_digit c = true ->
  match rest with String c' _ => is_digit c' = true | EmptyString => True end ->
  parseInt_string (String c rest)
  = match parse_digits 10 (String c rest) None with
    | Some z => Num z
    | None => NaN
    end.
Proof.
  intros Hc Hrest. apply is_digit_cases in Hc.
  destruct rest as [|c' rest].
  - repeat (destruct Hc as [<-|Hc]; [reflexivity|]). destruct Hc.
  - apply is_digit_cases in Hrest.
    repeat (destruct Hc as [<-|Hc];
            [repeat (destruct Hrest as [<-|Hrest]; [reflexivity|]); destruct Hrest|]).
    destruct Hc.
Qed.

(** [parseInt] of a string matching [/^\d+$/] *)
Lemma parseInt_digits (s : string) :
  test_digits s = true -> parseInt_string s = Num (decimal s).
Proof.
  unfold test_digits. intros Hs. apply andb_true_iff in Hs as [Hne Hs].
  destruct s as [|c s]; [discriminate|]. clear Hne.
  pose proof (parse_digits_all (String c s) None Hs) as Hparse.
  cbn [all_chars] in Hs. apply andb_true_iff in Hs as [Hc Hs].
  rewrite parseInt_digit_head, Hparse; [reflexivity | exact Hc |].
  destruct s as [|c' s']; [exact I|].
  cbn [all_chars] in Hs. now apply andb_true_iff in Hs as [Hc' _].
Qed.

End IncFacts.

Section IncDoubles.
Context {engine : Engine}.


Lemma decimal_from_nonneg (s : string) (acc : Z) :
  all_chars is_digit s = true -> 0 <= acc -> 0 <= decimal_from s acc.
Proof.
  revert acc. induction s as [|c s IH]; intros acc Hs Hacc; [exact Hacc|].
  cbn [all_chars] in Hs. apply andb_true_iff in Hs as [Hc Hs].
  cbn [decimal_from]. apply IH; [exact Hs|].
  unfold is_digit in Hc. apply andb_true_iff in Hc as [Hc _].
  apply Z.leb_le in Hc. lia.
Qed.

Lemma decimal_nonneg (s : string) : test_digits s = true -> 0 <= decimal s.
Proof.
  unfold test_digits. intros Hs. apply andb_true_iff in Hs as [_ Hs].
  now apply decimal_from_nonneg.
Qed.

(** the double [parseInt] gives for an integer within 2^53 *)
Lemma parseInt_safe (s : string) (z : Z) :
  parseInt_string s = Num z -> Z.abs z <= Double.two53 ->
  Double.parseInt s = Some (Num z).
Proof.
  intros Hs Hsafe. unfold Double.parseInt. rewrite Hs.
  change Double.two53 with 9007199254740992 in Hsafe.
  destruct (Z.ltb_spec (Z.abs z) (10 ^ 20)) as [_|Hbig];
    [|change (10 ^ 20) with 100000000000000000000 in Hbig; lia].
  rewrite round53_safe; [reflexivity|].
  change Double.two53 with 9007199254740992. exact Hsafe.
Qed.

End IncDoubles.




(** Above 2^53 [parseInt] rounds: the digits 9007199254740993 are read
    as the double 9007199254740992, the same as the digits before them,
    and the difference of the two is 0. *)
Lemma parseInt_beyond_doubles :
  parseInt_string "9007199254740993" = Num 9007199254740993
  /\ Double.parseInt "9007199254740993" = Some (Num 9007199254740992)
  /\ Double.parseInt "9007199254740992" = Some (Num 9007199254740992)
  /\ Double.sub (Num 9007199254740992) (Num 9007199254740992) = Num 0.
Proof. repeat split; vm_compute; reflexivity. Qed.

(** ** Queries *)

Section QueryFacts.
Context {engine : Engine} {transport : Transport}.
Variable this_sheet : jsval.

Lemma operator_type_unknown (op : string) :
  ~ In op query_operators -> Sheet.operator_type op = None.
Proof.
  unfold query_operators, Sheet.operator_type. intros Hop.
  repeat match goal with
         | |- context [String.eqb op ?s] =>
             destruct (String.eqb_spec op s) as [->|_];
             [exfalso; apply Hop; cbn; tauto|]
         end.
  reflexivity.
Qed.

Lemma operator_terms_unknown key (ops : list (string * jsval)) :
  Forall (fun entry => ~ In (fst entry) query_operators) ops ->
  Sheet.operator_terms key ops = [].
Proof.
  unfold Sheet.operator_terms.
  induction 1 as [|[op v] ops Hop _ IH]; [reflexivity|].
  cbn [omap list_omap fst] in *. now rewrite (operator_type_unknown op Hop).
Qed.

Lemma buildFilter_keys_app (q1 q2 : Sheet.Query) terms :
  Sheet.buildFilter_keys (q1 ++ q2) terms
  = (let? terms1 := Sheet.buildFilter_keys q1 terms in
     Sheet.buildFilter_keys q2 terms1).
Proof.
  revert terms. induction q1 as [|[key term] q1 IH]; intros terms; [reflexivity|].
  cbn [app Sheet.buildFilter_keys].
  destruct (Sheet.field_terms key term) as [added|e]; [|reflexivity].
  cbn [rbind]. apply IH.
Qed.

(** [filterData] and [find] read the query through [buildFilter] only. *)
Lemma filterData_same_filter data (q q' : Sheet.Query) options :
  Sheet.buildFilter (Some q) = Sheet.buildFilter (Some q') ->
  Sheet.filterData data (Some q) options = Sheet.filterData data (Some q') options.
Proof.
  intros Hq. unfold Sheet.filterData, Sheet.buildFilterFn.
  change (default [] (Some q)) with q. change (default [] (Some q')) with q'.
  now rewrite Hq.
Qed.

Lemma bind_ext {A B} (c : M A) (k k' : A -> M B) w :
  (forall a w1, k a w1 = k' a w1) -> bind c k w = bind c k' w.
Proof. intros Hk. unfold bind. destruct (c w) as [[a|e] w1]; [apply Hk | reflexivity]. Qed.

Lemma find_same_filter (q q' : Sheet.Query) options w :
  Sheet.buildFilter (Some q) = Sheet.buildFilter (Some q') ->
  Sheet.find this_sheet (Some q) options w = Sheet.find this_sheet (Some q') options w.
Proof.
  intros Hq. unfold Sheet.find.
  apply bind_ext. intros values w1. apply bind_ext. intros data w2.
  unfold lift. now rewrite (filterData_same_filter data q q' options Hq).
Qed.

End QueryFacts.

(** C10.  A field of the query whose term is an object with no key among
    [$contains], [$gt], [$lt], [$lte], [$gte] and [$empty] adds no term:
    the compiled filter is that of the query without the field, a query
    of that field alone accepts every document, and [find], [update] and
    [delete] run as on the query without the field. *)
Theorem unknown_operators_ignored {engine : Engine} {transport : Transport}
    (this_sheet : jsval) (key : string) (ops : list (string * jsval))
    (before after : Sheet.Query) :
  Forall (fun entry => ~ In (fst entry) query_operators) ops ->
  let query := (before ++ (key, Sheet.QObject ops) :: after)%list in
  let others := (before ++ after)%list in
  Sheet.field_terms key (Sheet.QObject ops) = Ok []
  /\ Sheet.buildFilter (Some query) = Sheet.buildFilter (Some others)
  /\ (exists filterFn,
        Sheet.buildFilterFn (Some [(key, Sheet.QObject ops)]) = Ok filterFn
        /\ forall item, filterFn item = Ok true)
  /\ (forall options w,
        Sheet.find this_sheet (Some query) options w
        = Sheet.find this_sheet (Some others) options w)
  /\ (forall patch w,
        Sheet.update this_sheet (Some query) patch w
        = Sheet.update this_sheet (Some others) patch w)
  /\ (forall w,
        Sheet.delete this_sheet (Some query) w
        = Sheet.delete this_sheet (Some others) w).
Proof.
  intros Hops query others.
  assert (Hfield : Sheet.field_terms key (Sheet.QObject ops) = Ok []).
  { cbn [Sheet.field_terms]. now rewrite operator_terms_unknown. }
  assert (Hfilter : Sheet.buildFilter (Some query) = Sheet.buildFilter (Some others)).
  { unfold query, others. cbn [Sheet.buildFilter].
    rewrite !buildFilter_keys_app.
    destruct (Sheet.buildFilter_keys before []) as [terms|e]; [|reflexivity].
    cbn [rbind Sheet.buildFilter_keys]. rewrite Hfield. cbn [rbind].
    now rewrite app_nil_r. }
  split; [exact Hfield|]. split; [exact Hfilter|]. split; [|split; [|split]].
  - unfold Sheet.buildFilterFn. cbn [Sheet.buildFilter Sheet.buildFilter_keys].
    rewrite Hfield. cbn [rbind app Sheet.buildFilter_keys].
    eexists. split; [reflexivity|]. intros item. reflexivity.
  - intros options w. now apply find_same_filter.
  - intros patch w. unfold Sheet.update, bind at 1.
    rewrite (find_same_filter _ _ _ _ _ Hfilter). reflexivity.
  - intros w. unfold Sheet.delete, bind at 1.
    rewrite (find_same_filter _ _ _ _ _ Hfilter). reflexivity.
Qed.

(** [delete({ name: { $foo: 1 } })] on the loaded example runs as
    [delete({})]. *)
Lemma unknown_operators_ignored_witness :
  @Sheet.delete Example.engine Example.accepting JUndefined
     (Some QueryExample.unknown_operator) Example.loaded
  = @Sheet.delete Example.engine Example.accepting JUndefined (Some []) Example.loaded.
Proof.
  refine (proj2 (proj2 (proj2 (proj2 (proj2
    (@unknown_operators_ignored Example.engine Example.accepting JUndefined
       "name" [("$foo", JNumber (Num 1))] [] [] _))))) Example.loaded).
  repeat constructor. cbn. intros H.
  repeat (destruct H as [H|H]; [discriminate H|]). exact H.
Defined.

(** ** [findOne] and [delete] *)

Section FindFacts.
Context {engine : Engine} {transport : Transport}.
Variable this_sheet : jsval.

Lemma length_slice_one {A} (a : list A) (start : number) :
  (length (slice a (num_sub start (Num 1))
                   (num_sub (num_add start (Num 1)) (Num 1))) <= 1)%nat.
Proof.
  unfold slice. rewrite length_take.
  destruct start as [|z]; cbn [num_sub num_add relative_index]; [lia|].
  set (len := Z.of_nat (length a)).
  assert (0 <= len) by lia.
  destruct (Z.ltb_spec (z - 1) 0), (Z.ltb_spec (z + 1 - 1) 0); lia.
Qed.

(** With [limit: 1] the cached grid gives one row at most. *)
Lemma list_limit_1 options w values w' :
  Sheet.o_fresh (default Sheet.no_options options) = false ->
  Spreadsheet.list
    (Sheet.list_options this_sheet (Some (Sheet.with_limit_1 options))) w
  = (Ok values, w') ->
  exists rows : list row, values = Some rows /\ (length rows <= 1)%nat.
Proof.
  intros Hfresh. unfold Spreadsheet.list, Sheet.list_options, Sheet.with_limit_1.
  cbn [default from_option id Sheet.o_limit Sheet.o_start Sheet.o_fresh Sheet.o_sheet
       Spreadsheet.limit Spreadsheet.start Spreadsheet.fresh Spreadsheet.sheet].
  rewrite Hfresh. unfold bind.
  destruct (Spreadsheet.getSheet _ w) as [[[sh|]|e] w1]; try discriminate.
  unfold ret. intros [= <- <-]. eexists. split; [reflexivity|].
  rewrite length_map. apply length_slice_one.
Qed.

(** One row at most is a header at most: no document. *)
Lemma valuesToData_one_row (rows : list row) options data :
  (length rows <= 1)%nat ->
  Sheet.valuesToData (Some rows) options = Ok data -> Sheet.docs data = [].
Proof.
  intros Hlen. unfold Sheet.valuesToData.
  destruct rows as [|first [|second rest]]; [now intros [= <-]| |cbn in Hlen; lia].
  destruct (mapR _ first) as [header|e]; [|discriminate].
  cbn [rbind Sheet.rows_to_docs Nat.eqb orb]. now intros [= <-].
Qed.

Lemma filter_docs_all (l : list Sheet.Doc) :
  Sheet.filter_docs (fun _ => Ok true) l = Ok l.
Proof. induction l as [|item l IH]; [reflexivity|]. cbn. now rewrite IH. Qed.

(** The empty query keeps every document. *)
Lemma filterData_empty_query (data : Sheet.Data) :
  Sheet.filterData data (Some []) None = Ok data.
Proof.
  unfold Sheet.filterData. destruct data as [[|item l] header]; [reflexivity|].
  cbn [Sheet.docs Sheet._header]. cbn -[Sheet.filter_docs].
  change (Sheet.filter_docs _ (item :: l))
    with (Sheet.filter_docs (fun _ => Ok true) (item :: l)).
  now rewrite filter_docs_all.
Qed.

End FindFacts.

(** C2 at the code.  [findOne] hands [limit: 1] to [find], and [find]
    hands its options to [list] as well as to [filterData]: the adapter
    then reads one row of the cached grid, the header, and no document
    is left to filter.  Served from the cache, [findOne] gives no
    document, whatever the query and the sheet. *)
Theorem findOne_finds_nothing {engine : Engine} {transport : Transport}
    (this_sheet : jsval) (query : option Sheet.Query) (options : option Sheet.Options)
    (w : Spreadsheet) :
  Sheet.o_fresh (default Sheet.no_options options) = false ->
  match fst (Sheet.findOne this_sheet query options w) with
  | Ok found => found = None
  | Throw _ => True
  end.
Proof.
  intros Hfresh. unfold Sheet.findOne, Sheet.find, bind.
  destruct (Spreadsheet.list _ w) as [[values|e] w1] eqn:Hlist; [|exact I].
  apply list_limit_1 in Hlist as (rows & -> & Hlen); [|exact Hfresh].
  unfold lift.
  destruct (Sheet.valuesToData (Some rows) _) as [data|e] eqn:Hdata; [|exact I].
  pose proof (valuesToData_one_row rows _ data Hlen Hdata) as Hdocs.
  unfold Sheet.filterData. rewrite Hdocs. cbn. now rewrite Hdocs.
Qed.

(** The failing input of C2: on the sheet "S", [find({ name: 'a' })]
    gives the document of row 2, and [findOne({ name: 'a' })] gives none. *)
Lemma findOne_finds_nothing_witness :
  match fst (@Sheet.findOne Example.engine Example.accepting JUndefined
               (Some QueryExample.name_a) None Example.loaded) with
  | Ok found => found = None
  | Throw _ => True
  end.
Proof.
  exact (@findOne_finds_nothing Example.engine Example.accepting JUndefined
           (Some QueryExample.name_a) None Example.loaded eq_refl).
Defined.

Lemma find_finds_row_2 :
  @Sheet.find Example.engine Example.accepting JUndefined
     (Some QueryExample.name_a) None Example.loaded
  = (Ok {| Sheet.docs := [QueryExample.doc_a]; Sheet._header := None |}, Example.loaded)
  /\ @Sheet.findOne Example.engine Example.accepting JUndefined
       (Some QueryExample.name_a) None Example.loaded
     = (Ok None, Example.loaded).
Proof. split; reflexivity. Qed.

(** C1, as the code has it.  Without a query ([null] or [undefined])
    [delete] throws at once: no call, no change.  With a query object,
    the empty one included, it runs [find], and when [find] returns it
    makes the one adapter [delete] call with the row numbers found; when
    [find] throws, so does [delete].  The empty query finds every
    document. *)
Theorem delete_requires_query {engine : Engine} {transport : Transport}
    (this_sheet : jsval) (query : Sheet.Query) (w : Spreadsheet) :
  Sheet.delete this_sheet None w = (Throw InvalidArgument, w)
  /\ match Sheet.find this_sheet (Some query) None w with
     | (Ok found, w1) =>
         Sheet.delete this_sheet (Some query) w
         = Spreadsheet.delete
             (map (fun item => Sheet.field item "_row") (Sheet.docs found)) []
             this_sheet w1
     | (Throw e, w1) => Sheet.delete this_sheet (Some query) w = (Throw e, w1)
     end
  /\ (forall data : Sheet.Data, Sheet.filterData data (Some []) None = Ok data).
Proof.
  split; [reflexivity|]. split; [|apply filterData_empty_query].
  unfold Sheet.delete, bind.
  destruct (Sheet.find this_sheet (Some query) None w) as [[found|e] w1]; reflexivity.
Qed.

(** C1, as the specification has it, fails on the empty query: [delete({})] on
    the sheet "S" does not throw, it deletes both rows of data. *)
Lemma delete_empty_query :
  @Sheet.delete Example.engine Example.accepting JUndefined (Some []) Example.loaded
  = (Ok {| Spreadsheet.ok := Num 1; Spreadsheet.deletedRowsCount := Num 2;
           Spreadsheet.deleteColumnsCount := Num 0;
           Spreadsheet.deletedColumnsCount := None |},
     {| spreadsheetId := "doc"; data := None;
        calls := [ spreadsheets_batchUpdate "doc"
                     [ deleteDimension 0 ROWS (Num 2) (Num 3);
                       deleteDimension 0 ROWS (Num 1) (Num 2) ] ] |})
  /\ fst (@Sheet.delete Example.engine Example.accepting JUndefined (Some [])
            Example.loaded)
     <> Throw InvalidArgument.
Proof. split; [reflexivity | discriminate]. Qed.
(** * Further properties of the code *)

(** ** Column letters *)

(** X1.  [columnToLetter] gives the empty string for every column
    number below 1, and for every column number from 1 to 2^53, where
    the doubles of the code are exact, a non-empty string of the
    letters A to Z. *)
Theorem columnToLetter_letters (n : Z) :
  (n <= 0 -> columnToLetter n = "" /\ Double.columnToLetter n = Some "")
  /\ (1 <= n <= Double.two53 ->
      Double.columnToLetter n = Some (columnToLetter n)
      /\ test_AZ (columnToLetter n) = true).
Proof.
  split.
  - intros Hn.
    assert (Hempty : columnToLetter n = "").
    { unfold columnToLetter. rewrite columnToLetter_loop_equation_1.
      destruct (Z_lt_dec 0 n); [lia | reflexivity]. }
    split; [exact Hempty|]. rewrite columnToLetter_safe, Hempty; [reflexivity|].
    pose proof (Z.pow_pos_nonneg 2 53). unfold Double.two53. lia.
  - intros Hn. split; [apply columnToLetter_safe; lia|].
    unfold test_AZ, columnToLetter.
    destruct (columnToLetter_loop_chars n "" ltac:(lia)) as [-> ->].
    cbn. destruct (Z.ltb_spec 0 n); [reflexivity | lia].
Qed.

(** Column 0 has no letter and column 28 is AB. *)
Lemma columnToLetter_letters_witness :
  Double.columnToLetter 0 = Some "" /\ Double.columnToLetter 28 = Some "AB"
  /\ test_AZ "AB" = true.
Proof.
  pose proof (columnToLetter_letters 0) as [Hzero _].
  pose proof (columnToLetter_letters 28) as [_ Hletters].
  split; [exact (proj2 (Hzero ltac:(lia)))|].
  exact (Hletters ltac:(split; vm_compute; discriminate)).
Defined.

(** ** Reading through the adapter *)

Section AdapterReads.
Context {transport : Transport}.

Lemma load_cached w d :
  data w = Some d -> Spreadsheet.load w = (Ok (Some d), w).
Proof.
  intros Hd. unfold Spreadsheet.load, bind, get_data, try_catch. rewrite Hd.
  reflexivity.
Qed.

Lemma getSheet_cached selector w sp :
  data w = Some sp ->
  Spreadsheet.getSheet selector w
  = (Ok (List.find (Spreadsheet.sheet_matches selector) (sheets sp)), w).
Proof. intros Hd. apply getSheet_loaded, load_cached, Hd. Qed.

Lemma load_fetch w :
  data w = None ->
  let request := spreadsheets_get (spreadsheetId w) in
  let fetched :=
    match respond (calls w) request with
    | Some (reply_spreadsheet (Some raw)) => Some (Spreadsheet.parse_spreadsheet raw)
    | _ => None
    end in
  Spreadsheet.load w
  = (Ok fetched,
     {| spreadsheetId := spreadsheetId w; data := fetched;
        calls := calls w ++ [request] |}).
Proof.
  intros Hd.
  unfold Spreadsheet.load, bind, get_data, try_catch, get_spreadsheetId, api_call.
  rewrite Hd.
  destruct (respond _ _) as [[[raw|]| | | |]|]; cbn; rewrite ?Hd; reflexivity.
Qed.

Lemma pretty_Z_eqb (a b : Z) : String.eqb (pretty a) (pretty b) = (a =? b).
Proof.
  destruct (Z.eqb_spec a b) as [->|Hne]; [apply String.eqb_refl|].
  apply String.eqb_neq. intros Heq. apply Hne. exact (pretty_Z_inj _ _ Heq).
Qed.

Lemma slice_window {A} (a : list A) (s l : Z) :
  1 <= s -> 0 <= l ->
  slice a (Num (s - 1)) (Num (s + l - 1))
  = take (Z.to_nat l) (drop (Z.to_nat (s - 1)) a).
Proof.
  intros Hs Hl. unfold slice, relative_index.
  destruct (Z.ltb_spec (s - 1) 0); [lia|].
  destruct (Z.ltb_spec (s + l - 1) 0); [lia|].
  set (len := Z.of_nat (length a)).
  destruct (Z.le_gt_cases len (s - 1)) as [Hout|Hin].
  - rewrite !drop_ge by lia. now rewrite !take_nil.
  - rewrite (Z.min_l (s - 1)) by lia.
    destruct (Z.le_gt_cases (s + l - 1) len) as [Hfit|Hover].
    + rewrite Z.min_l by lia. f_equal. lia.
    + rewrite Z.min_r by lia.
      rewrite !take_ge; [reflexivity|rewrite length_drop; lia..].
Qed.

End AdapterReads.

(** X2.  [load] never throws and calls the service at most once.  With a
    snapshot in the cache it returns it and calls nothing.  Without one
    it makes the one [spreadsheets.get] call; what it returns is what
    the cache holds afterwards: the parsed snapshot when the service
    answered with one, and nothing when the call was rejected or the
    answer had no sheets. *)
Theorem load_outcome {transport : Transport} (w : Spreadsheet) :
  match data w with
  | Some d => Spreadsheet.load w = (Ok (Some d), w)
  | None =>
      let request := spreadsheets_get (spreadsheetId w) in
      let fetched :=
        match respond (calls w) request with
        | Some (reply_spreadsheet (Some raw)) => Some (Spreadsheet.parse_spreadsheet raw)
        | _ => None
        end in
      Spreadsheet.load w
      = (Ok fetched,
         {| spreadsheetId := spreadsheetId w; data := fetched;
            calls := calls w ++ [request] |})
  end.
Proof.
  destruct (data w) as [d|] eqn:Hd; [now apply load_cached | now apply load_fetch].
Qed.

(** X3.  The sheet selector of [getSheet]: with no selector, or [null],
    the sheet of identity 0 is meant; a number selects the sheet of that
    identity; a string that writes a number selects the sheet of that
    identity as well as a sheet of that title. *)
Theorem sheet_selectors (s : SheetInfo) (n : Z) :
  Spreadsheet.sheet_matches JUndefined s = (id s =? 0)
  /\ Spreadsheet.sheet_matches JNull s = (id s =? 0)
  /\ Spreadsheet.sheet_matches (JNumber (Num n)) s = (id s =? n)
  /\ Spreadsheet.sheet_matches (JString (pretty n)) s
     = (id s =? n) || String.eqb (title s) (pretty n).
Proof.
  assert (Hzero : String.eqb (pretty (id s)) "0" = (id s =? 0)).
  { change "0" with (pretty 0). apply pretty_Z_eqb. }
  unfold Spreadsheet.sheet_matches. cbn [truthy ToString String_number].
  split; [|split; [|split]].
  - now rewrite ?Hzero, ?pretty_Z_eqb, orb_false_r.
  - now rewrite ?Hzero, ?pretty_Z_eqb, orb_false_r.
  - rewrite orb_false_r.
    destruct (Z.eqb_spec n 0) as [->|Hn]; cbn [negb ToString String_number];
      now rewrite ?Hzero, ?pretty_Z_eqb.
  - assert (Hne : nonempty (pretty n) = true).
    { destruct n as [|p|p]; [reflexivity| |reflexivity].
      unfold pretty, pretty_Z, pretty, pretty_positive, pretty, pretty_N.
      destruct (decide (N.pos p = 0%N)); [discriminate|].
      destruct (pretty_leading_digit (N.pos p) "" ltac:(lia)) as (d & rest & _ & ->).
      reflexivity. }
    rewrite Hne. cbn [ToString]. now rewrite pretty_Z_eqb.
Qed.

(** X4.  Served from the cache, [list] gives the rows [start] to
    [start + limit - 1] of the sheet's grid, as many as there are, a
    cell read as its text; it calls nothing and leaves the adapter as it
    was. *)
Theorem list_cached_window {transport : Transport}
    (w : Spreadsheet) (sp : SpreadsheetData) (sh : SheetInfo)
    (options : Spreadsheet.ListOptions) (s l : Z) :
  data w = Some sp ->
  List.find (Spreadsheet.sheet_matches (Spreadsheet.sheet options)) (sheets sp) = Some sh ->
  Spreadsheet.fresh options = false ->
  default (Num 1) (Spreadsheet.start options) = Num s ->
  default (Num 2000000) (Spreadsheet.limit options) = Num l ->
  1 <= s -> 0 <= l ->
  Spreadsheet.list options w
  = (Ok (Some (map (map (fun grid => Some (Spreadsheet.cell_text grid)))
                   (take (Z.to_nat l) (drop (Z.to_nat (s - 1)) (values sh))))),
     w).
Proof.
  intros Hd Hfind Hfresh Hs Hl Hs1 Hl0. unfold Spreadsheet.list.
  rewrite (bind_Ok _ _ _ _ _ (getSheet_cached _ w sp Hd)).
  rewrite Hfind, Hfresh, Hs, Hl. cbn [num_add num_sub]. unfold ret.
  now rewrite slice_window.
Qed.

Lemma list_cached_window_witness :
  @Spreadsheet.list Example.accepting Scenario.rows_2_3 Example.loaded
  = (Ok (Some [ [Some (JString "a"); Some (JString "5")];
                [Some (JString "b"); Some (JString "7")] ]),
     Example.loaded).
Proof.
  exact (@list_cached_window Example.accepting Example.loaded Example.snapshot
           Example.sheet_S Scenario.rows_2_3 2 2
           eq_refl eq_refl eq_refl eq_refl eq_refl ltac:(lia) ltac:(lia)).
Defined.

(** X5.  When the snapshot cannot be fetched (the call is rejected, or
    the answer has no sheets), every operation that resolves a sheet
    fails with [NotFound]: the transport's error is not what the caller
    sees.  The one call made is the fetch, and the cache stays empty. *)
Theorem unloadable_is_NotFound {engine : Engine} {transport : Transport}
    (w : Spreadsheet) (selector : jsval) :
  data w = None ->
  (forall raw, respond (calls w) (spreadsheets_get (spreadsheetId w))
               <> Some (reply_spreadsheet (Some raw))) ->
  let w' := {| spreadsheetId := spreadsheetId w; data := None;
               calls := calls w ++ [spreadsheets_get (spreadsheetId w)] |} in
  Spreadsheet.getSheet selector w = (Throw NotFound, w')
  /\ Spreadsheet.deleteSheet selector w = (Throw NotFound, w')
  /\ (forall limit start fresh,
        Spreadsheet.list {| Spreadsheet.limit := limit; Spreadsheet.start := start;
                            Spreadsheet.sheet := selector;
                            Spreadsheet.fresh := fresh |} w
        = (Throw NotFound, w'))
  /\ (forall d, Spreadsheet.append d selector w = (Throw NotFound, w'))
  /\ (forall update upsert,
        Spreadsheet.update (Some update) selector upsert w = (Throw NotFound, w'))
  /\ (forall rows columns,
        Spreadsheet.delete rows columns selector w = (Throw NotFound, w'))
  /\ (forall query, Sheet.find selector query None w = (Throw NotFound, w')).
Proof.
  intros Hd Hreply w'.
  assert (Hload : Spreadsheet.load w = (Ok None, w')).
  { rewrite (load_fetch w Hd). unfold w'.
    destruct (respond _ _) as [[[raw|]| | | |]|] eqn:Hr; try reflexivity.
    now destruct (Hreply raw). }
  assert (Hget : Spreadsheet.getSheet selector w = (Throw NotFound, w')).
  { unfold Spreadsheet.getSheet. now rewrite (bind_Ok _ _ _ _ _ Hload). }
  split; [exact Hget|].
  repeat split; intros;
    unfold Sheet.find, Sheet.list_options, Spreadsheet.deleteSheet, Spreadsheet.list,
      Spreadsheet.append, Spreadsheet.update, Spreadsheet.delete;
    cbn [Spreadsheet.sheet default from_option Sheet.o_sheet Sheet.no_options id];
    unfold bind; now rewrite Hget.
Qed.

Lemma unloadable_is_NotFound_witness :
  @Sheet.find Example.engine Scenario.rejecting JUndefined None None
     Scenario.unloaded
  = (Throw NotFound,
     {| spreadsheetId := "doc"; data := None; calls := [spreadsheets_get "doc"] |}).
Proof.
  refine (proj2 (proj2 (proj2 (proj2 (proj2 (proj2
    (@unloadable_is_NotFound Example.engine Scenario.rejecting
       Scenario.unloaded JUndefined eq_refl _)))))) None).
  intros raw. discriminate.
Defined.

(** ** Writing through the adapter *)

Section AdapterWrites.
Context {engine : Engine} {transport : Transport}.

Lemma getSheet_state selector w :
  snd (Spreadsheet.getSheet selector w) = snd (Spreadsheet.load w).
Proof.
  unfold Spreadsheet.getSheet, bind.
  destruct (Spreadsheet.load w) as [[[sp|]|e] w1]; reflexivity.
Qed.

(** every outcome of what follows [getSheet] in a method, taken apart *)
Ltac outcomes :=
  cbv [bind lift ret throw put_data set_data get_spreadsheetId api_call
       Spreadsheet.request Spreadsheet.expand];
  repeat match goal with
         | |- context [match ?x with _ => _ end] =>
             lazymatch x with
             | context [match _ with _ => _ end] => fail
             | _ => destruct x eqn:?
             end
         end;
  intros [= <- <-] || (let H := fresh in intros H; discriminate H).

Lemma append_failure d sheet w e w' :
  Spreadsheet.append d sheet w = (Throw e, w') ->
  data w' = data (snd (Spreadsheet.load w)).
Proof.
  rewrite <- (getSheet_state sheet w). unfold Spreadsheet.append, bind at 1.
  destruct (Spreadsheet.getSheet sheet w) as [[[sh|]|e0] w1]; cbn [snd];
    outcomes; reflexivity.
Qed.

Lemma update_failure u sheet upsert w e w' :
  Spreadsheet.update u sheet upsert w = (Throw e, w') ->
  data w' = data (snd (Spreadsheet.load w)).
Proof.
  rewrite <- (getSheet_state sheet w). unfold Spreadsheet.update.
  destruct u as [u|]; [|discriminate]. unfold bind at 1.
  destruct (Spreadsheet.getSheet sheet w) as [[[sh|]|e0] w1]; cbn [snd];
    outcomes; reflexivity.
Qed.

Lemma delete_failure rows columns sheet w e w' :
  Spreadsheet.delete rows columns sheet w = (Throw e, w') ->
  data w' = data (snd (Spreadsheet.load w)).
Proof.
  rewrite <- (getSheet_state sheet w). unfold Spreadsheet.delete, bind at 1.
  destruct (Spreadsheet.getSheet sheet w) as [[[sh|]|e0] w1]; cbn [snd];
    outcomes; reflexivity.
Qed.

Lemma deleteSheet_failure sheet w e w' :
  Spreadsheet.deleteSheet sheet w = (Throw e, w') ->
  data w' = data (snd (Spreadsheet.load w)).
Proof.
  rewrite <- (getSheet_state sheet w). unfold Spreadsheet.deleteSheet, bind at 1.
  destruct (Spreadsheet.getSheet sheet w) as [[[sh|]|e0] w1]; cbn [snd];
    outcomes; reflexivity.
Qed.

Lemma addSheet_failure t w e w' :
  Spreadsheet.addSheet t w = (Throw e, w') -> data w' = data w.
Proof. unfold Spreadsheet.addSheet. outcomes; reflexivity. Qed.

End AdapterWrites.

(** X6.  A mutating call that fails does not touch the cache: after
    [append], [update], [delete] or [deleteSheet] has thrown, the
    snapshot is the one [load] left, and after a failed [addSheet] it is
    the one from before the call.  The cache is dropped on success only. *)
Theorem failed_write_keeps_cache {engine : Engine} {transport : Transport}
    (w w' : Spreadsheet) (e : error) :
  (forall d sheet,
      Spreadsheet.append d sheet w = (Throw e, w') ->
      data w' = data (snd (Spreadsheet.load w)))
  /\ (forall u sheet upsert,
        Spreadsheet.update u sheet upsert w = (Throw e, w') ->
        data w' = data (snd (Spreadsheet.load w)))
  /\ (forall rows columns sheet,
        Spreadsheet.delete rows columns sheet w = (Throw e, w') ->
        data w' = data (snd (Spreadsheet.load w)))
  /\ (forall sheet,
        Spreadsheet.deleteSheet sheet w = (Throw e, w') ->
        data w' = data (snd (Spreadsheet.load w)))
  /\ (forall title,
        Spreadsheet.addSheet title w = (Throw e, w') -> data w' = data w).
Proof.
  repeat split; intros.
  - eapply append_failure; eassumption.
  - eapply update_failure; eassumption.
  - eapply delete_failure; eassumption.
  - eapply deleteSheet_failure; eassumption.
  - eapply addSheet_failure; eassumption.
Qed.

(** The service rejects the deletion of the sheet "S": the snapshot stays. *)
Lemma failed_write_keeps_cache_witness :
  data (snd (@Spreadsheet.deleteSheet Scenario.rejecting JUndefined Example.loaded))
  = Some Example.snapshot.
Proof.
  exact (proj1 (proj2 (proj2 (proj2
    (@failed_write_keeps_cache Example.engine Scenario.rejecting Example.loaded
       (snd (@Spreadsheet.deleteSheet Scenario.rejecting JUndefined Example.loaded))
       TransportError)))) JUndefined eq_refl).
Defined.

(** X7.  A mutating call that succeeds leaves the cache empty: after
    [append], [update] (with data), [delete], [addSheet] and
    [deleteSheet] the next read fetches the snapshot anew. *)
Theorem successful_write_drops_cache {engine : Engine} {transport : Transport}
    (w w' : Spreadsheet) :
  (forall d sheet r, Spreadsheet.append d sheet w = (Ok r, w') -> data w' = None)
  /\ (forall u sheet upsert r,
        Spreadsheet.update (Some u) sheet upsert w = (Ok r, w') -> data w' = None)
  /\ (forall rows columns sheet r,
        Spreadsheet.delete rows columns sheet w = (Ok r, w') -> data w' = None)
  /\ (forall sheet r, Spreadsheet.deleteSheet sheet w = (Ok r, w') -> data w' = None)
  /\ (forall title r, Spreadsheet.addSheet title w = (Ok r, w') -> data w' = None).
Proof.
  repeat split; intros.
  - eapply append_invalidates; eassumption.
  - eapply update_invalidates; eassumption.
  - eapply delete_invalidates; eassumption.
  - eapply deleteSheet_invalidates; eassumption.
  - eapply addSheet_invalidates; eassumption.
Qed.

(** The service accepts the deletion of the sheet "S": the cache is empty. *)
Lemma successful_write_drops_cache_witness :
  data (snd (@Spreadsheet.deleteSheet Example.accepting JUndefined Example.loaded))
  = None.
Proof.
  exact (proj1 (proj2 (proj2 (proj2
    (@successful_write_drops_cache Example.engine Example.accepting Example.loaded
       (snd (@Spreadsheet.deleteSheet Example.accepting JUndefined Example.loaded))))))
    JUndefined reply_other eq_refl).
Defined.

Section UpdateWrites.
Context {engine : Engine} {transport : Transport}.

Lemma load_spreadsheetId w :
  spreadsheetId (snd (Spreadsheet.load w)) = spreadsheetId w.
Proof.
  destruct (data w) as [d|] eqn:Hd.
  - now rewrite (load_cached w d Hd).
  - now rewrite (load_fetch w Hd).
Qed.

Lemma getSheet_spreadsheetId selector w r w1 :
  Spreadsheet.getSheet selector w = (r, w1) -> spreadsheetId w1 = spreadsheetId w.
Proof.
  intros Hget. rewrite <- (load_spreadsheetId w), <- (getSheet_state selector w).
  now rewrite Hget.
Qed.

Lemma expand_spreadsheetId rows columns sheetId w :
  spreadsheetId (snd (Spreadsheet.expand rows columns sheetId w)) = spreadsheetId w.
Proof.
  unfold Spreadsheet.expand. destruct (_ ++ _)%list; [reflexivity|].
  cbv [bind Spreadsheet.request get_spreadsheetId api_call ret].
  now destruct (respond _ _).
Qed.

Lemma mapR_length {A B} (f : A -> result B) l l' :
  mapR f l = Ok l' -> length l' = length l.
Proof.
  revert l'. induction l as [|x l IH]; intros l'; cbn; [now intros [= <-]|].
  destruct (f x); [|discriminate]. cbn.
  destruct (mapR f l) as [ys|]; [|discriminate]. cbn. intros [= <-].
  cbn. now rewrite (IH ys).
Qed.

(** what the loop of [update] gathers: one range for each item, in order *)
Lemma update_items_ranges sh items st st' :
  Spreadsheet.foldR (Spreadsheet.update_item sh) items st = Ok st' ->
  exists values,
    mapR (fun item => Spreadsheet.dataToValue (snd item)) items = Ok values
    /\ Spreadsheet.ranges st'
       = (Spreadsheet.ranges st
          ++ zip_with (update_range (title sh)) (map fst items) values)%list.
Proof.
  revert st. induction items as [|[target d] items IH]; intros st.
  - cbn. intros [= <-]. exists []. split; [reflexivity|]. now rewrite app_nil_r.
  - cbn [Spreadsheet.foldR mapR snd]. unfold Spreadsheet.update_item at 1.
    destruct (Spreadsheet.dataToValue d) as [value|e]; [|discriminate].
    cbn [rbind]. intros Hrest. apply IH in Hrest as (values & Hvalues & Hranges).
    exists (value :: values). rewrite Hvalues. split; [reflexivity|].
    rewrite Hranges. cbn [Spreadsheet.ranges map fst zip_with].
    now rewrite <- app_assoc.
Qed.

End UpdateWrites.

(** X8.  A successful [update] has written one range for each target
    row, in the order given: ['title'!A<row>:ZZ<row>] with the values of
    the row.  The ranges go out in one batched write, the last call the
    method makes, and the count it returns is the number of target
    rows. *)
Theorem update_writes_each_row {engine : Engine} {transport : Transport}
    (u : Spreadsheet.UpdateData) (sheet : jsval) (upsert : bool)
    (w w' : Spreadsheet) (r : Spreadsheet.UpdateResult) :
  Spreadsheet.update (Some u) sheet upsert w = (Ok r, w') ->
  exists (sh : SheetInfo) (values : list row),
    fst (Spreadsheet.getSheet sheet w) = Ok (Some sh)
    /\ mapR (fun item => Spreadsheet.dataToValue (snd item)) (Spreadsheet.updateRows u)
       = Ok values
    /\ Spreadsheet.updatedRows r = Num (Z.of_nat (length (Spreadsheet.updateRows u)))
    /\ last (calls w')
       = Some (spreadsheets_values_batchUpdate (spreadsheetId w)
                 (zip_with (update_range (title sh))
                           (map fst (Spreadsheet.updateRows u)) values)).
Proof.
  unfold Spreadsheet.update. intros H.
  apply bind_inv_Ok in H as (osh & w1 & Hget & H).
  destruct osh as [sh|]; [|discriminate H].
  apply bind_inv_Ok in H as (st & w2 & Hfold & H).
  unfold lift in Hfold. injection Hfold as Hfold <-.
  apply bind_inv_Ok in H as (u0 & w3 & Hexpand & H).
  assert (Hid : spreadsheetId w3 = spreadsheetId w).
  { rewrite <- (getSheet_spreadsheetId _ _ _ _ Hget).
    destruct upsert.
    - apply bind_inv_Ok in Hexpand as (reply & w4 & Hexpand & Hret).
      injection Hret as _ <-.
      rewrite <- (expand_spreadsheetId (Spreadsheet.addRows st)
                    (Spreadsheet.addColumns st) (id sh) w1).
      now rewrite Hexpand.
    - now injection Hexpand as _ <-. }
  apply bind_inv_Ok in H as (sid & w4 & Hsid & H).
  injection Hsid as <- <-.
  apply bind_inv_Ok in H as (reply & w5 & Hcall & H).
  apply bind_inv_Ok in H as (u1 & w6 & Hput & H).
  injection Hput as _ <-. injection H as <- <-.
  unfold api_call in Hcall. destruct (respond _ _); [|discriminate Hcall].
  injection Hcall as _ <-.
  destruct (update_items_ranges sh _ _ _ Hfold) as (values & Hvalues & Hranges).
  cbn [Spreadsheet.ranges app] in Hranges.
  exists sh, values. rewrite Hget. split; [reflexivity|]. split; [exact Hvalues|].
  split.
  - cbn [Spreadsheet.updatedRows]. rewrite Hranges, length_zip_with, length_map.
    rewrite (mapR_length _ _ _ Hvalues). f_equal. lia.
  - cbn [set_data calls]. rewrite last_snoc, Hid, Hranges. reflexivity.
Qed.

Lemma update_writes_each_row_witness :
  exists (sh : SheetInfo) (values : list row),
    fst (@Spreadsheet.getSheet Example.accepting JUndefined Example.loaded)
    = Ok (Some sh)
    /\ mapR (fun item => Spreadsheet.dataToValue (snd item))
            (Spreadsheet.updateRows UpdateExample.row_12) = Ok values
    /\ Spreadsheet.updatedRows {| Spreadsheet.updatedRows := Num 1 |}
       = Num (Z.of_nat (length (Spreadsheet.updateRows UpdateExample.row_12)))
    /\ last [ spreadsheets_batchUpdate "doc" [appendDimension 0 ROWS (Num 2)];
              UpdateExample.write_row_12 ]
       = Some (spreadsheets_values_batchUpdate "doc"
                 (zip_with (update_range (title sh))
                           (map fst (Spreadsheet.updateRows UpdateExample.row_12))
                           values)).
Proof.
  exact (@update_writes_each_row Example.engine Example.accepting
           UpdateExample.row_12 JUndefined true Example.loaded
           {| spreadsheetId := "doc"; data := None;
              calls := [ spreadsheets_batchUpdate "doc" [appendDimension 0 ROWS (Num 2)];
                         UpdateExample.write_row_12 ] |}
           {| Spreadsheet.updatedRows := Num 1 |} eq_refl).
Defined.

(** X9.  With [upsert], when a numeric target row lies beyond the
    sheet's row count, the first call [update] makes after resolving the
    sheet is the request that grows the sheet, by the largest overrun of
    a target row; the value write follows only if the growth was
    accepted. *)
Theorem update_grows_rows_first {engine : Engine} {transport : Transport}
    (items : list (Z * Spreadsheet.RowData)) (sheet : jsval)
    (w w1 : Spreadsheet) (sh : SheetInfo) (st : Spreadsheet.UpdateState) :
  let targets := map (fun item => (JNumber (Num (fst item)), snd item)) items in
  let overrun := max_overrun (rowCount sh) (map fst items) 0 in
  let grow :=
    spreadsheets_batchUpdate (spreadsheetId w1)
      (appendDimension (id sh) ROWS (Num overrun)
       :: (if num_truthy (Spreadsheet.addColumns st)
           then [appendDimension (id sh) COLUMNS (Spreadsheet.addColumns st)]
           else [])) in
  let write :=
    spreadsheets_values_batchUpdate (spreadsheetId w1) (Spreadsheet.ranges st) in
  Spreadsheet.getSheet sheet w = (Ok (Some sh), w1) ->
  Spreadsheet.foldR (Spreadsheet.update_item sh) targets
    {| Spreadsheet.addRows := Num 0; Spreadsheet.addColumns := Num 0;
       Spreadsheet.ranges := [] |} = Ok st ->
  0 < overrun ->
  calls (snd (Spreadsheet.update (Some (Spreadsheet.UpdateList targets)) sheet true w))
  = (calls w1 ++ grow :: match respond (calls w1) grow with
                         | Some _ => [write]
                         | None => []
                         end)%list.
Proof.
  intros targets overrun grow write Hget Hfold Hover.
  pose proof (update_rows_overrun sh items
                {| Spreadsheet.addRows := Num 0; Spreadsheet.addColumns := Num 0;
                   Spreadsheet.ranges := [] |} st 0 eq_refl ltac:(lia) Hfold) as Hrows.
  fold overrun in Hrows.
  unfold Spreadsheet.update. rewrite (bind_Ok _ _ _ _ _ Hget).
  cbn [Spreadsheet.updateRows]. unfold bind at 1, lift. rewrite Hfold.
  unfold Spreadsheet.expand. rewrite Hrows. cbn [num_truthy].
  destruct (Z.eqb_spec overrun 0) as [Hz|_]; [lia|]. cbn [negb app].
  cbv [bind Spreadsheet.request get_spreadsheetId api_call ret put_data set_data].
  fold grow. destruct (respond (calls w1) grow); cbn; [|reflexivity].
  destruct (respond _ _); cbn; now rewrite <- app_assoc.
Qed.

Lemma update_grows_rows_first_witness :
  calls (snd (@Spreadsheet.update Example.engine Example.accepting
                (Some UpdateExample.row_12) JUndefined true Example.loaded))
  = [ spreadsheets_batchUpdate "doc" [appendDimension 0 ROWS (Num 2)];
      UpdateExample.write_row_12 ].
Proof.
  refine (@update_grows_rows_first Example.engine Example.accepting
           [ (12, Spreadsheet.Row (Spreadsheet.RowArray [Some (JString "a")])) ]
           JUndefined Example.loaded Example.loaded Example.sheet_S
           {| Spreadsheet.addRows := Num 2; Spreadsheet.addColumns := Num 0;
              Spreadsheet.ranges :=
                [ {| range := "'S'!A12:ZZ12";
                     vr_values := [ [Some (JString "a")] ] |} ] |}
           eq_refl eq_refl _).
  vm_compute. reflexivity.
Defined.

Section DeleteWrites.
Context {engine : Engine}.

Lemma delete_request_number sheetId dimension (n : Z) :
  Spreadsheet.delete_request sheetId dimension (JNumber (Num n))
  = delete_one sheetId dimension n.
Proof.
  unfold Spreadsheet.delete_request, delete_one. cbn. do 2 f_equal. lia.
Qed.

Lemma delete_requests_numbers sheetId dimension (l : list Z) :
  map (Spreadsheet.delete_request sheetId dimension)
      (map (fun n => JNumber (Num n)) l)
  = map (delete_one sheetId dimension) l.
Proof.
  rewrite map_map. apply map_ext. intros n. apply delete_request_number.
Qed.

End DeleteWrites.

(** X10.  [delete] on a resolved sheet.  With nothing to delete it calls
    nothing and still drops the cache.  With row numbers it sends one
    batched request: for each row, in the order the sort left them, the
    deletion of exactly that row (from index [row - 1] to [row]), then
    the same for each column.  It reports the number of rows; the number
    of columns is never counted, [deleteColumnsCount] stays 0. *)
Theorem delete_one_request_each {engine : Engine} {transport : Transport}
    (sheet : jsval) (w w1 : Spreadsheet) (sh : SheetInfo) :
  Spreadsheet.getSheet sheet w = (Ok (Some sh), w1) ->
  Spreadsheet.delete [] [] sheet w
  = (Ok {| Spreadsheet.ok := Num 1; Spreadsheet.deletedRowsCount := Num 0;
           Spreadsheet.deleteColumnsCount := Num 0;
           Spreadsheet.deletedColumnsCount := None |},
     set_data None w1)
  /\ forall rows sorted columns : list Z,
       rows <> [] ->
       Array_sort jsval descending (map (fun n => JNumber (Num n)) rows)
       = Ok (map (fun n => JNumber (Num n)) sorted) ->
       Permutation rows sorted ->
       let request :=
         spreadsheets_batchUpdate (spreadsheetId w1)
           (map (delete_one (id sh) ROWS) sorted
            ++ map (delete_one (id sh) COLUMNS) columns) in
       calls (snd (Spreadsheet.delete (map (fun n => JNumber (Num n)) rows)
                     (map (fun n => JNumber (Num n)) columns) sheet w))
       = (calls w1 ++ [request])%list
       /\ (forall reply,
             respond (calls w1) request = Some reply ->
             fst (Spreadsheet.delete (map (fun n => JNumber (Num n)) rows)
                    (map (fun n => JNumber (Num n)) columns) sheet w)
             = Ok {| Spreadsheet.ok := Num 1;
                     Spreadsheet.deletedRowsCount := Num (Z.of_nat (length rows));
                     Spreadsheet.deleteColumnsCount := Num 0;
                     Spreadsheet.deletedColumnsCount :=
                       match columns with [] => None | _ => Some NaN end |}).
Proof.
  intros Hget. split.
  { unfold Spreadsheet.delete. now rewrite (bind_Ok _ _ _ _ _ Hget). }
  intros rows sorted columns Hrows Hsort Hperm request.
  assert (Hdelete :
    Spreadsheet.delete (map (fun n => JNumber (Num n)) rows)
      (map (fun n => JNumber (Num n)) columns) sheet w
    = (match respond (calls w1) request with
       | Some _ =>
           Ok {| Spreadsheet.ok := Num 1;
                 Spreadsheet.deletedRowsCount := Num (Z.of_nat (length rows));
                 Spreadsheet.deleteColumnsCount := Num 0;
                 Spreadsheet.deletedColumnsCount :=
                   match columns with [] => None | _ => Some NaN end |}
       | None => Throw TransportError
       end,
       {| spreadsheetId := spreadsheetId w1;
          data := match respond (calls w1) request with
                  | Some _ => None
                  | None => data w1
                  end;
          calls := calls w1 ++ [request] |})).
  { unfold Spreadsheet.delete. rewrite (bind_Ok _ _ _ _ _ Hget).
    destruct rows as [|r0 rows]; [congruence|].
    cbn [map]. unfold bind at 1, lift.
    change (fun a b : jsval => Ok (num_sub (ToNumber b) (ToNumber a))) with descending.
    change (JNumber (Num r0) :: map (fun n => JNumber (Num n)) rows)
      with (map (fun n => JNumber (Num n)) (r0 :: rows)).
    rewrite Hsort, !delete_requests_numbers.
    destruct sorted as [|s0 sorted];
      [now apply Permutation_sym, Permutation_nil_cons in Hperm|].
    rewrite length_map, <- (Permutation_length Hperm).
    cbn [map app].
    cbv [bind Spreadsheet.request get_spreadsheetId api_call ret put_data set_data].
    unfold request. cbn [map app].
    destruct (respond _ _); cbn; [|reflexivity].
    replace (0 + Z.of_nat (S (length rows))) with (Z.of_nat (S (length rows))) by lia.
    now destruct columns. }
  rewrite Hdelete. cbn [fst snd calls]. split; [reflexivity|].
  intros reply ->. reflexivity.
Qed.

Lemma delete_one_request_each_witness :
  calls (snd (@Spreadsheet.delete Example.engine Example.accepting
                [JNumber (Num 2); JNumber (Num 3)] [] JUndefined Example.loaded))
  = [ spreadsheets_batchUpdate "doc"
        [ deleteDimension 0 ROWS (Num 2) (Num 3);
          deleteDimension 0 ROWS (Num 1) (Num 2) ] ].
Proof.
  refine (proj1 (proj2 (@delete_one_request_each Example.engine Example.accepting
            JUndefined Example.loaded Example.loaded Example.sheet_S eq_refl)
          [2; 3] [3; 2] [] _ eq_refl _)).
  - discriminate.
  - apply perm_swap.
Defined.

(** ** The range an append reports *)

Section RangeMatch.

Lemma append_cons (c : ascii) (a b : string) : String c a ++ b = String c (a ++ b).
Proof. reflexivity. Qed.

Lemma append_assoc (a b c : string) : (a ++ b) ++ c = a ++ b ++ c.
Proof.
  induction a as [|x a IH]; [reflexivity|]. rewrite !append_cons. now rewrite IH.
Qed.

Lemma all_chars_app p (a b : string) :
  all_chars p (a ++ b) = all_chars p a && all_chars p b.
Proof.
  induction a as [|x a IH]; [reflexivity|].
  rewrite append_cons. cbn [all_chars]. now rewrite IH, andb_assoc.
Qed.

Lemma all_chars_impl (p q : ascii -> bool) (s : string) :
  (forall c, p c = true -> q c = true) ->
  all_chars p s = true -> all_chars q s = true.
Proof.
  intros Hpq. induction s as [|c s IH]; [reflexivity|]. cbn [all_chars].
  rewrite !andb_true_iff. intros [Hc Hs]. auto.
Qed.

(** [span] cuts where the class ends *)
Lemma span_spec p (s a b : string) :
  Spreadsheet.span p s = (a, b) -> s = a ++ b /\ all_chars p a = true.
Proof.
  revert a b. induction s as [|c s IH]; intros a b; cbn [Spreadsheet.span].
  - intros [= <- <-]. split; reflexivity.
  - destruct (p c) eqn:Hc.
    + destruct (Spreadsheet.span p s) as [a' b'].
      intros [= <- <-]. destruct (IH a' b' eq_refl) as [-> Ha].
      split; [reflexivity|]. cbn [all_chars]. now rewrite Hc, Ha.
    + intros [= <- <-]. split; reflexivity.
Qed.

Lemma span_app p (a b : string) :
  all_chars p a = true ->
  match b with String c _ => p c = false | EmptyString => True end ->
  Spreadsheet.span p (a ++ b) = (a, b).
Proof.
  intros Ha Hb. induction a as [|c a IH].
  - destruct b as [|c b]; [reflexivity|]. cbn [Spreadsheet.span].
    change ("" ++ String c b) with (String c b). cbn [Spreadsheet.span].
    now rewrite Hb.
  - cbn [all_chars] in Ha. apply andb_true_iff in Ha as [Hc Ha].
    rewrite append_cons. cbn [Spreadsheet.span]. now rewrite Hc, (IH Ha).
Qed.

Lemma is_AZ_not_quote c : is_AZ c = true -> not_quote c = true.
Proof.
  unfold is_AZ, not_quote. destruct (Ascii.eqb_spec c "'") as [->|]; [|reflexivity].
  vm_compute. discriminate.
Qed.

Lemma is_digit_not_quote c : is_digit c = true -> not_quote c = true.
Proof.
  unfold is_digit, not_quote. destruct (Ascii.eqb_spec c "'") as [->|]; [|reflexivity].
  vm_compute. discriminate.
Qed.

Lemma is_digit_not_AZ c : is_digit c = true -> is_AZ c = false.
Proof.
  unfold is_digit, is_AZ. rewrite andb_true_iff, !Z.leb_le. intros [H1 H2].
  destruct (Z.leb_spec 65 (charCodeAt c)); [lia | reflexivity].
Qed.

(** after its first character a string that [match_cells] accepts has no
    quote *)
Lemma match_cells_no_quote (c : ascii) (s : string) groups :
  Spreadsheet.match_cells (String c s) = Some groups -> all_chars not_quote s = true.
Proof.
  unfold Spreadsheet.match_cells.
  destruct (Ascii.eqb_spec c "'") as [->|Hc].
  2:{ destruct c as [[] [] [] [] [] [] [] []]; try discriminate. now destruct Hc. }
  destruct s as [|c1 s1]; [discriminate|].
  destruct (Ascii.eqb_spec c1 "!") as [->|Hc1].
  2:{ destruct c1 as [[] [] [] [] [] [] [] []]; try discriminate. now destruct Hc1. }
  destruct (Spreadsheet.span is_AZ s1) as [a s2] eqn:Ha.
  destruct (Spreadsheet.span is_digit s2) as [b s3] eqn:Hb.
  destruct s3 as [|c3 s4]; [discriminate|].
  destruct (Ascii.eqb_spec c3 ":") as [->|Hc3].
  2:{ destruct c3 as [[] [] [] [] [] [] [] []]; try discriminate. now destruct Hc3. }
  destruct (Spreadsheet.span is_AZ s4) as [a' s5] eqn:Ha'.
  destruct (Spreadsheet.span is_digit s5) as [b' s6] eqn:Hb'.
  destruct s6 as [|c6 s6]; [|now rewrite andb_false_r]. intros _.
  apply span_spec in Ha as [-> Ha], Hb as [-> Hb], Ha' as [-> Ha'], Hb' as [-> Hb'].
  cbn [all_chars]. rewrite !all_chars_app. cbn [all_chars]. rewrite !all_chars_app.
  rewrite (all_chars_impl _ _ _ is_AZ_not_quote Ha),
    (all_chars_impl _ _ _ is_digit_not_quote Hb),
    (all_chars_impl _ _ _ is_AZ_not_quote Ha'),
    (all_chars_impl _ _ _ is_digit_not_quote Hb').
  reflexivity.
Qed.

Lemma match_cells_range (c1 r1 c2 r2 : string) :
  test_AZ c1 = true -> test_digits r1 = true ->
  test_AZ c2 = true -> test_digits r2 = true ->
  Spreadsheet.match_cells ("'!" ++ c1 ++ r1 ++ ":" ++ c2 ++ r2)
  = Some (c1, r1, c2, r2).
Proof.
  unfold test_AZ, test_digits. rewrite !andb_true_iff.
  intros [Hn1 Hc1] [Hm1 Hr1] [Hn2 Hc2] [Hm2 Hr2].
  change ("'!" ++ c1 ++ r1 ++ ":" ++ c2 ++ r2)
    with (String "'" (String "!" (c1 ++ r1 ++ ":" ++ c2 ++ r2))).
  cbn [Spreadsheet.match_cells].
  assert (Hfirst : forall r s, nonempty r = true -> all_chars is_digit r = true ->
            match r ++ s with String c _ => is_AZ c = false | EmptyString => True end).
  { intros [|c r] s Hn Hr; [discriminate|]. rewrite append_cons.
    cbn [all_chars] in Hr. apply andb_true_iff in Hr as [Hc _].
    now apply is_digit_not_AZ. }
  rewrite (span_app is_AZ c1 _ Hc1 (Hfirst r1 _ Hm1 Hr1)).
  rewrite (span_app is_digit r1 (":" ++ c2 ++ r2) Hr1 eq_refl).
  change (":" ++ c2 ++ r2) with (String ":" (c2 ++ r2)).
  rewrite <- (string_app_empty r2) at 1.
  rewrite (span_app is_AZ c2 _ Hc2 (Hfirst r2 _ Hm2 Hr2)).
  rewrite (span_app is_digit r2 "" Hr2 I).
  now rewrite Hn1, Hm1, Hn2, Hm2.
Qed.

Lemma match_title_range (t title c1 r1 c2 r2 : string) :
  nonempty t = true ->
  test_AZ c1 = true -> test_digits r1 = true ->
  test_AZ c2 = true -> test_digits r2 = true ->
  Spreadsheet.match_title title (t ++ "'!" ++ c1 ++ r1 ++ ":" ++ c2 ++ r2)
  = Some {| Spreadsheet.m_title := title ++ t; Spreadsheet.m_startColumn := c1;
            Spreadsheet.m_startRow := r1; Spreadsheet.m_endColumn := c2;
            Spreadsheet.m_endRow := r2 |}.
Proof.
  intros Ht H1 H2 H3 H4. revert title Ht.
  induction t as [|c t IH]; intros title Ht; [discriminate|].
  rewrite append_cons. cbn [Spreadsheet.match_title].
  destruct t as [|c' t].
  - change ("" ++ "'!" ++ c1 ++ r1 ++ ":" ++ c2 ++ r2)
      with ("'!" ++ c1 ++ r1 ++ ":" ++ c2 ++ r2).
    now rewrite match_cells_range.
  - destruct (Spreadsheet.match_cells _) as [groups|] eqn:Hcells.
    + rewrite append_cons in Hcells. apply match_cells_no_quote in Hcells.
      rewrite all_chars_app in Hcells. apply andb_true_iff in Hcells as [_ Hq].
      discriminate Hq.
    + rewrite (IH (title ++ String c "") eq_refl). now rewrite append_assoc.
Qed.

End RangeMatch.

(** X11.  The range that [append] reads back: for every non-empty sheet
    title, whatever its characters, and every pair of cells written with
    the letters A to Z and decimal digits, the text
    ['title'!<col><row>:<col><row>] is taken apart into exactly the title,
    the two columns and the two rows. *)
Theorem match_range_roundtrip (t c1 r1 c2 r2 : string) :
  nonempty t = true ->
  test_AZ c1 = true -> test_digits r1 = true ->
  test_AZ c2 = true -> test_digits r2 = true ->
  Spreadsheet.match_range ("'" ++ t ++ "'!" ++ c1 ++ r1 ++ ":" ++ c2 ++ r2)
  = Some {| Spreadsheet.m_title := t; Spreadsheet.m_startColumn := c1;
            Spreadsheet.m_startRow := r1; Spreadsheet.m_endColumn := c2;
            Spreadsheet.m_endRow := r2 |}.
Proof.
  intros Ht H1 H2 H3 H4.
  change ("'" ++ t ++ "'!" ++ c1 ++ r1 ++ ":" ++ c2 ++ r2)
    with (String "'" (t ++ "'!" ++ c1 ++ r1 ++ ":" ++ c2 ++ r2)).
  cbn [Spreadsheet.match_range]. now rewrite match_title_range.
Qed.

Lemma match_range_roundtrip_witness :
  Spreadsheet.match_range ("'" ++ "it's" ++ "'!" ++ "C" ++ "5" ++ ":" ++ "AD" ++ "16")
  = Some {| Spreadsheet.m_title := "it's"; Spreadsheet.m_startColumn := "C";
            Spreadsheet.m_startRow := "5"; Spreadsheet.m_endColumn := "AD";
            Spreadsheet.m_endRow := "16" |}.
Proof.
  exact (match_range_roundtrip "it's" "C" "5" "AD" "16"
           eq_refl eq_refl eq_refl eq_refl eq_refl).
Defined.

(** X12.  [append] reads the row span out of the range the service
    reports, after the rows were sent.  When that range has not the form
    ['title'!<col><row>:<col><row>] (no range that does not begin with a
    quote has it), the method fails with a [TypeError]: the append
    request is the one call made, it is on record as sent, and the cache
    is the one held before, not dropped. *)
Theorem append_unmatched_range {transport : Transport}
    (d : Spreadsheet.AppendData) (sheet : jsval) (w w1 : Spreadsheet)
    (sh : SheetInfo) (values : list row) (updates : AppendUpdates) :
  let request :=
    spreadsheets_values_append (spreadsheetId w1) ("'" ++ title sh ++ "'!A:ZZ") values in
  Spreadsheet.getSheet sheet w = (Ok (Some sh), w1) ->
  Spreadsheet.append_values d = Ok values ->
  respond (calls w1) request = Some (reply_append updates) ->
  Spreadsheet.match_range (updatedRange updates) = None ->
  Spreadsheet.append d sheet w
  = (Throw TypeError,
     {| spreadsheetId := spreadsheetId w1; data := data w1;
        calls := calls w1 ++ [request] |})
  /\ (forall (c : ascii) (s : string),
        c <> "'"%char -> Spreadsheet.match_range (String c s) = None).
Proof.
  intros request Hget Hvalues Hreply Hmatch. split.
  - unfold Spreadsheet.append.
    rewrite (bind_Ok _ _ _ _ _ Hget).
    unfold bind at 1, lift. rewrite Hvalues.
    unfold bind at 1, get_spreadsheetId.
    unfold bind at 1, api_call. fold request. now rewrite Hreply, Hmatch.
  - intros c s Hc. unfold Spreadsheet.match_range.
    destruct c as [[] [] [] [] [] [] [] []]; try reflexivity. now destruct Hc.
Qed.

Lemma append_unmatched_range_witness :
  @Spreadsheet.append Scenario.appending_unquoted
    Scenario.one_row JUndefined Example.loaded
  = (Throw TypeError,
     {| spreadsheetId := "doc"; data := Some Example.snapshot;
        calls := [spreadsheets_values_append "doc" "'S'!A:ZZ"
                    [[Some (JString "c"); Some (JString "9")]]] |}).
Proof.
  exact (proj1 (@append_unmatched_range Scenario.appending_unquoted
    Scenario.one_row JUndefined Example.loaded Example.loaded Example.sheet_S
    [[Some (JString "c"); Some (JString "9")]]
    {| u_spreadsheetId := "doc"; updatedRange := "S!A4:B4"; u_updatedRows := Num 1 |}
    eq_refl eq_refl eq_refl eq_refl)).
Defined.

(** ** Rows given as objects *)

Section RowKeys.

Lemma test_AZ_columnToLetter (n : Z) : 1 <= n -> test_AZ (columnToLetter n) = true.
Proof.
  intros Hn. unfold test_AZ, columnToLetter.
  destruct (columnToLetter_loop_chars n "" ltac:(lia)) as [-> ->].
  cbn. destruct (Z.ltb_spec 0 n); [reflexivity | lia].
Qed.

Lemma is_digit_pretty_N_char (d : N) : (d < 10)%N -> is_digit (pretty_N_char d) = true.
Proof.
  intros Hd.
  assert (d = 0 \/ d = 1 \/ d = 2 \/ d = 3 \/ d = 4 \/ d = 5 \/ d = 6 \/ d = 7
          \/ d = 8 \/ d = 9)%N as Hcases by lia.
  repeat (destruct Hcases as [->|Hcases]; [reflexivity|]). now subst.
Qed.

Lemma pretty_N_go_digits (x : N) (s : string) :
  all_chars is_digit s = true -> all_chars is_digit (pretty_N_go x s) = true.
Proof.
  revert s. induction (N.lt_wf_0 x) as [x _ IH]. intros s Hs.
  destruct (N.eq_dec x 0%N) as [->|Hx]; [now rewrite pretty_N_go_0|].
  rewrite pretty_N_go_step by lia.
  apply IH; [apply N.div_lt; lia|].
  cbn [all_chars]. rewrite is_digit_pretty_N_char, Hs; [reflexivity|].
  apply N.mod_lt. lia.
Qed.

(** [String(n)] of a number from 0 on matches [/^[0-9]+$/] *)
Lemma test_digits_pretty (n : Z) : 0 <= n -> test_digits (pretty n) = true.
Proof.
  intros Hn. destruct n as [|p|p]; [reflexivity| |lia].
  unfold test_digits. change (pretty (Z.pos p)) with (pretty (N.pos p)).
  unfold pretty, pretty_N. destruct (decide (N.pos p = 0%N)) as [Hz|_]; [discriminate|].
  rewrite (pretty_N_go_digits _ "" eq_refl), andb_true_r.
  destruct (pretty_leading_digit (N.pos p) "" ltac:(lia)) as (d & rest & _ & ->).
  reflexivity.
Qed.

(** no string matches both [/^[A-Z]+$/] and [/^[0-9]+$/] *)
Lemma test_digits_not_AZ (s : string) : test_digits s = true -> test_AZ s = false.
Proof.
  unfold test_digits, test_AZ. destruct s as [|c s]; [discriminate|].
  cbn [nonempty all_chars andb]. intros Hs. apply andb_true_iff in Hs as [Hc _].
  now rewrite (is_digit_not_AZ c Hc).
Qed.

Lemma array_set_nat_same {A} (i : nat) (v : A) (a : array A) :
  array_set_nat i v a !! i = Some (Some v).
Proof.
  revert a. induction i as [|i IH]; intros [|x a]; cbn; auto.
Qed.

Lemma array_set_nat_other {A} (i j : nat) (v : A) (a : array A) :
  i <> j -> mjoin (array_set_nat i v a !! j) = mjoin (a !! j).
Proof.
  revert j a. induction i as [|i IH]; intros [|j] [|x a] Hij; cbn;
    try congruence; try reflexivity.
  all: try rewrite IH by congruence.
  all: now rewrite ?lookup_nil.
Qed.

Lemma dataToValue_last (o : list (string * jsval)) (entry : string * jsval) :
  Spreadsheet.dataToValue
    (Spreadsheet.Row (Spreadsheet.RowMap (o ++ [entry])))
  = Ok (Spreadsheet.dataToValue_key (fold_left Spreadsheet.dataToValue_key o []) entry).
Proof. cbn [Spreadsheet.dataToValue]. now rewrite fold_left_app. Qed.

End RowKeys.

(** X13.  A row given as an object: its keys are taken in order, and for
    every column number [n] from 1 on the key written in letters
    ([columnToLetter n]) and the key written in digits ([String(n)])
    both put the value in the cell of index [n - 1], over what an
    earlier key put there, growing the row with holes when needed and
    leaving every other cell as it was.  A key that is neither letters
    A to Z only nor digits only, and the key [0], put nothing
    anywhere. *)
Theorem dataToValue_keys (o : list (string * jsval)) (n : Z) (v : jsval) :
  1 <= n ->
  exists before : row,
    Spreadsheet.dataToValue (Spreadsheet.Row (Spreadsheet.RowMap o)) = Ok before
    /\ Spreadsheet.dataToValue
         (Spreadsheet.Row (Spreadsheet.RowMap (o ++ [(columnToLetter n, v)])))
       = Ok (array_set (n - 1) v before)
    /\ Spreadsheet.dataToValue
         (Spreadsheet.Row (Spreadsheet.RowMap (o ++ [(pretty n, v)])))
       = Ok (array_set (n - 1) v before)
    /\ array_set (n - 1) v before !! Z.to_nat (n - 1) = Some (Some v)
    /\ (forall i : nat,
          i <> Z.to_nat (n - 1) ->
          mjoin (array_set (n - 1) v before !! i) = mjoin (before !! i))
    /\ (forall k : string,
          test_AZ k = false -> test_digits k = false ->
          Spreadsheet.dataToValue
            (Spreadsheet.Row (Spreadsheet.RowMap (o ++ [(k, v)])))
          = Ok before)
    /\ Spreadsheet.dataToValue
         (Spreadsheet.Row (Spreadsheet.RowMap (o ++ [("0", v)])))
       = Ok before.
Proof.
  intros Hn. exists (fold_left Spreadsheet.dataToValue_key o []).
  rewrite !dataToValue_last. unfold Spreadsheet.dataToValue_key.
  split; [reflexivity|]. split; [|split; [|split; [|split; [|split]]]].
  - now rewrite test_AZ_columnToLetter, columnLetterToIndex_columnToLetter by lia.
  - rewrite (test_digits_not_AZ _ (test_digits_pretty n ltac:(lia))).
    now rewrite test_digits_pretty, parseInt_pretty by lia.
  - unfold array_set. destruct (Z.ltb_spec (n - 1) 0); [lia|].
    apply array_set_nat_same.
  - intros i Hi. unfold array_set. destruct (Z.ltb_spec (n - 1) 0); [lia|].
    apply array_set_nat_other. congruence.
  - intros k HAZ Hdigits. rewrite dataToValue_last.
    unfold Spreadsheet.dataToValue_key. now rewrite HAZ, Hdigits.
  - reflexivity.
Qed.

(** [{ A: 'x', 3: 'z' }] and [{ A: 'x', C: 'z' }] are the row
    ['x', <hole>, 'z']. *)
Lemma dataToValue_keys_witness :
  Spreadsheet.dataToValue
    (Spreadsheet.Row (Spreadsheet.RowMap [("A", JString "x"); ("3", JString "z")]))
  = Ok [Some (JString "x"); None; Some (JString "z")]
  /\ Spreadsheet.dataToValue
       (Spreadsheet.Row (Spreadsheet.RowMap [("A", JString "x"); ("C", JString "z")]))
     = Ok [Some (JString "x"); None; Some (JString "z")].
Proof.
  destruct (dataToValue_keys [("A", JString "x")] 3 (JString "z") ltac:(lia))
    as (before & Hbefore & Hletter & Hnumber & _).
  injection Hbefore as <-. split; [exact Hnumber | exact Hletter].
Defined.

(** ** The documents of a listing *)

Section RowNumbers.
Context {engine : Engine}.

Lemma mapR_header_cell (first : row) :
  mapR (Sheet.header_cell false) first = Ok first.
Proof.
  induction first as [|cell first IH]; [reflexivity|].
  cbn [mapR]. rewrite IH. now destruct cell.
Qed.

Lemma columnToLetter_not_row (n : Z) : columnToLetter n <> "_row".
Proof.
  intros Heq. destruct (Z.le_gt_cases 0 n) as [Hn|Hn].
  - destruct (columnToLetter_loop_chars n "" Hn) as [Hall _].
    unfold columnToLetter in Heq. rewrite Heq in Hall. discriminate Hall.
  - unfold columnToLetter in Heq. rewrite columnToLetter_loop_equation_1 in Heq.
    destruct (Z_lt_dec 0 n); [lia | discriminate Heq].
Qed.

Lemma writes_not_row (header : row) (column : bool) (j : nat) :
  (forall (j : nat) (h : jsval), header !! j = Some (Some h) -> ToString h <> "_row") ->
  ~ In "_row" (writes header column j).
Proof.
  intros Hheader Hin. unfold writes in Hin. apply in_app_or in Hin as [Hin|Hin].
  - destruct (header !! j) as [[h|]|] eqn:Hj; try contradiction.
    destruct (truthy h); [|contradiction].
    destruct Hin as [Hin|[]]. exact (Hheader j h Hj Hin).
  - destruct column; [|contradiction].
    destruct Hin as [Hin|[]]. exact (columnToLetter_not_row _ Hin).
Qed.

Lemma row_number_numbered (startRow : option number) (i : nat) :
  Sheet.row_number startRow i = Num (numbered startRow i).
Proof.
  unfold Sheet.row_number, numbered. destruct startRow as [[|s]|]; try reflexivity.
  cbn [num_truthy]. now destruct (s =? 0).
Qed.

Lemma rows_to_docs_numbers (header : row) (options : Sheet.Options)
    (values : list row) (i : nat) :
  (forall (j : nat) (h : jsval), header !! j = Some (Some h) -> ToString h <> "_row") ->
  i <> 0%nat ->
  map (fun doc => Sheet.field doc "_row") (Sheet.rows_to_docs header options i values)
  = map (fun i => JNumber (Num (numbered (Sheet.o_startRow options) i)))
        (filled_rows i values).
Proof.
  intros Hheader. revert i. induction values as [|value rest IH]; intros i Hi;
    [reflexivity|].
  cbn [Sheet.rows_to_docs filled_rows].
  destruct (Nat.eqb_spec i 0) as [Hz|_]; [contradiction|]. cbn [orb].
  destruct (String.eqb _ _); [now apply IH|].
  cbn [map]. rewrite IH by lia. f_equal.
  unfold Sheet.field, Sheet.row_to_doc.
  rewrite set_cells_untouched by (intros; now apply writes_not_row).
  rewrite lookup_singleton_eq. cbn [default from_option id].
  now rewrite row_number_numbered.
Qed.

End RowNumbers.

(** X14.  The row numbers of the documents.  With no header cell named
    [_row] (and names not lowercased), [valuesToData] gives one document
    for each row after the first whose cells are not all blank, in the
    order of the rows, and the field [_row] of each is the number of its
    row: counted from the option [startRow] when it is a number other
    than 0, so that the first listed row is row [startRow], and with the
    first listed row as row 1 otherwise.  A blank row gives no document
    and still counts. *)
Theorem valuesToData_row_numbers {engine : Engine}
    (first : row) (rest : list row) (options : Sheet.Options) :
  Sheet.o_lowercase options = false ->
  (forall (j : nat) (h : jsval), first !! j = Some (Some h) -> ToString h <> "_row") ->
  exists data : Sheet.Data,
    Sheet.valuesToData (Some (first :: rest)) (Some options) = Ok data
    /\ map (fun doc => Sheet.field doc "_row") (Sheet.docs data)
       = map (fun i => JNumber (Num (numbered (Sheet.o_startRow options) i)))
             (filled_rows 1 rest).
Proof.
  intros Hlower Hheader. unfold Sheet.valuesToData.
  change (default Sheet.no_options (Some options)) with options. cbv zeta.
  rewrite Hlower, mapR_header_cell. cbn [rbind].
  eexists. split; [reflexivity|]. cbn [Sheet.docs Sheet.rows_to_docs Nat.eqb orb].
  now apply rows_to_docs_numbers.
Qed.

(** The header, a row, a blank row and a row: the documents are those of
    rows 2 and 4. *)
Lemma valuesToData_row_numbers_witness :
  exists data : Sheet.Data,
    @Sheet.valuesToData Example.engine
      (Some [ [Some (JString "name")]; [Some (JString "a")]; [Some JNull];
              [Some (JString "b")] ])
      (Some Sheet.no_options) = Ok data
    /\ map (fun doc => Sheet.field doc "_row") (Sheet.docs data)
       = [JNumber (Num 2); JNumber (Num 4)].
Proof.
  refine (@valuesToData_row_numbers Example.engine
            [Some (JString "name")]
            [ [Some (JString "a")]; [Some JNull]; [Some (JString "b")] ]
            Sheet.no_options eq_refl _).
  intros [|[|j]] h [= <-]; discriminate.
Defined.

(** ** What a query accepts *)

Section QueryTerms.
Context {engine : Engine}.

Lemma buildFilter_keys_acc (q : Sheet.Query) (terms : list Sheet.Term) :
  Sheet.buildFilter_keys q terms
  = (let? added := Sheet.buildFilter_keys q [] in Ok (terms ++ added)%list).
Proof.
  revert terms. induction q as [|[key term] q IH]; intros terms.
  - cbn. now rewrite app_nil_r.
  - cbn [Sheet.buildFilter_keys].
    destruct (Sheet.field_terms key term) as [added|e]; [|reflexivity].
    cbn [rbind app]. rewrite (IH (terms ++ added)%list), (IH added).
    destruct (Sheet.buildFilter_keys q []) as [others|e]; [|reflexivity].
    cbn [rbind]. now rewrite app_assoc.
Qed.

Lemma some_rejects_app (t1 t2 : list Sheet.Term) (item : Sheet.Doc) :
  Sheet.some_rejects (t1 ++ t2) item
  = match Sheet.some_rejects t1 item with
    | Ok false => Sheet.some_rejects t2 item
    | outcome => outcome
    end.
Proof.
  induction t1 as [|f t1 IH]; [reflexivity|].
  cbn [app Sheet.some_rejects].
  destruct (Sheet.term_rejects f item) as [[|]|e]; cbn [rbind]; [reflexivity| |reflexivity].
  exact IH.
Qed.

End QueryTerms.

(** X15.  The fields of a query are joined by "and", from left to
    right: the filter of a query made of two parts accepts a document
    when the filter of the first part accepts it and the filter of the
    second does; when the first part rejects the document the second is
    not consulted, and an exception thrown by the part at work is the
    filter's. *)
Theorem query_fields_conjoin {engine : Engine}
    (q1 q2 : Sheet.Query) (f1 f2 : Sheet.Doc -> result bool) :
  Sheet.buildFilterFn (Some q1) = Ok f1 ->
  Sheet.buildFilterFn (Some q2) = Ok f2 ->
  exists f : Sheet.Doc -> result bool,
    Sheet.buildFilterFn (Some (q1 ++ q2)%list) = Ok f
    /\ forall item : Sheet.Doc,
         f item = match f1 item with
                  | Ok true => f2 item
                  | outcome => outcome
                  end.
Proof.
  unfold Sheet.buildFilterFn, Sheet.buildFilter. intros H1 H2.
  rewrite buildFilter_keys_app.
  destruct (Sheet.buildFilter_keys q1 []) as [t1|e1]; [|discriminate H1].
  cbn [rbind] in *. rewrite buildFilter_keys_acc.
  destruct (Sheet.buildFilter_keys q2 []) as [t2|e2]; [|discriminate H2].
  cbn [rbind] in *. injection H1 as <-. injection H2 as <-.
  eexists. split; [reflexivity|]. intros item. cbv beta.
  rewrite some_rejects_app.
  destruct (Sheet.some_rejects t1 item) as [[|]|e]; reflexivity.
Qed.

Lemma query_fields_conjoin_witness :
  exists f : Sheet.Doc -> result bool,
    @Sheet.buildFilterFn Example.engine
      (Some [ ("name", Sheet.QValue (JString "a"));
              ("score", Sheet.QValue (JNumber (Num 5))) ]) = Ok f
    /\ f QueryExample.doc_a = Ok true /\ f QueryExample.doc_b = Ok false.
Proof.
  destruct (@query_fields_conjoin Example.engine
              [ ("name", Sheet.QValue (JString "a")) ]
              [ ("score", Sheet.QValue (JNumber (Num 5))) ]
              _ _ eq_refl eq_refl) as (f & Hf & Hitem).
  exists f. split; [exact Hf|]. now rewrite !Hitem.
Defined.



Section ContainsFacts.
Context {engine : Engine}.

(** [data.filter] stops at the first exception *)
Lemma filter_docs_throws (f : Sheet.Doc -> result bool) (e0 : error)
    (data : list Sheet.Doc) :
  (forall item e, f item = Throw e -> e = e0) ->
  (exists item e, In item data /\ f item = Throw e) ->
  Sheet.filter_docs f data = Throw e0.
Proof.
  intros Hthrow. induction data as [|item rest IH]; intros (bad & e & Hin & Hbad);
    [destruct Hin|].
  cbn [Sheet.filter_docs]. destruct (f item) as [keep|e1] eqn:Hitem.
  - destruct Hin as [->|Hin]; [congruence|].
    cbn [rbind]. rewrite IH; [reflexivity|]. now exists bad, e.
  - cbn [rbind]. now rewrite (Hthrow item e1 Hitem).
Qed.

End ContainsFacts.

(** X17.  The operator [$contains] needs a text in the cell: the filter
    accepts a document whose field is a string that includes the operand
    (as a string), rejects one whose string does not, and throws a
    [TypeError] on a document whose field is missing or is not a string.
    [filterData] with such a term therefore fails with that [TypeError]
    as soon as one document of the data has no string in the field,
    whatever the other documents and the options are. *)
Theorem contains_needs_text {engine : Engine} (key : string) (v : jsval) :
  exists f : Sheet.Doc -> result bool,
    Sheet.buildFilterFn (Some [(key, Sheet.QObject [("$contains", v)])]) = Ok f
    /\ (forall item : Sheet.Doc,
          f item = match Sheet.field item key with
                   | JString s => Ok (includes s (ToString v))
                   | _ => Throw TypeError
                   end)
    /\ (forall (data : Sheet.Data) (options : option Sheet.Options),
          (exists item : Sheet.Doc,
              In item (Sheet.docs data)
              /\ forall s, Sheet.field item key <> JString s) ->
          Sheet.filterData data (Some [(key, Sheet.QObject [("$contains", v)])]) options
          = Throw TypeError).
Proof.
  eexists. split; [reflexivity|].
  assert (Hitem : forall item : Sheet.Doc,
            (let? rejected :=
               Sheet.some_rejects
                 [ {| Sheet.key := key; Sheet.type := Sheet.t_contains;
                      Sheet.value := Sheet.term_val v |} ] item in
             Ok (negb rejected))
            = match Sheet.field item key with
              | JString s => Ok (includes s (ToString v))
              | _ => Throw TypeError
              end).
  { intros item. cbn -[includes].
    destruct (Sheet.field item key) as [| |b|m|s]; try reflexivity.
    cbn -[includes]. now destruct (includes s (ToString v)). }
  split; [exact Hitem|].
  intros data options (bad & Hin & Hbad). unfold Sheet.filterData.
  destruct (Sheet.docs data) as [|item rest] eqn:Hdocs; [destruct Hin|].
  change (Sheet.buildFilterFn (Some (default [] (Some [(key, Sheet.QObject [("$contains", v)])]))))
    with (Ok (fun item : Sheet.Doc =>
                let? rejected :=
                  Sheet.some_rejects
                    [ {| Sheet.key := key; Sheet.type := Sheet.t_contains;
                         Sheet.value := Sheet.term_val v |} ] item in
                Ok (negb rejected))).
  cbn [rbind]. rewrite (filter_docs_throws _ TypeError); [reflexivity| |].
  - intros it e. rewrite Hitem. destruct (Sheet.field it key); congruence.
  - exists bad, TypeError. split; [exact Hin|]. rewrite Hitem.
    destruct (Sheet.field bad key) as [| |b|m|s]; try reflexivity.
    now destruct (Hbad s).
Qed.

(** A document without a score among the data: [{ score: { $contains:
    '5' } }] makes [filterData] throw. *)
Lemma contains_needs_text_witness :
  @Sheet.filterData Example.engine
    {| Sheet.docs := [QueryExample.doc_a; ValuesExample.doc_a]; Sheet._header := None |}
    (Some [("score", Sheet.QObject [("$contains", JString "5")])]) None
  = Throw TypeError.
Proof.
  destruct (@contains_needs_text Example.engine "score" (JString "5"))
    as (f & _ & _ & Hdata).
  apply Hdata. exists ValuesExample.doc_a. split; [right; now left|].
  intros s Heq. vm_compute in Heq. discriminate Heq.
Defined.

(** X18.  A field of the query given as a plain value (a string without
    [*], a number, a boolean, [undefined]) is compared as text: the
    document is accepted exactly when [String] of its field is [String]
    of the value.  So the number 5 finds the cell ['5'], and the value
    [undefined] and the string ['undefined'] find the documents without
    the field. *)
Theorem value_terms {engine : Engine} (key : string) (v : jsval) :
  v <> JNull ->
  (forall s, v = JString s -> includes s "*" = false) ->
  exists f : Sheet.Doc -> result bool,
    Sheet.buildFilterFn (Some [(key, Sheet.QValue v)]) = Ok f
    /\ forall item : Sheet.Doc,
         f item = Ok (String.eqb (ToString (Sheet.field item key)) (ToString v)).
Proof.
  intros Hnull Hstar.
  assert (Hterms : Sheet.field_terms key (Sheet.QValue v)
                   = Ok [ {| Sheet.key := key; Sheet.type := Sheet.t_string;
                             Sheet.value := Sheet.term_val (JString (ToString v)) |} ]).
  { destruct v as [| |b|m|s]; try reflexivity; [contradiction|].
    cbn [Sheet.field_terms]. now rewrite (Hstar s eq_refl). }
  unfold Sheet.buildFilterFn, Sheet.buildFilter.
  cbn [Sheet.buildFilter_keys]. rewrite Hterms. cbn [rbind app Sheet.buildFilter_keys].
  eexists. split; [reflexivity|]. intros item.
  cbn [Sheet.some_rejects Sheet.term_rejects Sheet.type Sheet.value Sheet.key rbind ToString].
  now destruct (String.eqb _ _).
Qed.

(** [{ score: 5 }] finds the cell ['5'], and [{ score: undefined }] the
    document that has no score. *)
Lemma value_terms_witness :
  (exists f : Sheet.Doc -> result bool,
      @Sheet.buildFilterFn Example.engine
        (Some [("score", Sheet.QValue (JNumber (Num 5)))]) = Ok f
      /\ f QueryExample.doc_a = Ok true /\ f QueryExample.doc_b = Ok false)
  /\ (exists f : Sheet.Doc -> result bool,
        @Sheet.buildFilterFn Example.engine
          (Some [("score", Sheet.QValue JUndefined)]) = Ok f
        /\ f ValuesExample.doc_a = Ok true /\ f QueryExample.doc_a = Ok false).
Proof.
  split.
  - destruct (@value_terms Example.engine "score" (JNumber (Num 5))
                ltac:(discriminate) ltac:(discriminate)) as (f & Hf & Hitem).
    exists f. split; [exact Hf|]. now rewrite !Hitem.
  - destruct (@value_terms Example.engine "score" JUndefined
                ltac:(discriminate) ltac:(discriminate)) as (f & Hf & Hitem).
    exists f. split; [exact Hf|]. now rewrite !Hitem.
Defined.

(** ** Sorting and paging the documents *)

Section Paging.
Context {engine : Engine} {transport : Transport}.
Variable this_sheet : jsval.

Lemma slice_take_drop {A} (a : list A) (s l : Z) :
  0 <= s -> 0 <= l ->
  slice a (Num s) (Num (s + l)) = take (Z.to_nat l) (drop (Z.to_nat s) a).
Proof.
  intros Hs Hl. pose proof (slice_window a (s + 1) l ltac:(lia) Hl) as Hw.
  replace (s + 1 - 1) with s in Hw by lia.
  replace (s + 1 + l - 1) with (s + l) in Hw by lia. exact Hw.
Qed.

Lemma length_slice {A} (a : list A) (start stop : number) :
  (length (slice a start stop) <= length a)%nat.
Proof. unfold slice. rewrite length_take, length_drop. lia. Qed.

Lemma filter_docs_sublist (f : Sheet.Doc -> result bool) (data kept : list Sheet.Doc) :
  Sheet.filter_docs f data = Ok kept -> sublist kept data.
Proof.
  revert kept. induction data as [|item rest IH]; intros kept.
  - intros [= <-]. constructor.
  - cbn [Sheet.filter_docs]. destruct (f item) as [keep|e]; [|discriminate].
    cbn [rbind]. destruct (Sheet.filter_docs f rest) as [others|e]; [|discriminate].
    cbn [rbind]. intros [= <-]. specialize (IH others eq_refl).
    destruct keep; now constructor.
Qed.

Lemma rows_to_docs_length (header : row) (options : Sheet.Options) (i : nat)
    (values : list row) :
  (length (Sheet.rows_to_docs header options i values) <= length values)%nat.
Proof.
  revert i. induction values as [|value rest IH]; intros i; [reflexivity|].
  cbn [Sheet.rows_to_docs length]. specialize (IH (S i)).
  destruct (_ || _); cbn [length]; lia.
Qed.

(** the header row gives no document *)
Lemma valuesToData_length (rows : list row) (options : option Sheet.Options)
    (data : Sheet.Data) :
  Sheet.valuesToData (Some rows) options = Ok data ->
  (length (Sheet.docs data) <= length rows - 1)%nat.
Proof.
  unfold Sheet.valuesToData. destruct rows as [|first rest]; [now intros [= <-]|].
  destruct (mapR _ first) as [header|e]; [|discriminate].
  cbn [rbind]. intros [= <-]. cbn [Sheet.docs Sheet.rows_to_docs Nat.eqb orb length].
  pose proof (rows_to_docs_length header (default Sheet.no_options options) 1 rest).
  lia.
Qed.

Lemma filterData_length (data result : Sheet.Data) query (options : option Sheet.Options) :
  Sheet.o_sort (default Sheet.no_options options) = None ->
  Sheet.filterData data query options = Ok result ->
  (length (Sheet.docs result) <= length (Sheet.docs data))%nat.
Proof.
  intros Hsort. unfold Sheet.filterData.
  destruct (Sheet.docs data) as [|item rest] eqn:Hdocs.
  { intros [= <-]. now rewrite Hdocs. }
  rewrite Hsort. cbn [Sheet.buildSortFn].
  destruct (Sheet.buildFilterFn _) as [f|e]; [|discriminate]. cbn [rbind].
  destruct (Sheet.filter_docs f (item :: rest)) as [kept|e] eqn:Hkept; [|discriminate].
  cbn [rbind]. intros [= <-]. cbn [Sheet.docs].
  pose proof (sublist_length _ _ (filter_docs_sublist _ _ _ Hkept)) as Hlen.
  destruct (_ || _); [|exact Hlen].
  etransitivity; [apply length_slice | exact Hlen].
Qed.

(** what the cached grid gives for [limit: n] *)
Lemma list_limit (options : Sheet.Options) (s n : Z) w values w' :
  Sheet.o_fresh options = false ->
  Sheet.o_limit options = Some (Num n) ->
  default (Num 1) (Sheet.o_start options) = Num s ->
  1 <= s -> 0 <= n ->
  Spreadsheet.list (Sheet.list_options this_sheet (Some options)) w = (Ok values, w') ->
  exists rows : list row, values = Some rows /\ (length rows <= Z.to_nat n)%nat.
Proof.
  intros Hfresh Hlimit Hstart Hs Hn. unfold Spreadsheet.list, Sheet.list_options.
  change (default Sheet.no_options (Some options)) with options. cbv zeta.
  cbn [Spreadsheet.limit Spreadsheet.start Spreadsheet.fresh Spreadsheet.sheet].
  rewrite Hfresh, Hlimit, Hstart. cbn [default from_option id]. unfold bind.
  destruct (Spreadsheet.getSheet _ w) as [[[sh|]|e] w1]; try discriminate.
  unfold ret. intros [= <- <-]. eexists. split; [reflexivity|].
  cbn [num_add num_sub]. rewrite length_map, slice_window by lia.
  rewrite length_take. lia.
Qed.

End Paging.

(** X19.  The comparison function of [sort].  When the two documents
    hold strings of decimal digits under the key, of values up to 2^53,
    they are compared as numbers: the doubles [parseInt] reads are
    these values and their difference is exact; a tie passes to the
    next key, and otherwise the result is the difference of the two
    numbers for an ascending key and -1 or 1, the sign reversed, for a
    key with a negative weight.  When the first document has no value
    under the key the comparison throws a [TypeError]. *)
Theorem sort_compares_numbers {engine : Engine}
    (key : string) (weight : number) (rest : list (string * number))
    (a b : Sheet.Doc) (x y : string) :
  test_digits x = true -> test_digits y = true ->
  decimal x <= Double.two53 -> decimal y <= Double.two53 ->
  Sheet.field a key = JString x -> Sheet.field b key = JString y ->
  Sheet.compare_docs ((key, weight) :: rest) a b
  = (if decimal x =? decimal y then Sheet.compare_docs rest a b
     else Ok (Num (if num_lt weight (Num 0)
                   then (if decimal y <? decimal x then -1 else 1)
                   else decimal x - decimal y)))
  /\ Double.parseInt x = Some (Num (decimal x))
  /\ Double.parseInt y = Some (Num (decimal y))
  /\ Double.sub (Num (decimal x)) (Num (decimal y)) = Num (decimal x - decimal y)
  /\ (forall c : Sheet.Doc,
        Sheet.field c key = JUndefined ->
        Sheet.compare_docs ((key, weight) :: rest) c b = Throw TypeError).
Proof.
  intros Hx Hy Hxsafe Hysafe Ha Hb.
  pose proof (decimal_nonneg x Hx). pose proof (decimal_nonneg y Hy).
  split; [|split; [|split; [|split]]].
  - cbn [Sheet.compare_docs]. rewrite Ha, Hb. cbn [ToString].
    rewrite Hx, Hy. cbn [andb orb Sheet.sort_number rbind].
    unfold parseInt. cbn [ToString]. rewrite !parseInt_digits by assumption.
    cbn [num_sub]. destruct (Z.eqb_spec (decimal x) (decimal y)) as [Heq|Hne].
    + rewrite Heq, Z.sub_diag. cbn [num_nonzero]. now rewrite andb_false_r.
    + assert (Hnz : num_nonzero (Num (decimal x - decimal y)) = true).
      { destruct (decimal x - decimal y) eqn:Hd; [lia | reflexivity..]. }
      destruct (num_lt weight (Num 0)); cbn [andb].
      * rewrite Hnz. unfold num_gt, num_lt.
        destruct (Z.ltb_spec 0 (decimal x - decimal y)),
          (Z.ltb_spec (decimal y) (decimal x)); try lia; reflexivity.
      * now rewrite Hnz.
  - apply parseInt_safe; [now apply parseInt_digits | lia].
  - apply parseInt_safe; [now apply parseInt_digits | lia].
  - cbn [Double.sub]. now rewrite round53_safe by lia.
  - intros c Hc. cbn [Sheet.compare_docs]. rewrite Hc. reflexivity.
Qed.

(** The scores 5 and 7, descending: the document with 5 comes after. *)
Lemma sort_compares_numbers_witness :
  @Sheet.compare_docs Example.engine [("score", Num (-1))]
    QueryExample.doc_a QueryExample.doc_b = Ok (Num 1)
  /\ @Sheet.compare_docs Example.engine [("score", Num (-1))]
       ValuesExample.doc_a QueryExample.doc_b = Throw TypeError.
Proof.
  destruct (@sort_compares_numbers Example.engine "score" (Num (-1)) []
              QueryExample.doc_a QueryExample.doc_b "5" "7"
              eq_refl eq_refl ltac:(vm_compute; discriminate)
              ltac:(vm_compute; discriminate) eq_refl eq_refl)
    as (Hnumbers & _ & _ & _ & Hmissing).
  split; [exact Hnumbers | exact (Hmissing ValuesExample.doc_a eq_refl)].
Defined.

(** X20.  Paging, without [sort].  [filterData] keeps the documents the
    filter accepts, in their order, and the [_header] of the data.  When
    [skip] or [limit] is above 0 it then takes the window of [limit]
    documents after the first [skip]: at most [limit] documents when a
    limit is given, and no document at all when [skip] is given without
    a [limit].  Every document returned is one of the data. *)
Theorem filterData_window {engine : Engine}
    (data : Sheet.Data) (query : option Sheet.Query) (options : Sheet.Options)
    (f : Sheet.Doc -> result bool) (accepted : list Sheet.Doc) (s l : Z) :
  Sheet.buildFilterFn (Some (default [] query)) = Ok f ->
  Sheet.filter_docs f (Sheet.docs data) = Ok accepted ->
  Sheet.o_sort options = None ->
  default (Num 0) (Sheet.o_skip options) = Num s ->
  default (Num 0) (Sheet.o_limit options) = Num l ->
  0 <= s -> 0 <= l ->
  exists result : Sheet.Data,
    Sheet.filterData data query (Some options) = Ok result
    /\ Sheet._header result = Sheet._header data
    /\ Sheet.docs result
       = (if (0 <? s) || (0 <? l)
          then take (Z.to_nat l) (drop (Z.to_nat s) accepted) else accepted)
    /\ sublist (Sheet.docs result) (Sheet.docs data)
    /\ (0 < l -> Z.of_nat (length (Sheet.docs result)) <= l)
    /\ (0 < s -> l = 0 -> Sheet.docs result = []).
Proof.
  intros Hf Haccepted Hsort Hskip Hlimit Hs Hl.
  pose proof (filter_docs_sublist _ _ _ Haccepted) as Hsub.
  assert (Hwindow : sublist (take (Z.to_nat l) (drop (Z.to_nat s) accepted))
                            (Sheet.docs data)).
  { etransitivity; [apply sublist_take|].
    etransitivity; [apply sublist_drop | exact Hsub]. }
  unfold Sheet.filterData. destruct (Sheet.docs data) as [|item rest] eqn:Hdocs.
  - injection Haccepted as <-. exists data. rewrite Hdocs, drop_nil, take_nil.
    repeat split; try reflexivity.
    + now destruct (_ || _).
    + cbn. lia.
  - change (default Sheet.no_options (Some options)) with options. cbv zeta.
    rewrite Hf, Hsort, Hskip, Hlimit. cbn [rbind Sheet.buildSortFn].
    rewrite Haccepted. cbn [rbind num_gt num_lt num_add].
    rewrite slice_take_drop by assumption.
    eexists. split; [reflexivity|]. cbn [Sheet.docs Sheet._header].
    split; [reflexivity|]. split; [reflexivity|]. split; [|split].
    + now destruct (_ || _).
    + intros Hpos. destruct (Z.ltb_spec 0 l); [|lia]. rewrite orb_true_r.
      rewrite length_take. lia.
    + intros Hpos ->. destruct (Z.ltb_spec 0 s); [|lia]. reflexivity.
Qed.

(** The two documents of the sheet "S" with [skip: 1] and no limit:
    nothing is left. *)
Lemma filterData_window_witness :
  exists result : Sheet.Data,
    @Sheet.filterData Example.engine
      {| Sheet.docs := [QueryExample.doc_a; QueryExample.doc_b]; Sheet._header := None |}
      None (Some Scenario.skip_1) = Ok result
    /\ Sheet.docs result = [].
Proof.
  destruct (@filterData_window Example.engine
              {| Sheet.docs := [QueryExample.doc_a; QueryExample.doc_b];
                 Sheet._header := None |}
              None Scenario.skip_1
              _ [QueryExample.doc_a; QueryExample.doc_b] 1 0
              eq_refl eq_refl eq_refl eq_refl eq_refl ltac:(lia) ltac:(lia))
    as (result & Hresult & _ & _ & _ & _ & Hnone).
  exists result. split; [exact Hresult | apply Hnone; lia].
Defined.

(** X21.  The limit of [find] counts the header.  [find] hands its
    options to [list] as well as to [filterData], so with [limit: n] and
    no [sort], reading the cached grid, the adapter lists [n] rows at
    most, the first of which is the header row: [find] returns at most
    [n - 1] documents, whatever the query, and none for a limit of 0 or
    1. *)
Theorem find_limit_counts_header {engine : Engine} {transport : Transport}
    (this_sheet : jsval) (query : option Sheet.Query) (options : Sheet.Options)
    (s n : Z) (w w' : Spreadsheet) (data : Sheet.Data) :
  Sheet.o_fresh options = false ->
  Sheet.o_sort options = None ->
  Sheet.o_limit options = Some (Num n) ->
  default (Num 1) (Sheet.o_start options) = Num s ->
  1 <= s -> 0 <= n ->
  Sheet.find this_sheet query (Some options) w = (Ok data, w') ->
  Z.of_nat (length (Sheet.docs data)) <= Z.max 0 (n - 1).
Proof.
  intros Hfresh Hsort Hlimit Hstart Hs Hn Hfind. unfold Sheet.find in Hfind.
  apply bind_inv_Ok in Hfind as (values & w1 & Hlist & Hfind).
  apply bind_inv_Ok in Hfind as (listed & w2 & Hvalues & Hfilter).
  destruct (list_limit this_sheet options s n w values w1
              Hfresh Hlimit Hstart Hs Hn Hlist) as (rows & -> & Hrows).
  unfold lift in Hvalues, Hfilter.
  destruct (Sheet.valuesToData (Some rows) (Some options)) as [listed'|e] eqn:Hdocs;
    [|discriminate].
  injection Hvalues as -> ->.
  destruct (Sheet.filterData listed query (Some options)) as [result|e] eqn:Hresult;
    [|discriminate].
  injection Hfilter as -> ->.
  pose proof (valuesToData_length _ _ _ Hdocs).
  pose proof (filterData_length listed data query (Some options) Hsort Hresult). lia.
Qed.

(** The sheet "S" has two rows of data; [find] with [limit: 2] gives
    the document of the first. *)
Lemma find_limit_counts_header_witness :
  @Sheet.find Example.engine Example.accepting JUndefined None
    (Some Scenario.limit_2) Example.loaded
  = (Ok {| Sheet.docs := [QueryExample.doc_a]; Sheet._header := None |}, Example.loaded)
  /\ Z.of_nat (length [QueryExample.doc_a]) <= Z.max 0 (2 - 1).
Proof.
  split; [reflexivity|].
  exact (@find_limit_counts_header Example.engine Example.accepting JUndefined None
           Scenario.limit_2 1 2 Example.loaded Example.loaded
           {| Sheet.docs := [QueryExample.doc_a]; Sheet._header := None |}
           eq_refl eq_refl eq_refl eq_refl ltac:(lia) ltac:(lia) eq_refl).
Defined.

(** ** Patching documents *)

Section PatchFacts.
Context {engine : Engine}.

Lemma indexOf_from_first (header : row) (key : string) (j : nat) (start : Z) :
  first_at header key j -> Sheet.indexOf_from header key start = start + Z.of_nat j.
Proof.
  revert j start. induction header as [|cell rest IH]; intros j start [Hj Hfirst];
    [discriminate|].
  destruct j as [|j].
  - injection Hj as ->. cbn [Sheet.indexOf_from]. rewrite String.eqb_refl. lia.
  - assert (Hcell : cell <> Some (JString key)).
    { intros ->. now apply (Hfirst 0%nat ltac:(lia)). }
    assert (Hrest : Sheet.indexOf_from rest key (start + 1) = start + 1 + Z.of_nat j).
    { apply IH. split; [exact Hj|]. intros j' Hlt. apply (Hfirst (S j')). lia. }
    cbn [Sheet.indexOf_from]. destruct cell as [[| |b|n|s]|]; try (rewrite Hrest; lia).
    destruct (String.eqb_spec s key) as [->|_]; [congruence | rewrite Hrest; lia].
Qed.

Lemma indexOf_from_none (header : row) (key : string) (start : Z) :
  (forall j : nat, header !! j <> Some (Some (JString key))) ->
  Sheet.indexOf_from header key start = -1.
Proof.
  revert start. induction header as [|cell rest IH]; intros start Hnone; [reflexivity|].
  assert (Hrest : Sheet.indexOf_from rest key (start + 1) = -1).
  { apply IH. intros j. apply (Hnone (S j)). }
  cbn [Sheet.indexOf_from]. destruct cell as [[| |b|n|s]|]; try exact Hrest.
  destruct (String.eqb_spec s key) as [->|_]; [|exact Hrest].
  now destruct (Hnone 0%nat).
Qed.

Lemma array_set_nat_nil {A} (i : nat) (v : A) :
  array_set_nat i v [] = (replicate i None ++ [Some v])%list.
Proof. induction i as [|i IH]; [reflexivity|]. cbn. now rewrite IH. Qed.

(** the row of a line holding one cell *)
Lemma dataToValue_line (index : Z) (s : string) :
  0 <= index ->
  Spreadsheet.dataToValue (Spreadsheet.Row (Sheet.line_object [(index, s)]))
  = Ok (if index =? 0 then []
        else (replicate (Z.to_nat (index - 1)) None ++ [Some (JString s)])%list).
Proof.
  intros Hindex. unfold Sheet.line_object. cbn [map Spreadsheet.dataToValue fold_left].
  unfold Spreadsheet.dataToValue_key.
  rewrite (test_digits_not_AZ _ (test_digits_pretty index Hindex)).
  rewrite test_digits_pretty, parseInt_pretty by exact Hindex.
  unfold array_set. destruct (Z.eqb_spec index 0) as [->|Hnz]; [reflexivity|].
  destruct (Z.ltb_spec (index - 1) 0); [lia|]. now rewrite array_set_nat_nil.
Qed.

Lemma line_set_single (index : Z) (s : string) (line : list (Z * string)) :
  line = [] \/ (exists s', line = [(index, s')]) ->
  Sheet.line_set index s line = [(index, s)].
Proof.
  intros [->|[s' ->]]; [reflexivity|]. cbn [Sheet.line_set]. now rewrite Z.eqb_refl.
Qed.

End PatchFacts.

(** X22.  Where a patched value lands.  For a patch [{ key: value }]
    with a string or a number as value, [update] builds for the document
    a line with the one cell [String(value)], numbered by the position
    of [key] in the header, and the adapter turns it into the row
    written at the document's [_row]: when [key] is first found in the
    header at index [j], the row has the value at index [j] after [j]
    holes, so no other cell of the sheet's row is written; when the
    header has no cell [key], the row written is empty, and the document
    still counts as updated. *)
Theorem literal_patch_cell {engine : Engine}
    (header : row) (item : Sheet.Doc) (key : string) (v : jsval) :
  (exists s, v = JString s) \/ (exists n, v = JNumber n) ->
  exists line : Spreadsheet.RowObject,
    Sheet.patch_item (Some header) [(key, Sheet.PatchLiteral v)] [] item
    = Ok [(Sheet.field item "_row", Spreadsheet.Row line)]
    /\ (forall j : nat,
          first_at header key j ->
          Spreadsheet.dataToValue (Spreadsheet.Row line)
          = Ok (replicate j None ++ [Some (JString (ToString v))])%list)
    /\ ((forall j : nat, header !! j <> Some (Some (JString key))) ->
        Spreadsheet.dataToValue (Spreadsheet.Row line) = Ok []).
Proof.
  intros Hv.
  exists (Sheet.line_object [(Sheet.indexOf header key + 1, ToString v)]).
  split; [|split].
  - destruct Hv as [[s ->]|[n ->]]; reflexivity.
  - intros j Hj. unfold Sheet.indexOf. rewrite (indexOf_from_first header key j 0 Hj).
    rewrite dataToValue_line by lia.
    destruct (Z.eqb_spec (0 + Z.of_nat j + 1) 0); [lia|].
    do 3 f_equal. lia.
  - intros Hnone. unfold Sheet.indexOf. rewrite (indexOf_from_none header key 0 Hnone).
    now rewrite dataToValue_line.
Qed.

(** On the header [name], [score]: [{ score: 9 }] writes [<hole>, '9']
    and [{ age: 9 }] writes nothing. *)
Lemma literal_patch_cell_witness :
  (exists line : Spreadsheet.RowObject,
      @Sheet.patch_item Example.engine
        (Some [Some (JString "name"); Some (JString "score")])
        [("score", Sheet.PatchLiteral (JNumber (Num 9)))] [] QueryExample.doc_a
      = Ok [(JNumber (Num 2), Spreadsheet.Row line)]
      /\ Spreadsheet.dataToValue (Spreadsheet.Row line) = Ok [None; Some (JString "9")])
  /\ (exists line : Spreadsheet.RowObject,
        @Sheet.patch_item Example.engine
          (Some [Some (JString "name"); Some (JString "score")])
          [("age", Sheet.PatchLiteral (JNumber (Num 9)))] [] QueryExample.doc_a
        = Ok [(JNumber (Num 2), Spreadsheet.Row line)]
        /\ Spreadsheet.dataToValue (Spreadsheet.Row line) = Ok []).
Proof.
  split.
  - destruct (@literal_patch_cell Example.engine
                [Some (JString "name"); Some (JString "score")]
                QueryExample.doc_a "score" (JNumber (Num 9))
                (or_intror (ex_intro _ (Num 9) eq_refl)))
      as (line & Hline & Hfound & _).
    exists line. split; [exact Hline|]. apply (Hfound 1%nat).
    split; [reflexivity|]. intros [|j'] Hlt; [discriminate | lia].
  - destruct (@literal_patch_cell Example.engine
                [Some (JString "name"); Some (JString "score")]
                QueryExample.doc_a "age" (JNumber (Num 9))
                (or_intror (ex_intro _ (Num 9) eq_refl)))
      as (line & Hline & _ & Hmissing).
    exists line. split; [exact Hline|]. apply Hmissing.
    intros [|[|j]]; discriminate.
Defined.

(** X23.  Update operators do not add up.  For a patch value that is an
    object of operators, each operator is applied to the value the
    document had, not to the result of the operator before it, and
    assigns the same cell: when all of them evaluate, the cell gets what
    the last operator gives and the earlier ones are without effect. *)
Theorem last_operator_wins {engine : Engine}
    (header : row) (item : Sheet.Doc) (key : string)
    (ops : list (string * Sheet.Operand)) (k : string) (v : Sheet.Operand)
    (s : string) :
  let orgValue := or_empty (Sheet.field item key) in
  Forall (fun op => exists r, Sheet.apply_operator (fst op) (snd op) orgValue = Ok r) ops ->
  Sheet.apply_operator k v orgValue = Ok (Some s) ->
  Sheet.patch_field (Some header) item []
    (key, Sheet.PatchObject (ops ++ [(k, v)])%list)
  = Ok [(Sheet.indexOf header key + 1, s)]
  /\ Sheet.patch_field (Some header) item [] (key, Sheet.PatchObject [(k, v)])
     = Ok [(Sheet.indexOf header key + 1, s)].
Proof.
  intros orgValue Hops Hlast. cbn [Sheet.patch_field]. fold orgValue.
  set (index := Sheet.indexOf header key + 1).
  assert (Hfold : forall line : list (Z * string),
            line = [] \/ (exists s', line = [(index, s')]) ->
            Spreadsheet.foldR
              (fun line '(k, v) =>
                 let? r := Sheet.apply_operator k v orgValue in
                 Ok (match r with
                     | Some s => Sheet.line_set index s line
                     | None => line
                     end))
              (ops ++ [(k, v)])%list line
            = Ok [(index, s)]).
  { induction Hops as [|[k0 v0] ops [r Hr] _ IH]; intros line Hline.
    - cbn [app Spreadsheet.foldR]. rewrite Hlast. cbn [rbind].
      now rewrite line_set_single.
    - cbn [app Spreadsheet.foldR]. cbn [fst snd] in Hr. rewrite Hr. cbn [rbind].
      apply IH. destruct r as [s0|]; [|exact Hline].
      right. exists s0. now apply line_set_single. }
  split.
  - apply Hfold. now left.
  - cbn [Spreadsheet.foldR]. now rewrite Hlast.
Qed.

(** [{ name: { $append: 'x', $uppercase: 1 } }] on the name ['a'] gives
    ['A'], not ['AX']. *)
Lemma last_operator_wins_witness :
  @Sheet.patch_field Example.engine
    (Some [Some (JString "name"); Some (JString "score")]) QueryExample.doc_a []
    ("name", Sheet.PatchObject
               [ ("$append", Sheet.OpValue (JString "x"));
                 ("$uppercase", Sheet.OpValue (JNumber (Num 1))) ])
  = Ok [(1, "A")].
Proof.
  refine (proj1 (@last_operator_wins Example.engine
            [Some (JString "name"); Some (JString "score")] QueryExample.doc_a "name"
            [("$append", Sheet.OpValue (JString "x"))]
            "$uppercase" (Sheet.OpValue (JNumber (Num 1))) "A" _ eq_refl)).
  repeat constructor. now exists (Some "ax").
Defined.

(** ** Inserting documents *)

Section InsertFacts.

Lemma indexOf_from_In (header : row) (key : string) (start : Z) :
  In (column_named key) header -> start <= Sheet.indexOf_from header key start.
Proof.
  revert start. induction header as [|cell rest IH]; intros start Hin; [destruct Hin|].
  cbn [Sheet.indexOf_from].
  assert (Hrest : cell <> column_named key ->
                  start <= Sheet.indexOf_from rest key (start + 1)).
  { intros Hcell. destruct Hin as [->|Hin]; [congruence|].
    specialize (IH (start + 1) Hin). lia. }
  destruct cell as [[| |b|n|s]|]; try (apply Hrest; discriminate).
  destruct (String.eqb_spec s key) as [->|Hne]; [lia|].
  apply Hrest. unfold column_named. congruence.
Qed.

Lemma indexOf_from_notin (header : row) (key : string) (start : Z) :
  ~ In (column_named key) header -> Sheet.indexOf_from header key start = -1.
Proof.
  intros Hnotin. apply indexOf_from_none. intros j Hj.
  apply Hnotin. apply list_elem_of_In. exact (list_elem_of_lookup_2 _ _ _ Hj).
Qed.

Lemma indexOf_from_found (header : row) (key : string) (start : Z) :
  Sheet.indexOf_from header key start <> -1 -> In (column_named key) header.
Proof.
  revert start. induction header as [|cell rest IH]; intros start; [now cbn|].
  cbn [Sheet.indexOf_from].
  destruct cell as [[| |b|n|s]|]; try (intros H; right; exact (IH _ H)).
  destruct (String.eqb_spec s key) as [->|_]; [now left|].
  intros H. right. exact (IH _ H).
Qed.

(** [header.indexOf(key) === -1] says that no cell of the header is the
    string [key] *)
Lemma indexOf_none_iff (header : row) (key : string) :
  Sheet.indexOf header key = -1 <-> ~ In (column_named key) header.
Proof.
  unfold Sheet.indexOf. split.
  - intros Hnone Hin. pose proof (indexOf_from_In header key 0 Hin). lia.
  - apply indexOf_from_notin.
Qed.

Lemma column_named_inj (added : list string) (k : string) :
  In (column_named k) (map column_named added) -> In k added.
Proof.
  intros Hin. apply in_map_iff in Hin as (k' & [= ->] & Hin). exact Hin.
Qed.

Lemma insert_key_grown (header0 header : row) (added : list string) (value : row)
    (key : string) (v : jsval) :
  grown header0 header added ->
  let st := Sheet.insert_key (header, added, value) (key, v) in
  grown header0 (fst (fst st)) (snd (fst st))
  /\ forall k, In k (snd (fst st))
               <-> In k added \/ (k = key /\ ~ In (column_named key) header0).
Proof.
  intros (Hheader & Hnodup & Hnew). unfold Sheet.insert_key.
  destruct (Z.eqb_spec (Sheet.indexOf header key) (-1)) as [Hnone|Hfound];
    cbn [fst snd].
  - apply indexOf_none_iff in Hnone.
    assert (Hkey0 : ~ In (column_named key) header0).
    { intros Hin. apply Hnone. rewrite Hheader. apply in_or_app. now left. }
    assert (Hkey : ~ In key added).
    { intros Hin. apply Hnone. rewrite Hheader. apply in_or_app. right.
      now apply in_map. }
    split; [split; [|split]|].
    + rewrite Hheader, map_app, <- app_assoc. reflexivity.
    + apply NoDup_app. split; [exact Hnodup|]. split; [|apply NoDup_singleton].
      intros k Hk Hk'. apply list_elem_of_In in Hk, Hk'.
      destruct Hk' as [<-|[]]. contradiction.
    + intros k Hk. apply in_app_or in Hk as [Hk|[<-|[]]]; [now apply Hnew | exact Hkey0].
    + intros k. rewrite in_app_iff. cbn [In]. split.
      * intros [Hk|[<-|[]]]; [now left | now right].
      * intros [Hk|[-> _]]; [now left | right; now left].
  - split; [now split|]. intros k. split; [now left|].
    intros [Hk|[-> Hkey0]]; [exact Hk|].
    pose proof (indexOf_from_found header key 0 Hfound) as Hin.
    rewrite Hheader in Hin. apply in_app_or in Hin as [Hin|Hin]; [contradiction|].
    now apply column_named_inj.
Qed.

Lemma insert_keys_grown (header0 : row) (item : list (string * jsval)) :
  forall (header : row) (added : list string) (value : row),
    grown header0 header added ->
    let st := fold_left Sheet.insert_key item (header, added, value) in
    grown header0 (fst (fst st)) (snd (fst st))
    /\ forall k, In k (snd (fst st))
                 <-> In k added
                     \/ (~ In (column_named k) header0 /\ exists v, In (k, v) item).
Proof.
  induction item as [|[key v] item IH]; intros header added value Hgrown.
  - cbn [fold_left fst snd]. split; [exact Hgrown|]. intros k. split; [now left|].
    intros [Hk|(_ & v & [])]. exact Hk.
  - cbn [fold_left].
    destruct (insert_key_grown header0 header added value key v Hgrown) as [Hstep Hadded].
    destruct (Sheet.insert_key (header, added, value) (key, v)) as [[header1 added1] value1].
    cbn [fst snd] in Hstep, Hadded.
    destruct (IH header1 added1 value1 Hstep) as [Hrest Hall].
    split; [exact Hrest|]. intros k. rewrite Hall, Hadded. cbn [In]. split.
    + intros [[Hk|[-> Hkey]]|(Hk & v' & Hin)].
      * now left.
      * right. split; [exact Hkey|]. exists v. now left.
      * right. split; [exact Hk|]. exists v'. now right.
    + intros [Hk|(Hk & v' & [[= <- <-]|Hin])].
      * left. now left.
      * left. right. now split.
      * right. split; [exact Hk|]. now exists v'.
Qed.

Lemma insert_items_grown (header0 : row) (items : list (list (string * jsval))) :
  forall st0 : Sheet.InsertState,
    grown header0 (Sheet.i_header st0) (Sheet.addHeaders st0) ->
    let st := fold_left Sheet.insert_item items st0 in
    grown header0 (Sheet.i_header st) (Sheet.addHeaders st)
    /\ (forall k, In k (Sheet.addHeaders st)
                  <-> In k (Sheet.addHeaders st0)
                      \/ (~ In (column_named k) header0
                          /\ exists item v, In item items /\ In (k, v) item))
    /\ length (Sheet.i_values st) = (length (Sheet.i_values st0) + length items)%nat.
Proof.
  induction items as [|item items IH]; intros st0 Hgrown.
  - cbn [fold_left length]. split; [exact Hgrown|]. split; [|lia].
    intros k. split; [now left|]. intros [Hk|(_ & item & v & [] & _)]. exact Hk.
  - cbn [fold_left].
    destruct (insert_keys_grown header0 item _ _ [] Hgrown) as [Hstep Hadded].
    assert (Hunfold : Sheet.insert_item st0 item
                    = let '(header1, added1, value1) :=
                        fold_left Sheet.insert_key item
                          (Sheet.i_header st0, Sheet.addHeaders st0, []) in
                      {| Sheet.i_header := header1; Sheet.addHeaders := added1;
                         Sheet.i_values := (Sheet.i_values st0 ++ [value1])%list |})
      by reflexivity.
    destruct (fold_left Sheet.insert_key item _) as [[header1 added1] value1].
    rewrite Hunfold. clear Hunfold. cbn [fst snd] in Hstep, Hadded.
    destruct (IH {| Sheet.i_header := header1; Sheet.addHeaders := added1;
                    Sheet.i_values := (Sheet.i_values st0 ++ [value1])%list |} Hstep)
      as (Hrest & Hall & Hlen).
    cbn [Sheet.addHeaders Sheet.i_values] in Hall, Hlen.
    cbv zeta. split; [exact Hrest|]. split.
    + intros k. rewrite Hall, Hadded. cbn [In]. split.
      * intros [[Hk|(Hk & v & Hin)]|(Hk & item' & v & Hitem & Hin)].
        -- now left.
        -- right. split; [exact Hk|]. exists item, v. split; [now left | exact Hin].
        -- right. split; [exact Hk|]. exists item', v. split; [now right | exact Hin].
      * intros [Hk|(Hk & item' & v & [<-|Hitem] & Hin)].
        -- left. now left.
        -- left. right. split; [exact Hk|]. now exists v.
        -- right. split; [exact Hk|]. now exists item', v.
    + rewrite Hlen, length_app. cbn [length]. lia.
Qed.

Lemma first_at_app (header more : row) (k : string) (j : nat) :
  first_at header k j -> first_at (header ++ more) k j.
Proof.
  intros [Hj Hfirst]. pose proof (lookup_lt_Some _ _ _ Hj) as Hlt. split.
  - now apply lookup_app_l_Some.
  - intros j' Hj'. rewrite lookup_app_l by lia. now apply Hfirst.
Qed.

Lemma first_at_fun (header : row) (k k' : string) (j : nat) :
  first_at header k j -> first_at header k' j -> k = k'.
Proof. intros [Hj _] [Hj' _]. congruence. Qed.

Lemma In_first_at (header : row) (key : string) :
  In (column_named key) header -> exists j : nat, first_at header key j.
Proof.
  induction header as [|cell rest IH]; intros Hin; [destruct Hin|].
  assert (Hrest : cell <> column_named key -> exists j, first_at (cell :: rest) key j).
  { intros Hcell. destruct Hin as [->|Hin]; [congruence|].
    destruct (IH Hin) as (j & Hj & Hfirst). exists (S j). split; [exact Hj|].
    intros [|j'] Hlt; [unfold column_named in Hcell; cbn; congruence|].
    apply Hfirst. lia. }
  destruct cell as [[| |b|n|s]|]; try (apply Hrest; discriminate).
  destruct (String.eqb_spec s key) as [->|Hne].
  - exists 0%nat. split; [reflexivity|]. intros j' Hlt. lia.
  - apply Hrest. unfold column_named. congruence.
Qed.

Lemma first_at_new (header : row) (key : string) :
  ~ In (column_named key) header ->
  first_at (header ++ [column_named key]) key (length header).
Proof.
  intros Hnotin. split.
  - rewrite lookup_app_r by lia. now rewrite Nat.sub_diag.
  - intros j' Hlt Hj'. rewrite lookup_app_l in Hj' by lia.
    apply Hnotin, list_elem_of_In. exact (list_elem_of_lookup_2 _ _ _ Hj').
Qed.

Lemma array_set_same {A} (j : nat) (v : A) (a : array A) :
  array_set (Z.of_nat j) v a !! j = Some (Some v).
Proof.
  unfold array_set. destruct (Z.ltb_spec (Z.of_nat j) 0); [lia|].
  rewrite Nat2Z.id. apply array_set_nat_same.
Qed.

Lemma array_set_other {A} (j j' : nat) (v : A) (a : array A) :
  j <> j' -> mjoin (array_set (Z.of_nat j) v a !! j') = mjoin (a !! j').
Proof.
  intros Hne. unfold array_set. destruct (Z.ltb_spec (Z.of_nat j) 0); [lia|].
  rewrite Nat2Z.id. now apply array_set_nat_other.
Qed.

Lemma mjoin_Some {A} (x : option (option A)) (v : A) :
  mjoin x = Some v -> x = Some (Some v).
Proof. destruct x as [[a|]|]; cbn; congruence. Qed.

Lemma placed_app (header more : row) (item : list (string * jsval)) (value : row) :
  placed header item value -> placed (header ++ more) item value.
Proof.
  intros [Hcells Honly]. split.
  - intros k v Hin. destruct (Hcells k v Hin) as (j & Hj & Hv).
    exists j. split; [now apply first_at_app | exact Hv].
  - intros j v Hv. destruct (Honly j v Hv) as (k & Hin & Hj).
    exists k. split; [exact Hin | now apply first_at_app].
Qed.

(** one key more: the cell goes to column [j], the first named [key] in
    the header as it is then *)
Lemma placed_set (header : row) (done : list (string * jsval)) (value : row)
    (key : string) (v : jsval) (j : nat) :
  placed header done value ->
  ~ In key (map fst done) ->
  first_at header key j ->
  placed header (done ++ [(key, v)]) (array_set (Z.of_nat j) v value).
Proof.
  intros [Hcells Honly] Hfresh Hj. split.
  - intros k' v' Hin. apply in_app_or in Hin as [Hin|[[= <- <-]|[]]].
    + destruct (Hcells k' v' Hin) as (j' & Hj' & Hv'). exists j'.
      split; [exact Hj'|]. apply mjoin_Some.
      rewrite array_set_other; [now rewrite Hv'|].
      intros <-. apply Hfresh. rewrite (first_at_fun header key k' j Hj Hj').
      now apply (in_map fst) in Hin.
    + exists j. split; [exact Hj | apply array_set_same].
  - intros j' v' Hv'. destruct (Nat.eq_dec j j') as [<-|Hne].
    + rewrite array_set_same in Hv'. injection Hv' as <-.
      exists key. split; [|exact Hj]. apply in_or_app. right. now left.
    + assert (Hold : value !! j' = Some (Some v')).
      { apply mjoin_Some. rewrite <- (array_set_other j j' v value Hne).
        now rewrite Hv'. }
      destruct (Honly j' v' Hold) as (k & Hin & Hk).
      exists k. split; [|exact Hk]. apply in_or_app. now left.
Qed.

Lemma insert_key_extends (header : row) (added : list string) (value : row)
    (entry : string * jsval) :
  exists more : row,
    fst (fst (Sheet.insert_key (header, added, value) entry)) = (header ++ more)%list.
Proof.
  destruct entry as [key v]. unfold Sheet.insert_key.
  destruct (Sheet.indexOf header key =? -1); cbn [fst]; [now eexists|].
  exists []. now rewrite app_nil_r.
Qed.

Lemma insert_keys_extends (todo : list (string * jsval)) :
  forall (header : row) (added : list string) (value : row),
    exists more : row,
      fst (fst (fold_left Sheet.insert_key todo (header, added, value)))
      = (header ++ more)%list.
Proof.
  induction todo as [|entry todo IH]; intros header added value.
  - exists []. cbn. now rewrite app_nil_r.
  - cbn [fold_left].
    destruct (insert_key_extends header added value entry) as [more Hmore].
    destruct (Sheet.insert_key (header, added, value) entry)
      as [[header1 added1] value1].
    cbn [fst] in Hmore. destruct (IH header1 added1 value1) as [more' Hmore'].
    exists (more ++ more')%list. now rewrite Hmore', Hmore, app_assoc.
Qed.

Lemma insert_key_placed (header : row) (added : list string) (value : row)
    (done : list (string * jsval)) (key : string) (v : jsval) :
  placed header done value ->
  ~ In key (map fst done) ->
  let st := Sheet.insert_key (header, added, value) (key, v) in
  placed (fst (fst st)) (done ++ [(key, v)]) (snd st).
Proof.
  intros Hplaced Hfresh. unfold Sheet.insert_key.
  destruct (Z.eqb_spec (Sheet.indexOf header key) (-1)) as [Hnone|Hfound];
    cbn [fst snd].
  - apply indexOf_none_iff in Hnone.
    apply placed_set; [now apply placed_app | exact Hfresh | now apply first_at_new].
  - destruct (In_first_at header key (indexOf_from_found header key 0 Hfound))
      as (j & Hj).
    unfold Sheet.indexOf. rewrite (indexOf_from_first header key j 0 Hj).
    rewrite Z.add_0_l. now apply placed_set.
Qed.

Lemma insert_keys_placed (todo : list (string * jsval)) :
  forall (header : row) (added : list string) (value : row)
         (done : list (string * jsval)),
    placed header done value ->
    NoDup (map fst (done ++ todo)) ->
    let st := fold_left Sheet.insert_key todo (header, added, value) in
    placed (fst (fst st)) (done ++ todo) (snd st).
Proof.
  induction todo as [|[key v] todo IH]; intros header added value done Hplaced Hnodup.
  - cbn [fold_left fst snd]. now rewrite app_nil_r.
  - cbn [fold_left].
    assert (Hfresh : ~ In key (map fst done)).
    { rewrite map_app in Hnodup. apply NoDup_app in Hnodup as (_ & Hsep & _).
      intros Hin. apply (Hsep key); [now apply list_elem_of_In|].
      apply list_elem_of_In. now left. }
    pose proof (insert_key_placed header added value done key v Hplaced Hfresh)
      as Hstep.
    destruct (Sheet.insert_key (header, added, value) (key, v))
      as [[header1 added1] value1].
    cbn [fst snd] in Hstep.
    pose proof (IH header1 added1 value1 (done ++ [(key, v)])%list Hstep) as Hrest.
    rewrite <- app_assoc in Hrest. now apply Hrest.
Qed.

Lemma placed_nil (header : row) : placed header [] [].
Proof. split; [intros k v [] | intros j v Hv; discriminate Hv]. Qed.

Lemma insert_items_placed (items : list (list (string * jsval))) :
  forall st0 : Sheet.InsertState,
    let st := fold_left Sheet.insert_item items st0 in
    (exists more : row, Sheet.i_header st = (Sheet.i_header st0 ++ more)%list)
    /\ (exists later : list row, Sheet.i_values st = (Sheet.i_values st0 ++ later)%list)
    /\ forall (n : nat) (item : list (string * jsval)),
         items !! n = Some item ->
         NoDup (map fst item) ->
         exists value : row,
           Sheet.i_values st !! (length (Sheet.i_values st0) + n)%nat = Some value
           /\ placed (Sheet.i_header st) item value.
Proof.
  induction items as [|item0 items IH]; intros st0.
  - cbn [fold_left]. split; [exists []; now rewrite app_nil_r|].
    split; [exists []; now rewrite app_nil_r|]. intros n item Hn. discriminate Hn.
  - cbn [fold_left].
    assert (Hunfold : Sheet.insert_item st0 item0
                      = let '(header1, added1, value1) :=
                          fold_left Sheet.insert_key item0
                            (Sheet.i_header st0, Sheet.addHeaders st0, []) in
                        {| Sheet.i_header := header1; Sheet.addHeaders := added1;
                           Sheet.i_values := (Sheet.i_values st0 ++ [value1])%list |})
      by reflexivity.
    pose proof (insert_keys_placed item0 (Sheet.i_header st0) (Sheet.addHeaders st0)
                  [] [] (placed_nil _)) as Hitem0.
    destruct (insert_keys_extends item0 (Sheet.i_header st0) (Sheet.addHeaders st0) [])
      as [more0 Hmore0].
    destruct (fold_left Sheet.insert_key item0 _) as [[header1 added1] value1].
    rewrite Hunfold. clear Hunfold. cbn [fst snd app] in Hitem0, Hmore0.
    destruct (IH {| Sheet.i_header := header1; Sheet.addHeaders := added1;
                    Sheet.i_values := (Sheet.i_values st0 ++ [value1])%list |})
      as ([more Hmore] & [later Hlater] & Hrest).
    cbn [Sheet.i_header Sheet.i_values] in Hmore, Hlater, Hrest. cbv zeta.
    split; [|split].
    + exists (more0 ++ more)%list. now rewrite Hmore, Hmore0, app_assoc.
    + exists ([value1] ++ later)%list. now rewrite Hlater, <- app_assoc.
    + intros [|n] item Hn Hnodup.
      * injection Hn as ->. specialize (Hitem0 Hnodup).
        exists value1. split.
        -- rewrite Hlater, Nat.add_0_r, <- app_assoc.
           rewrite lookup_app_r by lia. now rewrite Nat.sub_diag.
        -- rewrite Hmore. now apply placed_app.
      * destruct (Hrest n item Hn Hnodup) as (value & Hvalue & Hplaced).
        exists value. split; [|exact Hplaced].
        rewrite length_app in Hvalue. cbn [length] in Hvalue.
        now replace (length (Sheet.i_values st0) + S n)%nat
          with (length (Sheet.i_values st0) + 1 + n)%nat by lia.
Qed.

End InsertFacts.

(** X24.  How [insert] grows the header.  Over the documents given, the
    header it ends with is the header it read with new names appended,
    never a cell changed or moved; each new name is appended once, and
    the names appended are exactly the keys of the documents that no
    cell of the header read holds; and one row is built for each
    document. *)
Theorem insert_header_grows (header : row) (items : list (list (string * jsval))) :
  let st := inserted header items in
  Sheet.i_header st = (header ++ map column_named (Sheet.addHeaders st))%list
  /\ NoDup (Sheet.addHeaders st)
  /\ (forall k : string,
        In k (Sheet.addHeaders st)
        <-> ~ In (column_named k) header
            /\ exists item v, In item items /\ In (k, v) item)
  /\ length (Sheet.i_values st) = length items.
Proof.
  destruct (insert_items_grown header items
              {| Sheet.i_header := header; Sheet.addHeaders := []; Sheet.i_values := [] |})
    as ((Hheader & Hnodup & _) & Hadded & Hlen).
  { split; [now rewrite app_nil_r|]. split; [constructor | intros k []]. }
  cbv zeta. unfold inserted. split; [exact Hheader|]. split; [exact Hnodup|].
  split; [|exact Hlen].
  intros k. rewrite Hadded. cbn [Sheet.addHeaders In]. tauto.
Qed.

(** X25.  The rows [insert] appends follow the header.  For each
    document (its keys distinct, as the keys of an object are), the row
    built for it holds each value in the first column of the final
    header that is named by its key, whether that column was in the
    header read or was appended for this or an earlier document, and
    every cell of the row is such a value: the other positions are
    holes. *)
Theorem insert_rows_follow_header (header : row)
    (items : list (list (string * jsval))) (n : nat) (item : list (string * jsval)) :
  items !! n = Some item ->
  NoDup (map fst item) ->
  exists value : row,
    Sheet.i_values (inserted header items) !! n = Some value
    /\ placed (Sheet.i_header (inserted header items)) item value.
Proof.
  intros Hn Hnodup.
  destruct (insert_items_placed items
              {| Sheet.i_header := header; Sheet.addHeaders := [];
                 Sheet.i_values := [] |}) as (_ & _ & Hrows).
  exact (Hrows n item Hn Hnodup).
Qed.

(** On the header [name], [score], the documents [{ score: '9', name:
    'c' }] and [{ age: '3' }]: the second row is [<hole>, <hole>, '3']
    under the header [name], [score], [age]. *)
Lemma insert_rows_follow_header_witness :
  exists value : row,
    Sheet.i_values
      (inserted [Some (JString "name"); Some (JString "score")]
         [ [("score", JString "9"); ("name", JString "c")]; [("age", JString "3")] ])
    !! 1%nat = Some value
    /\ placed [Some (JString "name"); Some (JString "score"); Some (JString "age")]
         [("age", JString "3")] value.
Proof.
  refine (insert_rows_follow_header
            [Some (JString "name"); Some (JString "score")]
            [ [("score", JString "9"); ("name", JString "c")]; [("age", JString "3")] ]
            1 [("age", JString "3")] eq_refl _).
  repeat constructor. intros Hin. apply list_elem_of_In in Hin. destruct Hin.
Defined.

(** ** The calls of an insert *)

Section InsertCalls.
Context {engine : Engine} {transport : Transport}.
Variable this_sheet : jsval.

Lemma grows_bind {A B} (c : M A) (k : A -> M B) :
  grows c -> (forall a, grows (k a)) -> grows (bind c k).
Proof.
  intros Hc Hk w. unfold bind. destruct (Hc w) as [more Hmore].
  destruct (c w) as [[a|e] w1]; cbn [snd] in *; [|now exists more].
  destruct (Hk a w1) as [more' Hmore']. exists (more ++ more')%list.
  now rewrite Hmore', Hmore, app_assoc.
Qed.

Lemma grows_same {A} (c : M A) : (forall w, snd (c w) = w) -> grows c.
Proof. intros Hc w. exists []. now rewrite Hc, app_nil_r. Qed.

Lemma grows_api_call (req : Request) : grows (api_call req).
Proof.
  intros w. exists [req]. unfold api_call. now destruct (respond _ _).
Qed.

Lemma grows_put_data d : grows (put_data d).
Proof. intros w. exists []. cbn. now rewrite app_nil_r. Qed.

Lemma grows_lift {A} (r : result A) : grows (lift r).
Proof. apply grows_same. intros w. unfold lift. now destruct r. Qed.

Ltac grows :=
  repeat first
    [ apply grows_api_call
    | apply grows_put_data
    | apply grows_lift
    | apply grows_same; reflexivity
    | apply grows_bind; [|intros ?]
    | match goal with
      | |- grows (match ?x with _ => _ end) => destruct x
      end ].

Lemma getHeader_cached w sp sh :
  data w = Some sp ->
  List.find (Spreadsheet.sheet_matches this_sheet) (sheets sp) = Some sh ->
  Sheet.getHeader this_sheet w = (Ok (header_of sh), w).
Proof.
  intros Hdata Hfind. unfold Sheet.getHeader, Spreadsheet.list.
  cbn [Spreadsheet.limit Spreadsheet.start Spreadsheet.sheet Spreadsheet.fresh
       default from_option id].
  unfold bind at 1. unfold bind at 1. rewrite (getSheet_cached _ _ _ Hdata), Hfind.
  unfold ret at 1. cbn [num_add num_sub Datatypes.id].
  rewrite (slice_window _ 1 1) by lia. unfold header_of.
  destruct (values sh) as [|first rest]; reflexivity.
Qed.

Lemma bind_assoc {A B C} (c : M A) (f : A -> M B) (k : B -> M C) w :
  bind (bind c f) k w = bind c (fun a => bind (f a) k) w.
Proof. unfold bind. now destruct (c w) as [[a|e] w1]. Qed.

Lemma api_call_then {A} (req : Request) (k : Reply -> M A) w :
  (forall reply, grows (k reply)) ->
  exists rest, calls (snd (bind (api_call req) k w)) = (calls w ++ req :: rest)%list.
Proof.
  intros Hk. unfold bind, api_call.
  destruct (respond (calls w) req) as [reply|]; [|now exists []].
  destruct (Hk reply {| spreadsheetId := spreadsheetId w; data := data w;
                        calls := calls w ++ [req] |}) as [more Hmore].
  exists more. rewrite Hmore. cbn [calls]. now rewrite <- app_assoc.
Qed.

Lemma mapR_rows (rows : list row) :
  mapR Spreadsheet.dataToValue
    (map (fun value => Spreadsheet.Row (Spreadsheet.RowArray value)) rows)
  = Ok rows.
Proof.
  induction rows as [|value rows IH]; [reflexivity|].
  cbn [map mapR Spreadsheet.dataToValue rbind]. now rewrite IH.
Qed.

Lemma append_values_rows (rows : list row) :
  Spreadsheet.append_values (rows_data rows) = Ok (rows_sent rows).
Proof.
  destruct rows as [|first others]; [reflexivity|].
  cbn [rows_data Spreadsheet.append_values rows_sent mapR Spreadsheet.dataToValue rbind].
  now rewrite mapR_rows.
Qed.

Lemma grows_load : grows Spreadsheet.load.
Proof. unfold Spreadsheet.load. intros w. unfold bind, get_data, try_catch.
  destruct (data w) as [d|] eqn:Hd.
  - exists []. cbn. now rewrite app_nil_r.
  - unfold get_spreadsheetId, api_call.
    destruct (respond _ _) as [[[raw|]| | | |]|]; cbn; now eexists.
Qed.

Lemma grows_getSheet selector : grows (Spreadsheet.getSheet selector).
Proof.
  unfold Spreadsheet.getSheet. apply grows_bind; [apply grows_load|].
  intros [sp|]; apply grows_same; reflexivity.
Qed.

(** after the append request *)
Lemma append_calls (d : Spreadsheet.AppendData) (values : list row) w sh
    (k : Spreadsheet.AppendResult -> M Sheet.Data) :
  Spreadsheet.getSheet this_sheet w = (Ok (Some sh), w) ->
  Spreadsheet.append_values d = Ok values ->
  (forall a, grows (k a)) ->
  exists rest,
    calls (snd (bind (Spreadsheet.append d this_sheet) k w))
    = (calls w ++ spreadsheets_values_append (spreadsheetId w)
                    ("'" ++ title sh ++ "'!A:ZZ") values :: rest)%list.
Proof.
  intros Hget Hvalues Hk. unfold Spreadsheet.append.
  rewrite bind_assoc, (bind_Ok _ _ _ _ _ Hget).
  rewrite bind_assoc. unfold bind at 1, lift. rewrite Hvalues.
  rewrite bind_assoc. unfold bind at 1, get_spreadsheetId.
  rewrite bind_assoc. apply api_call_then.
  intros reply. grows. apply Hk.
Qed.

Lemma load_then {A} (k : option SpreadsheetData -> M A) w :
  data w = None ->
  (forall a, grows (k a)) ->
  exists rest,
    calls (snd (bind Spreadsheet.load k w))
    = (calls w ++ spreadsheets_get (spreadsheetId w) :: rest)%list.
Proof.
  intros Hdata Hk. rewrite (bind_Ok _ _ _ _ _ (load_fetch w Hdata)).
  match goal with |- context [k ?a ?w1] => destruct (Hk a w1) as [more Hmore] end.
  exists more. rewrite Hmore. cbn [calls]. now rewrite <- app_assoc.
Qed.

Lemma update_item_header (sh : SheetInfo) (header : row) :
  1 <= rowCount sh ->
  StringToNumber (join "," header) = NaN ->
  Spreadsheet.update_item sh
    {| Spreadsheet.addRows := Num 0; Spreadsheet.addColumns := Num 0;
       Spreadsheet.ranges := [] |}
    (JNumber (Num 1), Spreadsheet.Row (Spreadsheet.RowArray header))
  = Ok {| Spreadsheet.addRows := Num 0; Spreadsheet.addColumns := Num 0;
          Spreadsheet.ranges := [update_range (title sh) (JNumber (Num 1)) header] |}.
Proof.
  intros Hrows Hnumber. unfold Spreadsheet.update_item.
  cbn [Spreadsheet.dataToValue rbind ToNumber Spreadsheet.addRows Spreadsheet.addColumns
       Spreadsheet.ranges app].
  rewrite Hnumber. cbn [num_gt num_lt num_sub andb].
  destruct (Z.ltb_spec (rowCount sh) 1); [lia|]. reflexivity.
Qed.

Lemma updateHeader_cached (header : row) w sh :
  Spreadsheet.getSheet this_sheet w = (Ok (Some sh), w) ->
  1 <= rowCount sh ->
  StringToNumber (join "," header) = NaN ->
  let header_write :=
    spreadsheets_values_batchUpdate (spreadsheetId w)
      [update_range (title sh) (JNumber (Num 1)) header] in
  Sheet.updateHeader this_sheet header w
  = match respond (calls w) header_write with
    | Some _ =>
        (Ok {| Spreadsheet.updatedRows := Num 1 |},
         {| spreadsheetId := spreadsheetId w; data := None;
            calls := calls w ++ [header_write] |})
    | None =>
        (Throw TransportError,
         {| spreadsheetId := spreadsheetId w; data := data w;
            calls := calls w ++ [header_write] |})
    end.
Proof.
  intros Hget Hrows Hnumber header_write.
  unfold Sheet.updateHeader, Spreadsheet.update.
  rewrite (bind_Ok _ _ _ _ _ Hget).
  cbn [Spreadsheet.updateRows map Spreadsheet.foldR].
  change (parseInt_string "1") with (Num 1).
  rewrite (update_item_header sh header Hrows Hnumber).
  cbv [rbind lift bind ret Spreadsheet.expand num_truthy Z.eqb negb app
       Spreadsheet.addRows Spreadsheet.addColumns Spreadsheet.ranges
       get_spreadsheetId api_call put_data set_data].
  fold header_write. destruct (respond (calls w) header_write); reflexivity.
Qed.

(** with nothing cached, an append begins by fetching the spreadsheet *)
Lemma append_fetches (d : Spreadsheet.AppendData) w
    (k : Spreadsheet.AppendResult -> M Sheet.Data) :
  data w = None ->
  (forall a, grows (k a)) ->
  exists rest,
    calls (snd (bind (Spreadsheet.append d this_sheet) k w))
    = (calls w ++ spreadsheets_get (spreadsheetId w) :: rest)%list.
Proof.
  intros Hdata Hk. unfold Spreadsheet.append, Spreadsheet.getSheet.
  rewrite !bind_assoc. apply load_then; [exact Hdata|].
  intros fetched. grows. apply Hk.
Qed.

Lemma keeps_id_bind {A B} (c : M A) (k : A -> M B) :
  keeps_id c -> (forall a, keeps_id (k a)) -> keeps_id (bind c k).
Proof.
  intros Hc Hk w. unfold bind. specialize (Hc w).
  destruct (c w) as [[a|e] w1]; cbn [snd] in *; [|exact Hc].
  now rewrite (Hk a w1).
Qed.

Lemma keeps_id_same {A} (c : M A) : (forall w, snd (c w) = w) -> keeps_id c.
Proof. intros Hc w. now rewrite Hc. Qed.

Lemma keeps_id_api_call (req : Request) : keeps_id (api_call req).
Proof. intros w. unfold api_call. now destruct (respond _ _). Qed.

Lemma keeps_id_put_data d : keeps_id (put_data d).
Proof. intros w. reflexivity. Qed.

Lemma keeps_id_lift {A} (r : result A) : keeps_id (lift r).
Proof. apply keeps_id_same. intros w. unfold lift. now destruct r. Qed.

Lemma keeps_id_getSheet selector : keeps_id (Spreadsheet.getSheet selector).
Proof.
  intros w. destruct (Spreadsheet.getSheet selector w) as [r w1] eqn:Hget.
  exact (getSheet_spreadsheetId _ _ _ _ Hget).
Qed.

Lemma keeps_id_expand rows columns sheetId :
  keeps_id (Spreadsheet.expand rows columns sheetId).
Proof. intros w. apply expand_spreadsheetId. Qed.

Ltac keeps_id :=
  repeat first
    [ apply keeps_id_api_call
    | apply keeps_id_put_data
    | apply keeps_id_lift
    | apply keeps_id_getSheet
    | apply keeps_id_expand
    | apply keeps_id_same; reflexivity
    | apply keeps_id_bind; [|intros ?]
    | match goal with
      | |- keeps_id (match ?x with _ => _ end) => destruct x
      end ].

Lemma keeps_id_update u sheet upsert : keeps_id (Spreadsheet.update u sheet upsert).
Proof. unfold Spreadsheet.update. keeps_id. Qed.

(** what a successful append went through *)
Lemma append_Ok_inv (d : Spreadsheet.AppendData) (sheet : jsval) w w'
    (ret_ : Spreadsheet.AppendResult) :
  Spreadsheet.append d sheet w = (Ok ret_, w') ->
  exists (sh : SheetInfo) (w1 : Spreadsheet) (values : list row)
         (updates : AppendUpdates) (m : Spreadsheet.RangeMatch),
    let request :=
      spreadsheets_values_append (spreadsheetId w1) ("'" ++ title sh ++ "'!A:ZZ") values in
    Spreadsheet.getSheet sheet w = (Ok (Some sh), w1)
    /\ Spreadsheet.append_values d = Ok values
    /\ respond (calls w1) request = Some (reply_append updates)
    /\ Spreadsheet.match_range (updatedRange updates) = Some m
    /\ Spreadsheet.startRow ret_ = parseInt_string (Spreadsheet.m_startRow m)
    /\ exists after, calls w' = (calls w1 ++ request :: after)%list.
Proof.
  unfold Spreadsheet.append. intros H.
  apply bind_inv_Ok in H as ([sh|] & w1 & Hget & H); [|discriminate H].
  apply bind_inv_Ok in H as (values & w2 & Hvalues & H).
  unfold lift in Hvalues.
  destruct (Spreadsheet.append_values d) as [values'|e] eqn:Hd; [|discriminate].
  injection Hvalues as -> <-.
  apply bind_inv_Ok in H as (sid & w3 & Hsid & H).
  injection Hsid as <- <-.
  apply bind_inv_Ok in H as (reply & w4 & Hcall & H).
  unfold api_call in Hcall.
  destruct (respond (calls w1) _) as [reply'|] eqn:Hreply; [|discriminate].
  injection Hcall as -> <-.
  destruct reply as [| |updates| |]; try discriminate H.
  destruct (Spreadsheet.match_range (updatedRange updates)) as [m|] eqn:Hm;
    [|discriminate H].
  exists sh, w1, values, updates, m. cbv zeta.
  split; [exact Hget|]. split; [reflexivity|]. split; [exact Hreply|].
  split; [exact Hm|]. split.
  - apply bind_inv_Ok in H as (u & w5 & _ & H).
    apply bind_inv_Ok in H as (u' & w6 & _ & H).
    now injection H as <- _.
  - match type of H with
    | ?c ?w0 = _ =>
        assert (Hgrows : grows c) by grows;
        destruct (Hgrows w0) as [more Hmore]
    end.
    rewrite H in Hmore. cbn [snd calls] in Hmore.
    exists more. rewrite Hmore. now rewrite <- app_assoc.
Qed.

(** the header write of [insert], when there is one, is addressed to the
    same spreadsheet *)
Lemma insert_header_step_id (st : Sheet.InsertState) w r w1 :
  match Sheet.addHeaders st with
  | [] => ret tt
  | _ => bind (Sheet.updateHeader this_sheet (Sheet.i_header st)) (fun _ => ret tt)
  end w = (r, w1) ->
  spreadsheetId w1 = spreadsheetId w.
Proof.
  intros Hstep.
  assert (Hkeeps : keeps_id
            match Sheet.addHeaders st with
            | [] => ret tt
            | _ => bind (Sheet.updateHeader this_sheet (Sheet.i_header st))
                     (fun _ => ret tt)
            end).
  { destruct (Sheet.addHeaders st); [apply keeps_id_same; reflexivity|].
    apply keeps_id_bind; [apply keeps_id_update | intros ?; apply keeps_id_same; reflexivity]. }
  specialize (Hkeeps w). now rewrite Hstep in Hkeeps.
Qed.

(** [insert] once the header is read and the rows are built *)
Lemma insert_cached (items : list (list (string * jsval))) w sp sh :
  data w = Some sp ->
  List.find (Spreadsheet.sheet_matches this_sheet) (sheets sp) = Some sh ->
  let st := inserted (header_of sh) items in
  Sheet.insert this_sheet (Sheet.ManyDocuments items) w
  = bind (match Sheet.addHeaders st with
          | [] => ret tt
          | _ => bind (Sheet.updateHeader this_sheet (Sheet.i_header st)) (fun _ => ret tt)
          end)
      (fun _ =>
         bind (Spreadsheet.append (rows_data (Sheet.i_values st)) this_sheet)
           (fun ret_ =>
              lift (Sheet.valuesToData
                      (Some (Sheet.i_header st :: Sheet.i_values st))
                      (Some {| Sheet.o_sheet := None; Sheet.o_start := None;
                               Sheet.o_limit := None; Sheet.o_fresh := false;
                               Sheet.o_skip := None; Sheet.o_sort := None;
                               Sheet.o_header := false;
                               Sheet.o_startRow := Some (Spreadsheet.startRow ret_);
                               Sheet.o_column := false;
                               Sheet.o_lowercase := false |})))) w.
Proof.
  intros Hdata Hfind st. unfold Sheet.insert.
  now rewrite (bind_Ok _ _ _ _ _ (getHeader_cached w sp sh Hdata Hfind)).
Qed.

End InsertCalls.

(** X26.  The calls of [insert], on a cached spreadsheet whose sheet
    resolves.  The header is read from the cache, at no call.  When
    every key of the documents is a cell of the header, the first call
    is the append request, with the rows built, on ['title'!A:ZZ]: the
    header row is not written.  When a document brings a new key, the
    first call writes row 1 with the whole grown header (a header that
    does not read as a number, on a sheet of at least one row, takes no
    expansion first); if that write is rejected [insert] throws and
    appends nothing, and if it is accepted the cache is dropped, so the
    spreadsheet is fetched again before the rows are appended. *)
Theorem insert_calls {engine : Engine} {transport : Transport}
    (this_sheet : jsval) (items : list (list (string * jsval)))
    (w : Spreadsheet) (sp : SpreadsheetData) (sh : SheetInfo) :
  data w = Some sp ->
  List.find (Spreadsheet.sheet_matches this_sheet) (sheets sp) = Some sh ->
  let st := inserted (header_of sh) items in
  let append_request :=
    spreadsheets_values_append (spreadsheetId w) ("'" ++ title sh ++ "'!A:ZZ")
      (rows_sent (Sheet.i_values st)) in
  let header_write :=
    spreadsheets_values_batchUpdate (spreadsheetId w)
      [update_range (title sh) (JNumber (Num 1)) (Sheet.i_header st)] in
  (Sheet.addHeaders st = [] ->
   exists rest,
     calls (snd (Sheet.insert this_sheet (Sheet.ManyDocuments items) w))
     = (calls w ++ append_request :: rest)%list)
  /\ (Sheet.addHeaders st <> [] ->
      1 <= rowCount sh ->
      StringToNumber (join "," (Sheet.i_header st)) = NaN ->
      (respond (calls w) header_write = None ->
       Sheet.insert this_sheet (Sheet.ManyDocuments items) w
       = (Throw TransportError,
          {| spreadsheetId := spreadsheetId w; data := data w;
             calls := calls w ++ [header_write] |}))
      /\ (forall reply,
            respond (calls w) header_write = Some reply ->
            exists rest,
              calls (snd (Sheet.insert this_sheet (Sheet.ManyDocuments items) w))
              = (calls w ++ header_write :: spreadsheets_get (spreadsheetId w) :: rest)%list)).
Proof.
  intros Hdata Hfind st append_request header_write.
  pose proof (getSheet_cached this_sheet w sp Hdata) as Hget. rewrite Hfind in Hget.
  rewrite (insert_cached this_sheet items w sp sh Hdata Hfind). fold st.
  split.
  - intros ->. rewrite (bind_Ok _ _ _ _ _ (eq_refl : ret tt w = (Ok tt, w))).
    apply (append_calls this_sheet _ _ w sh); [exact Hget | apply append_values_rows |].
    intros a. apply grows_lift.
  - intros Hnew Hrows Hnumber.
    pose proof (updateHeader_cached this_sheet (Sheet.i_header st) w sh Hget Hrows Hnumber)
      as Hwrite.
    cbv zeta in Hwrite. fold header_write in Hwrite.
    destruct (Sheet.addHeaders st) as [|name names]; [contradiction|].
    split.
    + intros Hreply. rewrite Hreply in Hwrite.
      rewrite bind_assoc. now rewrite (bind_Throw _ _ _ _ _ Hwrite).
    + intros reply Hreply. rewrite Hreply in Hwrite.
      rewrite bind_assoc, (bind_Ok _ _ _ _ _ Hwrite).
      unfold bind at 1, ret at 1.
      match goal with
      | |- context [bind _ ?k ?w2] =>
          destruct (append_fetches this_sheet (rows_data (Sheet.i_values st)) w2 k eq_refl)
            as [rest Hrest]; [intros a; apply grows_lift|]
      end.
      exists rest. rewrite Hrest. cbn [calls spreadsheetId].
      now rewrite <- app_assoc.
Qed.

(** On the sheet "S": a document with the known key [name] goes out
    with the append request as the first call; a document with the new
    key [age] makes the header write the first call and the fetch of
    the spreadsheet the second. *)
Lemma insert_calls_witness :
  (exists rest,
      calls (snd (@Sheet.insert Example.engine Example.accepting JUndefined
                    (Sheet.ManyDocuments [ [("name", JString "c")] ]) Example.loaded))
      = spreadsheets_values_append "doc" "'S'!A:ZZ" [ [Some (JString "c")] ] :: rest)
  /\ (exists rest,
        calls (snd (@Sheet.insert Example.engine Example.accepting JUndefined
                      (Sheet.ManyDocuments [ [("age", JString "3")] ]) Example.loaded))
        = spreadsheets_values_batchUpdate "doc"
            [ {| range := "'S'!A1:ZZ1";
                 vr_values := [ [Some (JString "name"); Some (JString "score");
                                 Some (JString "age")] ] |} ]
          :: spreadsheets_get "doc" :: rest).
Proof.
  split.
  - exact (proj1 (@insert_calls Example.engine Example.accepting JUndefined
                    [ [("name", JString "c")] ] Example.loaded Example.snapshot
                    Example.sheet_S eq_refl eq_refl) eq_refl).
  - refine (proj2 (proj2 (@insert_calls Example.engine Example.accepting JUndefined
                            [ [("age", JString "3")] ] Example.loaded Example.snapshot
                            Example.sheet_S eq_refl eq_refl) _ _ eq_refl)
              reply_other eq_refl).
    + discriminate.
    + cbn. lia.
Defined.

(** ** The documents an insert returns *)

Section InsertResult.
Context {engine : Engine} {transport : Transport}.
Variable this_sheet : jsval.

Lemma first_at_inj (header : row) (k : string) (j j' : nat) :
  first_at header k j -> first_at header k j' -> j = j'.
Proof.
  intros [Hj Hfirst] [Hj' Hfirst'].
  destruct (Nat.lt_trichotomy j j') as [Hlt|[Heq|Hgt]]; [|exact Heq|].
  - now destruct (Hfirst' j Hlt).
  - now destruct (Hfirst j' Hgt).
Qed.

(** the one name a cell of a placed row is written under *)
Lemma writes_placed (header : row) (item : list (string * jsval)) (value : row)
    (j : nat) (v : jsval) :
  placed header item value ->
  value !! j = Some (Some v) ->
  exists k : string,
    In (k, v) item /\ first_at header k j
    /\ writes header false j = if nonempty k then [k] else [].
Proof.
  intros [_ Honly] Hv. destruct (Honly j v Hv) as (k & Hin & Hj).
  exists k. split; [exact Hin|]. split; [exact Hj|].
  unfold writes. destruct Hj as [-> _]. cbn [truthy ToString].
  rewrite app_nil_r. reflexivity.
Qed.

Lemma row_to_doc_item (header : row) (options : Sheet.Options) (i : nat)
    (item : list (string * jsval)) (value : row) :
  Sheet.o_column options = false ->
  placed header item value ->
  ~ In "_row" (map fst item) ->
  let doc := Sheet.row_to_doc header options i value in
  doc !! "_row" = Some (JNumber (Num (numbered (Sheet.o_startRow options) i)))
  /\ (forall k v, In (k, v) item -> k <> "" -> doc !! k = Some (or_empty v))
  /\ (forall k, k <> "_row" -> (forall v, ~ In (k, v) item) -> doc !! k = None).
Proof.
  intros Hcolumn Hplaced Hrow doc.
  assert (Hwrites : forall (j : nat) (v : jsval) (k : string),
            value !! j = Some (Some v) -> In k (writes header false j) ->
            In (k, v) item /\ first_at header k j).
  { intros j v k Hv Hk.
    destruct (writes_placed header item value j v Hplaced Hv) as (k' & Hin & Hj & Hw).
    rewrite Hw in Hk. destruct (nonempty k'); [|destruct Hk].
    destruct Hk as [<-|[]]. now split. }
  pose proof (row_to_doc_populated header options i value) as [Hfields Hnone].
  rewrite Hcolumn in Hfields, Hnone. fold doc in Hfields, Hnone.
  split; [|split].
  - unfold doc, Sheet.row_to_doc. rewrite Hcolumn, set_cells_untouched.
    + rewrite lookup_singleton_eq. now rewrite row_number_numbered.
    + intros j v Hv Hk. destruct (Hwrites _ _ _ Hv Hk) as [Hin _].
      apply Hrow. now apply (in_map fst) in Hin.
  - intros k v Hin Hk. destruct Hplaced as [Hcells Honly].
    destruct (Hcells k v Hin) as (j & Hj & Hv).
    apply (Hfields j v k Hv).
    + unfold writes. destruct Hj as [-> _]. cbn [truthy ToString].
      destruct k; [contradiction|]. now left.
    + intros j' v' Hlt Hv' Hk'.
      destruct (Hwrites _ _ _ Hv' Hk') as [_ Hj'].
      pose proof (first_at_inj header k j j' Hj Hj'). lia.
  - intros k Hk Hnotin. apply Hnone; [exact Hk|].
    intros j v Hv Hin. destruct (Hwrites _ _ _ Hv Hin) as [Hitem _].
    exact (Hnotin v Hitem).
Qed.

End InsertResult.

(** X27.  What [insert] returns.  On a cached spreadsheet whose sheet
    resolves, and for documents whose keys are distinct and are not
    [_row], a successful [insert] has made an append request carrying
    the rows built, to which the service answered with a range of the
    expected form; and every document returned comes from one of the
    documents given: it has each field of that document with a
    non-empty key, holding the value given or the empty string for a
    falsy one; it has no other field than these and [_row]; and its
    [_row] is the start row read from that range plus the position of
    the document among those given (or that position plus 2 when the
    start row reads as 0). *)
Theorem insert_returns_documents {engine : Engine} {transport : Transport}
    (this_sheet : jsval) (items : list (list (string * jsval)))
    (w w' : Spreadsheet) (sp : SpreadsheetData) (sh : SheetInfo)
    (result : Sheet.Data) :
  data w = Some sp ->
  List.find (Spreadsheet.sheet_matches this_sheet) (sheets sp) = Some sh ->
  (forall item, In item items -> NoDup (map fst item) /\ ~ In "_row" (map fst item)) ->
  Sheet.insert this_sheet (Sheet.ManyDocuments items) w = (Ok result, w') ->
  exists (before after : list Request) (range : string)
         (updates : AppendUpdates) (m : Spreadsheet.RangeMatch),
    let request :=
      spreadsheets_values_append (spreadsheetId w) range
        (rows_sent (Sheet.i_values (inserted (header_of sh) items))) in
    calls w' = (before ++ request :: after)%list
    /\ respond before request = Some (reply_append updates)
    /\ Spreadsheet.match_range (updatedRange updates) = Some m
    /\ forall doc : Sheet.Doc,
         In doc (Sheet.docs result) ->
         exists (n : nat) (item : list (string * jsval)),
           items !! n = Some item
           /\ doc !! "_row"
              = Some (JNumber (Num (numbered
                        (Some (parseInt_string (Spreadsheet.m_startRow m))) (S n))))
           /\ (forall k v, In (k, v) item -> k <> "" -> doc !! k = Some (or_empty v))
           /\ (forall k, k <> "_row" -> (forall v, ~ In (k, v) item) -> doc !! k = None).
Proof.
  intros Hdata Hfind Hitems Hinsert.
  rewrite (insert_cached this_sheet items w sp sh Hdata Hfind) in Hinsert.
  apply bind_inv_Ok in Hinsert as (u & w1 & Hheader & Hinsert).
  apply insert_header_step_id in Hheader.
  apply bind_inv_Ok in Hinsert as (ret_ & w2 & Happend & Hresult).
  apply append_Ok_inv in Happend
    as (sh1 & w1' & values & updates & m & Hget & Hvalues & Hreply & Hm & Hstart
        & after & Hcalls).
  apply getSheet_spreadsheetId in Hget. rewrite Hget, Hheader in Hreply, Hcalls.
  rewrite append_values_rows in Hvalues. injection Hvalues as <-.
  unfold lift in Hresult.
  destruct (Sheet.valuesToData _ _) as [listed|e] eqn:Hlisted; [|discriminate].
  injection Hresult as -> ->.
  exists (calls w1'), after, ("'" ++ title sh1 ++ "'!A:ZZ"), updates, m.
  cbv zeta. split; [exact Hcalls|]. split; [exact Hreply|]. split; [exact Hm|].
  rewrite <- Hstart. intros doc Hdoc.
  unfold Sheet.valuesToData in Hlisted.
  cbn [default from_option id Sheet.o_lowercase Sheet.o_header] in Hlisted.
  rewrite mapR_header_cell in Hlisted. cbn [rbind] in Hlisted.
  injection Hlisted as <-. cbn [Sheet.docs Sheet.rows_to_docs Nat.eqb orb] in Hdoc.
  apply rows_to_docs_In in Hdoc as (n & value & Hvalue & _ & ->).
  destruct (insert_items_placed items
              {| Sheet.i_header := header_of sh; Sheet.addHeaders := [];
                 Sheet.i_values := [] |}) as (_ & _ & Hrows).
  fold (inserted (header_of sh) items) in Hrows. cbn [Sheet.i_values length] in Hrows.
  destruct (insert_items_grown (header_of sh) items
              {| Sheet.i_header := header_of sh; Sheet.addHeaders := [];
                 Sheet.i_values := [] |}) as (_ & _ & Hlen).
  { split; [now rewrite app_nil_r|]. split; [constructor | intros k []]. }
  fold (inserted (header_of sh) items) in Hlen. cbn [Sheet.i_values length] in Hlen.
  pose proof (lookup_lt_Some _ _ _ Hvalue) as Hn. rewrite Hlen in Hn.
  destruct (lookup_lt_is_Some_2 items n ltac:(lia)) as [item Hitem].
  assert (Hin : In item items).
  { apply list_elem_of_In. exact (list_elem_of_lookup_2 _ _ _ Hitem). }
  destruct (Hitems item Hin) as [Hnodup Hrow].
  destruct (Hrows n item Hitem Hnodup) as (value' & Hvalue' & Hplaced).
  cbn [Nat.add] in Hvalue'. rewrite Hvalue in Hvalue'. injection Hvalue' as <-.
  exists n, item. split; [exact Hitem|].
  match goal with
  | |- context [Sheet.row_to_doc ?header ?options _ _] =>
      exact (row_to_doc_item header options (1 + n) item value eq_refl Hplaced Hrow)
  end.
Qed.

(** On the sheet "S", with the append reported at ['S'!C5:D6]: the
    document [{ name: 'c' }] comes back as [{ _row: 5, name: 'c' }]. *)
Lemma insert_returns_documents_witness :
  fst (@Sheet.insert Example.engine Example.appending_at_C5 JUndefined
         (Sheet.ManyDocuments [ [("name", JString "c")] ]) Example.loaded)
  = Ok {| Sheet.docs := [ <[ "name" := JString "c" ]> {[ "_row" := JNumber (Num 5) ]} ];
          Sheet._header := None |}
  /\ exists (before after : list Request) (range : string)
            (updates : AppendUpdates) (m : Spreadsheet.RangeMatch),
       calls (snd (@Sheet.insert Example.engine Example.appending_at_C5 JUndefined
                     (Sheet.ManyDocuments [ [("name", JString "c")] ]) Example.loaded))
       = (before ++ spreadsheets_values_append "doc" range [ [Some (JString "c")] ]
                 :: after)%list
       /\ @respond Example.appending_at_C5 before
            (spreadsheets_values_append "doc" range [ [Some (JString "c")] ])
          = Some (reply_append updates)
       /\ Spreadsheet.match_range (updatedRange updates) = Some m
       /\ forall doc : Sheet.Doc,
            In doc [ <[ "name" := JString "c" ]> {[ "_row" := JNumber (Num 5) ]} ] ->
            exists (n : nat) (item : list (string * jsval)),
              [ [("name", JString "c")] ] !! n = Some item
              /\ doc !! "_row"
                 = Some (JNumber (Num (numbered
                           (Some (parseInt_string (Spreadsheet.m_startRow m))) (S n))))
              /\ (forall k v, In (k, v) item -> k <> "" -> doc !! k = Some (or_empty v))
              /\ (forall k, k <> "_row" -> (forall v, ~ In (k, v) item) -> doc !! k = None).
Proof.
  split; [reflexivity|].
  refine (@insert_returns_documents Example.engine Example.appending_at_C5 JUndefined
            [ [("name", JString "c")] ] Example.loaded _ Example.snapshot
            Example.sheet_S
            {| Sheet.docs := [ <[ "name" := JString "c" ]> {[ "_row" := JNumber (Num 5) ]} ];
               Sheet._header := None |}
            eq_refl eq_refl _ eq_refl).
  intros item [<-|[]]. split.
  - repeat constructor. intros Hin. apply list_elem_of_In in Hin. destruct Hin.
  - intros [Hrow|[]]. discriminate Hrow.
Defined.

(** ** An update that matches nothing *)

(** X28.  [update] with a query that matches no document does not stop
    there: it hands the adapter an empty list of rows, and the adapter
    still makes one [spreadsheets.values.batchUpdate] call, with no
    range in it, then drops the cache and reports 0 updated rows; when
    that call is rejected, the update throws. *)
Theorem update_without_match {engine : Engine} {transport : Transport}
    (this_sheet : jsval) (query : option Sheet.Query) (patch : Sheet.Patch)
    (w w1 w2 : Spreadsheet) (found : Sheet.Data) (sh : SheetInfo) :
  Sheet.find this_sheet query (Some with_header) w = (Ok found, w1) ->
  Sheet.docs found = [] ->
  Spreadsheet.getSheet this_sheet w1 = (Ok (Some sh), w2) ->
  let write := spreadsheets_values_batchUpdate (spreadsheetId w2) [] in
  Sheet.update this_sheet query patch w
  = match respond (calls w2) write with
    | Some _ =>
        (Ok {| Spreadsheet.updatedRows := Num 0 |},
         {| spreadsheetId := spreadsheetId w2; data := None;
            calls := calls w2 ++ [write] |})
    | None =>
        (Throw TransportError,
         {| spreadsheetId := spreadsheetId w2; data := data w2;
            calls := calls w2 ++ [write] |})
    end.
Proof.
  intros Hfind Hdocs Hget write. unfold Sheet.update.
  fold with_header. rewrite (bind_Ok _ _ _ _ _ Hfind), Hdocs.
  cbn [Spreadsheet.foldR]. unfold bind at 1, lift.
  unfold Spreadsheet.update. rewrite (bind_Ok _ _ _ _ _ Hget).
  cbv [Spreadsheet.updateRows Spreadsheet.foldR rbind lift bind ret Spreadsheet.expand
       num_truthy Z.eqb negb app Spreadsheet.addRows Spreadsheet.addColumns
       Spreadsheet.ranges get_spreadsheetId api_call put_data set_data length
       Z.of_nat Z.add].
  fold write. destruct (respond (calls w2) write); reflexivity.
Qed.

(** On the sheet "S" no name is ['z']: [update({ name: 'z' }, { score:
    '1' })] makes the empty write. *)
Lemma update_without_match_witness :
  @Sheet.update Example.engine Example.accepting JUndefined
    (Some [("name", Sheet.QValue (JString "z"))])
    [("score", Sheet.PatchLiteral (JString "1"))] Example.loaded
  = (Ok {| Spreadsheet.updatedRows := Num 0 |},
     {| spreadsheetId := "doc"; data := None;
        calls := [spreadsheets_values_batchUpdate "doc" []] |}).
Proof.
  exact (@update_without_match Example.engine Example.accepting JUndefined
           (Some [("name", Sheet.QValue (JString "z"))])
           [("score", Sheet.PatchLiteral (JString "1"))]
           Example.loaded Example.loaded Example.loaded
           {| Sheet.docs := [];
              Sheet._header := Some [Some (JString "name"); Some (JString "score")] |}
           Example.sheet_S eq_refl eq_refl eq_refl).
Defined.
